(** * Expert-System: the diagnostic rule engine and the rule catalog tools

    A shallow embedding of [support_app/expert_engine.py] (condition
    evaluator, rule scorer, diagnosis ranker, the built-in catalog) and of
    [support_app/rule_import.py] (validation and merging of rule files),
    with the properties of the specification proved about them.

    Conventions of the embedding.
    - Python values are dynamically typed: [atom] holds the immutable
      scalars, [pyval] adds lists and string-keyed dicts (insertion-ordered
      association lists, as Python dicts are).
    - A Python [float] is a binary64 number: the finite ones are the
      rationals they stand for, every operation rounds to the nearest
      double (ties to even), and the infinities and NaN are values.
    - A raised exception is a [Raise] result; [try/except Exception] is a
      match on it.
    - The engine never mutates its arguments, so it works on values.  The
      validator mutates condition dicts that the caller still holds, so the
      module [RuleImport] works on a store of objects addressed by
      location. *)

From Stdlib Require Import ZArith QArith Qround Qabs Qpower Lia Lqa Ascii String List Permutation Sorted.
From stdpp Require Import base gmap strings list.

Local Open Scope string_scope.
Local Open Scope list_scope.

(** ** Python values and builtins *)

Module Py.

Inductive exn := KeyError | TypeError | ValueError | AttributeError | OverflowError.

Inductive res (A : Type) : Type :=
| Ok (a : A)
| Raise (e : exn).
Arguments Ok {A} a.
Arguments Raise {A} e.

Definition bind {A B : Type} (m : res A) (k : A -> res B) : res B :=
  match m with
  | Ok a => k a
  | Raise e => Raise e
  end.

Notation "'do' x <- m ; k" := (bind m (fun x => k))
  (at level 10, x name, m at level 100, k at level 200).

(** [try: m except Exception: d] *)
Definition try_except {A : Type} (m : res A) (d : A) : A :=
  match m with
  | Ok a => a
  | Raise _ => d
  end.

(** *** Floats

    A Python [float] is an IEEE 754 binary64 number: a finite double (the
    rational it stands for, in lowest terms), an infinity or NaN.  The two
    zeros are one value here: no operation of the programs tells them
    apart ([-0.0 == 0.0], and a division by either raises). *)

Inductive float :=
| FFin (q : Q)
| FInf (neg : bool)
| FNan.

Definition pow2 (e : Z) : Q := Qpower 2 e.

(** The integer part of the binary logarithm of [|q|], for [q] other
    than zero. *)
Definition ilog2 (q : Q) : Z :=
  let n := Z.abs (Qnum q) in
  let d := Zpos (Qden q) in
  let e := (Z.log2 n - Z.log2 d)%Z in
  if (Z.shiftl n (Z.max 0 (- e)) <? Z.shiftl d (Z.max 0 e))%Z
  then (e - 1)%Z else e.

(** The nearest integer, a tie going to the even one. *)
Definition round_half_even (q : Q) : Z :=
  let f := Qfloor q in
  match Qcompare (q - inject_Z f) (1 # 2) with
  | Lt => f
  | Gt => (f + 1)%Z
  | Eq => if Z.even f then f else (f + 1)%Z
  end.

(** Rounding to binary64, to nearest, ties to even: 53 bits of
    precision, the least exponent -1074 (subnormal numbers included), an
    infinity from [2^1024] on.  Every float operation of Python is the
    exact operation followed by this rounding. *)
Definition round (q0 : Q) : float :=
  let q := Qred q0 in
  if Qeq_bool q 0 then FFin 0
  else
    let e := Z.max (ilog2 q - 52) (-1074) in
    let r := Qred (inject_Z (round_half_even (q / pow2 e)) * pow2 e) in
    if Qle_bool (pow2 1024) (Qabs r) then FInf (negb (Qle_bool 0 q))
    else FFin r.

Definition fadd (a b : float) : float :=
  match a, b with
  | FNan, _ | _, FNan => FNan
  | FFin x, FFin y => round (x + y)
  | FInf s, FInf t => if Bool.eqb s t then FInf s else FNan
  | FInf s, FFin _ | FFin _, FInf s => FInf s
  end.

Definition fmul (a b : float) : float :=
  match a, b with
  | FNan, _ | _, FNan => FNan
  | FFin x, FFin y => round (x * y)
  | FInf s, FInf t => FInf (xorb s t)
  | FInf s, FFin y | FFin y, FInf s =>
      if Qeq_bool y 0 then FNan else FInf (xorb s (negb (Qle_bool 0 y)))
  end.

(** [a / b] for a divisor other than zero.  Python raises
    [ZeroDivisionError] for a zero divisor; the divisions of the programs
    are by the constant 100.0 or behind a test of the divisor against
    zero, so that the case never arises. *)
Definition fdiv (a b : float) : float :=
  match a, b with
  | FNan, _ | _, FNan => FNan
  | FFin x, FFin y => round (x / y)
  | FInf _, FInf _ => FNan
  | FInf s, FFin y => FInf (xorb s (negb (Qle_bool 0 y)))
  | FFin _, FInf _ => FFin 0
  end.

(** [a <= b], [a < b], [a == b]: false as soon as one side is NaN. *)
Definition fle (a b : float) : bool :=
  match a, b with
  | FNan, _ | _, FNan => false
  | FFin x, FFin y => Qle_bool x y
  | FInf true, _ | _, FInf false => true
  | FInf false, _ | _, FInf true => false
  end.

Definition flt (a b : float) : bool := fle a b && negb (fle b a).
Definition feq (a b : float) : bool := fle a b && fle b a.

Definition is_nan (a : float) : bool :=
  match a with
  | FNan => true
  | _ => false
  end.

Inductive atom :=
| ANone
| ABool (b : bool)
| AInt (z : Z)
| AFloat (f : float)
| AStr (s : string).

#[warnings="-register-all"]
Inductive pyval :=
| VAtom (a : atom)
| VList (l : list pyval)
| VDict (d : list (string * pyval)).

Definition dict := list (string * pyval).

Definition vnone : pyval := VAtom ANone.
Definition vbool (b : bool) : pyval := VAtom (ABool b).
Definition vint (z : Z) : pyval := VAtom (AInt z).
Definition vstr (s : string) : pyval := VAtom (AStr s).

(** A float literal of the source: the double nearest to the decimal. *)
Definition vfloat (q : Q) : pyval := VAtom (AFloat (round q)).

(** *** Dict access on association lists *)

Section Assoc.
Context {V : Type}.

Fixpoint assoc (k : string) (d : list (string * V)) : option V :=
  match d with
  | [] => None
  | (k', v) :: d' => if String.eqb k k' then Some v else assoc k d'
  end.

(** [d[k] = v]: an existing key keeps its position, a new one goes last. *)
Fixpoint assoc_set (k : string) (v : V) (d : list (string * V))
  : list (string * V) :=
  match d with
  | [] => [(k, v)]
  | (k', v') :: d' =>
      if String.eqb k k' then (k, v) :: d' else (k', v') :: assoc_set k v d'
  end.

Definition has_key (k : string) (d : list (string * V)) : bool :=
  match assoc k d with Some _ => true | None => false end.
End Assoc.

(** *** Strings

    A [str] is kept as its UTF-8 encoding: equality, order and the
    substring test on code points are those on the bytes. *)

Fixpoint is_prefix (p s : string) : bool :=
  match p, s with
  | EmptyString, _ => true
  | String a p', String b s' => Ascii.eqb a b && is_prefix p' s'
  | String _ _, EmptyString => false
  end.

(** [needle in hay] for two strings *)
Fixpoint str_contains (needle hay : string) : bool :=
  is_prefix needle hay ||
  match hay with
  | EmptyString => false
  | String _ hay' => str_contains needle hay'
  end.

(** The code points of a string.  A byte that starts no well-formed
    sequence stands for itself plus [2^21], the code of no character. *)
Definition cont_byte (c : ascii) : option N :=
  let n := N_of_ascii c in
  if ((128 <=? n) && (n <? 192))%N then Some (n - 128)%N else None.

Definition utf8_next (s : list ascii) : N * list ascii :=
  match s with
  | [] => (0%N, [])
  | c :: s' =>
      let n := N_of_ascii c in
      let bad := ((n + 2097152)%N, s') in
      if (n <? 128)%N then (n, s')
      else if (n <? 192)%N then bad
      else if (n <? 224)%N then
        match s' with
        | c1 :: r =>
            match cont_byte c1 with
            | Some b1 =>
                let cp := ((n - 192) * 64 + b1)%N in
                if (128 <=? cp)%N then (cp, r) else bad
            | None => bad
            end
        | _ => bad
        end
      else if (n <? 240)%N then
        match s' with
        | c1 :: c2 :: r =>
            match cont_byte c1, cont_byte c2 with
            | Some b1, Some b2 =>
                let cp := (((n - 224) * 64 + b1) * 64 + b2)%N in
                if ((2048 <=? cp) && negb ((55296 <=? cp) && (cp <? 57344)))%N
                then (cp, r) else bad
            | _, _ => bad
            end
        | _ => bad
        end
      else if (n <? 248)%N then
        match s' with
        | c1 :: c2 :: c3 :: r =>
            match cont_byte c1, cont_byte c2, cont_byte c3 with
            | Some b1, Some b2, Some b3 =>
                let cp := ((((n - 240) * 64 + b1) * 64 + b2) * 64 + b3)%N in
                if ((65536 <=? cp) && (cp <? 1114112))%N then (cp, r) else bad
            | _, _, _ => bad
            end
        | _ => bad
        end
      else bad
  end.

Fixpoint utf8_decode (fuel : nat) (s : list ascii) : list N :=
  match fuel, s with
  | S fuel', _ :: _ =>
      let '(cp, r) := utf8_next s in cp :: utf8_decode fuel' r
  | _, _ => []
  end.

Definition code_points (s : string) : list N :=
  let l := list_ascii_of_string s in utf8_decode (length l) l.

(** The characters of the Unicode category Nd come in runs of ten, from
    the digit zero on; the first code of each run (Unicode 14). *)
Definition decimal_runs : list N :=
  [ 48; 1632; 1776; 1984; 2406; 2534; 2662; 2790; 2918; 3046; 3174; 3302;
    3430; 3558; 3664; 3792; 3872; 4160; 4240; 6112; 6160; 6470; 6608; 6784;
    6800; 6992; 7088; 7232; 7248; 42528; 43216; 43264; 43472; 43504; 43600;
    44016; 65296; 66720; 68912; 69734; 69872; 69942; 70096; 70384; 70736;
    70864; 71248; 71360; 71472; 71904; 72016; 72784; 73040; 73120; 92768;
    92864; 93008; 120782; 120792; 120802; 120812; 120822; 123200; 123632;
    125264; 130032 ]%N.

(** The decimal value of a character, if it is a decimal digit. *)
Definition decimal_of (cp : N) : option N :=
  match List.find (fun z => (z <=? cp) && (cp <? z + 10))%N decimal_runs with
  | Some z => Some (cp - z)%N
  | None => None
  end.

(** The white space outside ASCII. *)
Definition unicode_space (cp : N) : bool :=
  ((cp =? 133) || (cp =? 160) || (cp =? 5760) ||
   (8192 <=? cp) && (cp <=? 8202) || (cp =? 8232) || (cp =? 8233) ||
   (cp =? 8239) || (cp =? 8287) || (cp =? 12288))%N.

(** What [int()] and [float()] read of a string: a character below 127
    as it is, white space as a blank, a decimal digit as its ASCII digit
    and anything else as a question mark. *)
Definition to_ascii (cp : N) : ascii :=
  if (cp <? 127)%N then ascii_of_N cp
  else if unicode_space cp then " "%char
  else match decimal_of cp with
       | Some d => ascii_of_N (48 + d)
       | None => "?"%char
       end.

Definition numeric_text (s : string) : list ascii := map to_ascii (code_points s).

Definition is_space (c : ascii) : bool :=
  let n := N_of_ascii c in
  ((9 <=? n) && (n <=? 13) || (n =? 32))%N.

Definition is_digit (c : ascii) : bool :=
  let n := N_of_ascii c in ((48 <=? n) && (n <=? 57))%N.

Definition digit_val (c : ascii) : Z := Z.of_N (N_of_ascii c) - 48.

Fixpoint lstrip (s : list ascii) : list ascii :=
  match s with
  | c :: s' => if is_space c then lstrip s' else s
  | [] => []
  end.

Definition strip (s : list ascii) : list ascii :=
  rev (lstrip (rev (lstrip s))).

Definition next_is_digit (s : list ascii) : bool :=
  match s with
  | c :: _ => is_digit c
  | [] => false
  end.

(** A run of decimal digits, single underscores allowed between two digits.
    Returns the value, the number of digits read and the rest. *)
Fixpoint digitpart (s : list ascii) (acc : Z) (n : nat)
  : (Z * nat) * list ascii :=
  match s with
  | c :: s' =>
      if is_digit c then digitpart s' (10 * acc + digit_val c)%Z (S n)
      else if Ascii.eqb c "_" && negb (Nat.eqb n 0) && next_is_digit s'
           then digitpart s' acc n
           else (acc, n, s)
  | [] => (acc, n, s)
  end.

Definition parse_sign (s : list ascii) : bool * list ascii :=
  match s with
  | c :: s' =>
      if Ascii.eqb c "-" then (true, s')
      else if Ascii.eqb c "+" then (false, s')
      else (false, s)
  | [] => (false, s)
  end.

Definition apply_sign (neg : bool) (z : Z) : Z := if neg then (- z)%Z else z.

(** [int(s)] on a string, base 10.  CPython refuses a string of more
    than 4300 digits. *)
Definition parse_int (s : string) : option Z :=
  let '(neg, r) := parse_sign (strip (numeric_text s)) in
  match digitpart r 0 0 with
  | (v, S n, []) => if Nat.leb 4300 n then None else Some (apply_sign neg v)
  | _ => None
  end.

Definition parse_exponent (s : list ascii) : option (Z * list ascii) :=
  match s with
  | c :: s' =>
      if Ascii.eqb c "e" || Ascii.eqb c "E" then
        let '(neg, r) := parse_sign s' in
        match digitpart r 0 0 with
        | (v, S _, rest) => Some (apply_sign neg v, rest)
        | _ => None
        end
      else Some (0%Z, s)
  | [] => Some (0%Z, s)
  end.

Definition lower (c : ascii) : ascii :=
  let n := N_of_ascii c in
  if ((65 <=? n) && (n <=? 90))%N then ascii_of_N (n + 32) else c.

(** The spellings of the infinities and of NaN, in any case. *)
Definition parse_special (neg : bool) (r : list ascii) : option float :=
  let w := string_of_list_ascii (map lower r) in
  if String.eqb w "inf" || String.eqb w "infinity" then Some (FInf neg)
  else if String.eqb w "nan" then Some FNan
  else None.

(** [float(s)] on a string: a decimal literal with optional fraction and
    exponent, rounded to the nearest double (an infinity when it is too
    large), or one of the special spellings. *)
Definition parse_float (s : string) : option float :=
  let '(neg, r) := parse_sign (strip (numeric_text s)) in
  let '(ip, n1, r1) := digitpart r 0 0 in
  let '(fp, n2, r2) :=
    match r1 with
    | c :: r1' => if Ascii.eqb c "." then digitpart r1' 0 0 else (0%Z, 0%nat, r1)
    | [] => (0%Z, 0%nat, r1)
    end in
  match (n1 + n2)%nat with
  | O => parse_special neg r
  | S _ =>
      match parse_exponent r2 with
      | Some (e, []) =>
          let mant := apply_sign neg (ip * 10 ^ Z.of_nat n2 + fp)%Z in
          Some (round (inject_Z mant * Qpower (10 # 1) (e - Z.of_nat n2)))
      | _ => None
      end
  end.

(** *** Truth value, [float()], numeric view *)

Definition atom_truthy (a : atom) : bool :=
  match a with
  | ANone => false
  | ABool b => b
  | AInt z => negb (z =? 0)%Z
  | AFloat f => negb (feq f (FFin 0))
  | AStr s => negb (String.eqb s EmptyString)
  end.

(** [bool(v)] *)
Definition py_bool (v : pyval) : bool :=
  match v with
  | VAtom a => atom_truthy a
  | VList l => match l with [] => false | _ => true end
  | VDict d => match d with [] => false | _ => true end
  end.

(** The exact value of an [int], [float] or [bool] ([bool] is a subclass
    of [int]), as Python compares numbers of different types; [None] for
    everything else. *)
Definition atom_num (a : atom) : option float :=
  match a with
  | ABool b => Some (FFin (if b then 1 else 0))
  | AInt z => Some (FFin (inject_Z z))
  | AFloat f => Some f
  | _ => None
  end.

(** [isinstance(v, (int, float))] *)
Definition is_number (v : pyval) : bool :=
  match v with
  | VAtom a => match atom_num a with Some _ => true | None => false end
  | _ => false
  end.

Definition is_str (v : pyval) : bool :=
  match v with
  | VAtom (AStr _) => true
  | _ => false
  end.

(** [float(z)] for an [int]: the nearest double, and [OverflowError]
    when that is no finite number. *)
Definition int_float (z : Z) : res float :=
  match round (inject_Z z) with
  | FFin q => Ok (FFin q)
  | _ => Raise OverflowError
  end.

Definition atom_float (a : atom) : res float :=
  match a with
  | ANone => Raise TypeError
  | AStr s => match parse_float s with Some f => Ok f | None => Raise ValueError end
  | ABool b => Ok (FFin (if b then 1 else 0))
  | AInt z => int_float z
  | AFloat f => Ok f
  end.

(** [float(v)] *)
Definition py_float (v : pyval) : res float :=
  match v with
  | VAtom a => atom_float a
  | _ => Raise TypeError
  end.

(** *** Equality and ordering *)

Definition atom_eq (a b : atom) : bool :=
  match atom_num a, atom_num b with
  | Some x, Some y => feq x y
  | _, _ =>
      match a, b with
      | ANone, ANone => true
      | AStr s, AStr t => String.eqb s t
      | _, _ => false
      end
  end.

(** [a == b] *)
Fixpoint py_eq (a b : pyval) {struct a} : bool :=
  match a, b with
  | VAtom x, VAtom y => atom_eq x y
  | VList xs, VList ys =>
      (fix go (xs ys : list pyval) {struct xs} : bool :=
         match xs, ys with
         | [], [] => true
         | x :: xs', y :: ys' => py_eq x y && go xs' ys'
         | _, _ => false
         end) xs ys
  | VDict d1, VDict d2 =>
      Nat.eqb (length d1) (length d2) &&
      (fix go (d : list (string * pyval)) {struct d} : bool :=
         match d with
         | [] => true
         | (k, v) :: d' =>
             match assoc k d2 with
             | Some v' => py_eq v v' && go d'
             | None => false
             end
         end) d1
  | _, _ => false
  end.

Inductive cmpop := CLt | CLe | CGt | CGe.

Definition cmp_float (op : cmpop) (x y : float) : bool :=
  match op with
  | CLt => flt x y
  | CLe => fle x y
  | CGt => flt y x
  | CGe => fle y x
  end.

Definition cmp_comparison (op : cmpop) (c : comparison) : bool :=
  match op, c with
  | CLt, Lt => true
  | CLe, (Lt | Eq) => true
  | CGt, Gt => true
  | CGe, (Gt | Eq) => true
  | _, _ => false
  end.

Definition atom_cmp (op : cmpop) (a b : atom) : res bool :=
  match atom_num a, atom_num b with
  | Some x, Some y => Ok (cmp_float op x y)
  | _, _ =>
      match a, b with
      | AStr s, AStr t => Ok (cmp_comparison op (String.compare s t))
      | _, _ => Raise TypeError
      end
  end.

(** [a < b], [a <= b], [a > b], [a >= b]: numbers with numbers, strings
    with strings, lists element by element; a [TypeError] otherwise. *)
Fixpoint py_cmp (op : cmpop) (a b : pyval) {struct a} : res bool :=
  match a, b with
  | VAtom x, VAtom y => atom_cmp op x y
  | VList xs, VList ys =>
      (fix go (xs ys : list pyval) {struct xs} : res bool :=
         match xs, ys with
         | x :: xs', y :: ys' =>
             if py_eq x y then go xs' ys' else py_cmp op x y
         | _, _ =>
             Ok (cmp_comparison op (Nat.compare (length xs) (length ys)))
         end) xs ys
  | _, _ => Raise TypeError
  end.

(** A list or a dict cannot be hashed. *)
Definition hashable (v : pyval) : bool :=
  match v with
  | VAtom _ => true
  | _ => false
  end.

(** [a in b] *)
Definition py_in (a b : pyval) : res bool :=
  match b with
  | VAtom (AStr hay) =>
      match a with
      | VAtom (AStr needle) => Ok (str_contains needle hay)
      | _ => Raise TypeError
      end
  | VList l => Ok (existsb (py_eq a) l)
  | VDict d =>
      match a with
      | VAtom (AStr k) => Ok (has_key k d)
      | VAtom _ => Ok false
      | _ => Raise TypeError
      end
  | VAtom _ => Raise TypeError
  end.

(** [v.get(k, default)] *)
Definition py_get (v : pyval) (k : string) (default : pyval) : res pyval :=
  match v with
  | VDict d => Ok (match assoc k d with Some x => x | None => default end)
  | _ => Raise AttributeError
  end.

(** [v[k]] with a string key *)
Definition py_getitem (v : pyval) (k : string) : res pyval :=
  match v with
  | VDict d => match assoc k d with Some x => Ok x | None => Raise KeyError end
  | _ => Raise TypeError
  end.

(** The characters of a string, each one a string. *)
Fixpoint chars (s : list ascii) (cur : list ascii) : list string :=
  match s with
  | [] => match cur with [] => [] | _ => [string_of_list_ascii (rev cur)] end
  | c :: s' =>
      match cont_byte c, cur with
      | Some _, _ :: _ => chars s' (c :: cur)
      | _, [] => chars s' [c]
      | _, _ :: _ => string_of_list_ascii (rev cur) :: chars s' [c]
      end
  end.

(** The items a [for] loop over [v] visits. *)
Definition py_iter (v : pyval) : res (list pyval) :=
  match v with
  | VList l => Ok l
  | VDict d => Ok (map (fun kv => vstr (fst kv)) d)
  | VAtom (AStr s) => Ok (map vstr (chars (list_ascii_of_string s) []))
  | VAtom _ => Raise TypeError
  end.

End Py.

(** ** support_app/expert_engine.py *)

Module Engine.
Import Py.
Local Open Scope Q_scope.

(** [sorted(l, key=key, reverse=True)] for float keys, none of them NaN
    (the keys are scores above zero).  The builtin is stable also when
    reversed: items with equal keys keep their order. *)
Section Sorted.
Context {A : Type} (key : A -> float).

Fixpoint insert_desc (x : A) (l : list A) : list A :=
  match l with
  | [] => [x]
  | y :: l' =>
      if fle (key y) (key x) then x :: y :: l' else y :: insert_desc x l'
  end.

Definition sorted_desc (l : list A) : list A := fold_right insert_desc [] l.
End Sorted.

(** *** Operators *)

Definition op_fn : Type := pyval -> pyval -> res bool.

Definition op_in : op_fn := fun a b =>
  match a with
  | VAtom ANone => Ok false
  | _ => py_in a b
  end.

Definition op_contains : op_fn := fun a b =>
  if is_str a && is_str b then py_in b a else Ok false.

Definition _OPS : list (string * op_fn) :=
  [ ("==", fun a b => Ok (py_eq a b));
    ("!=", fun a b => Ok (negb (py_eq a b)));
    (">=", py_cmp CGe);
    ("<=", py_cmp CLe);
    (">", py_cmp CGt);
    ("<", py_cmp CLt);
    ("in", op_in);
    ("contains", op_contains);
    ("is_true", fun a _ => Ok (py_bool a));
    ("is_false", fun a _ => Ok (negb (py_bool a))) ].

(** [_OPS.get(op)]; looking up a list or a dict raises, it has no hash. *)
Definition ops_lookup (op : pyval) : res (option op_fn) :=
  match op with
  | VAtom (AStr s) => Ok (assoc s _OPS)
  | VAtom _ => Ok None
  | _ => Raise TypeError
  end.

(** [facts.get(t)] with the same proviso; the keys of [facts] are strings. *)
Definition facts_lookup (facts : gmap string pyval) (t : pyval)
  : res (option pyval) :=
  match t with
  | VAtom (AStr s) => Ok (facts !! s)
  | VAtom _ => Ok None
  | _ => Raise TypeError
  end.

(** The numeric coercion of a string fact (lines 40-47). *)
Definition coerce_fact (fact_val val : pyval) : pyval :=
  match fact_val with
  | VAtom (AStr s) =>
      if is_number val then
        if str_contains "." s
        then match parse_float s with
             | Some f => VAtom (AFloat f)
             | None => fact_val
             end
        else match parse_int s with Some z => vint z | None => fact_val end
      else fact_val
  | _ => fact_val
  end.

Definition _check_condition (facts : gmap string pyval) (cond : pyval)
  : res bool :=
  do t <- py_get cond "type" vnone;
  do op <- py_get cond "op" (vstr "==");
  do val <- py_get cond "value" vnone;
  do found <- facts_lookup facts t;
  match found with
  | None => Ok false
  | Some fact_val =>
      do f <- ops_lookup op;
      match f with
      | None => Ok false
      | Some f => Ok (try_except (f (coerce_fact fact_val val) val) false)
      end
  end.

Fixpoint all_conditions (facts : gmap string pyval) (conds : list pyval)
  : res bool :=
  match conds with
  | [] => Ok true
  | c :: conds' =>
      do ok <- _check_condition facts c;
      if ok then all_conditions facts conds' else Ok false
  end.

(** The loop over [not_conditions]: stops at the first one that holds. *)
Fixpoint any_condition (facts : gmap string pyval) (negs : list pyval)
  : res bool :=
  match negs with
  | [] => Ok false
  | c :: negs' =>
      do ok <- _check_condition facts c;
      if ok then Ok true else any_condition facts negs'
  end.

Definition _match_rule (rule : pyval) (facts : gmap string pyval) : res bool :=
  do conds <- py_get rule "conditions" (VList []);
  do cs <- py_iter conds;
  do all <- all_conditions facts cs;
  if all then
    do negs <- py_get rule "not_conditions" (VList []);
    do ns <- py_iter negs;
    do neg <- any_condition facts ns;
    Ok (negb neg)
  else Ok false.

Definition _normalize_confidence (c : pyval) : float :=
  match py_float c with
  | Raise _ => FFin (1 # 2)
  | Ok cf =>
      if fle cf (FFin 0) then FFin 0
      else if flt (FFin 1) cf && fle cf (FFin 100) then fdiv cf (FFin 100)
      else if flt (FFin 100) cf then FFin 1
      else cf
  end.

Record EvalResult := {
  matched_conditions : list pyval;
  unmatched_conditions : list pyval;
  total_weight : float;
  matched_weight : float;
  match_ratio : float;
  confidence : float;
  score : float;
  negation_triggered : bool
}.

(** The accumulators of the loop over [conditions] (lines 93-105). *)
Record Tally := {
  t_total : float;
  t_matched_w : float;
  t_matched : list pyval;
  t_unmatched : list pyval
}.

Definition tally0 : Tally :=
  {| t_total := FFin 0; t_matched_w := FFin 0;
     t_matched := []; t_unmatched := [] |}.

Fixpoint tally_conditions (facts : gmap string pyval) (conds : list pyval)
  (t : Tally) : res Tally :=
  match conds with
  | [] => Ok t
  | c :: conds' =>
      do wv <- py_get c "weight" (vfloat 1);
      do w <- py_float wv;
      do ok <- _check_condition facts c;
      tally_conditions facts conds'
        (if ok
         then {| t_total := fadd (t_total t) w;
                 t_matched_w := fadd (t_matched_w t) w;
                 t_matched := t_matched t ++ [c];
                 t_unmatched := t_unmatched t |}
         else {| t_total := fadd (t_total t) w;
                 t_matched_w := t_matched_w t;
                 t_matched := t_matched t;
                 t_unmatched := t_unmatched t ++ [c] |})
  end.

Definition evaluate_rule (rule : pyval) (facts : gmap string pyval)
  : res EvalResult :=
  do conds <- py_get rule "conditions" (VList []);
  do cs <- py_iter conds;
  do t <- tally_conditions facts cs tally0;
  do negs <- py_get rule "not_conditions" (VList []);
  do ns <- py_iter negs;
  do neg_triggered <- any_condition facts ns;
  let ratio :=
    if feq (t_total t) (FFin 0) then FFin 0
    else fdiv (t_matched_w t) (t_total t) in
  let ratio := if neg_triggered then FFin 0 else ratio in
  do c <- py_get rule "confidence" (vfloat (1 # 2));
  let conf := _normalize_confidence c in
  Ok {| matched_conditions := t_matched t;
        unmatched_conditions := t_unmatched t;
        total_weight := t_total t;
        matched_weight := t_matched_w t;
        match_ratio := ratio;
        confidence := conf;
        score := fmul conf ratio;
        negation_triggered := neg_triggered |}.

(** *** The catalog (lines 140-767)

    [RULES] starts empty and is extended twice: the network rules 1-55,
    then the computer rules 56-100. *)

Definition NETWORK_RULES : list pyval :=
  [ VDict
    [ ("id", vint 1);
      ("name", vstr "Slow Network — High Latency");
      ("confidence", vfloat 0.65);
      ("evidence", vstr "High ping latency detected");
      ("remedy", vstr "Restart router, test wired connection, check ISP congestion.");
      ("conditions",
       VList [ VDict [("type", vstr "ping_latency"); ("op", vstr ">="); ("value", vint 200)] ]) ];
    VDict
    [ ("id", vint 2);
      ("name", vstr "Slow Network — Low Throughput");
      ("confidence", vfloat 0.7);
      ("evidence", vstr "Low measured throughput (Mbps)");
      ("remedy", vstr "Run speedtest, close background downloads, contact ISP if persist.");
      ("conditions",
       VList [ VDict [("type", vstr "speed_mbps"); ("op", vstr "<"); ("value", vfloat 1.0)] ]) ];
    VDict
    [ ("id", vint 3);
      ("name", vstr "Router/Gateway Failure");
      ("confidence", vfloat 0.95);
      ("evidence", vstr "Cannot ping gateway while connected to network");
      ("remedy", vstr "Power-cycle router, check modem-to-router link and cables.");
      ("conditions",
       VList [ VDict [("type", vstr "gateway_ping"); ("op", vstr "=="); ("value", vstr "fail")];
               VDict [("type", vstr "wifi_connected"); ("op", vstr "=="); ("value", vbool true)] ]) ];
    VDict
    [ ("id", vint 4);
      ("name", vstr "DNS Resolution Failure");
      ("confidence", vfloat 0.95);
      ("evidence", vstr "IP pings succeed but domain names fail");
      ("remedy", vstr "Change DNS to public DNS (8.8.8.8), flush DNS cache.");
      ("conditions",
       VList [ VDict [("type", vstr "ping_ip"); ("op", vstr "=="); ("value", vstr "success")];
               VDict [("type", vstr "ping_domain"); ("op", vstr "=="); ("value", vstr "fail")] ]) ];
    VDict
    [ ("id", vint 5);
      ("name", vstr "IP Address Conflict");
      ("confidence", vfloat 0.95);
      ("evidence", vstr "OS reports IP conflict message");
      ("remedy", vstr "Enable DHCP or assign unique static IP addresses.");
      ("conditions",
       VList [ VDict [("type", vstr "ip_conflict_msg"); ("op", vstr "=="); ("value", vbool true)] ]) ];
    VDict
    [ ("id", vint 6);
      ("name", vstr "Wi-Fi Authentication Failure");
      ("confidence", vfloat 0.9);
      ("evidence", vstr "User can't authenticate to SSID");
      ("remedy", vstr "Verify SSID/password, check RADIUS server if used.");
      ("conditions",
       VList [ VDict [("type", vstr "wifi_auth_fail"); ("op", vstr "=="); ("value", vbool true)] ]) ];
    VDict
    [ ("id", vint 7);
      ("name", vstr "DHCP Server Issue");
      ("confidence", vfloat 0.9);
      ("evidence", vstr "Devices receive no IP or 169.254.x.x address");
      ("remedy", vstr "Restart DHCP server or router; check DHCP scope settings.");
      ("conditions",
       VList [ VDict [("type", vstr "ip_address"); ("op", vstr "contains"); ("value", vstr "169.254")] ]) ];
    VDict
    [ ("id", vint 8);
      ("name", vstr "Cable/Link Fault");
      ("confidence", vfloat 0.9);
      ("evidence", vstr "Ethernet link down or flapping");
      ("remedy", vstr "Replace cable; test port; check switch port LED.");
      ("conditions",
       VList [ VDict [("type", vstr "eth_link"); ("op", vstr "=="); ("value", vstr "down")] ]) ];
    VDict
    [ ("id", vint 9);
      ("name", vstr "High Packet Loss");
      ("confidence", vfloat 0.85);
      ("evidence", vstr "Packet loss above acceptable threshold");
      ("remedy", vstr "Check Wi-Fi interference, change channel, test wired path.");
      ("conditions",
       VList [ VDict [("type", vstr "packet_loss"); ("op", vstr ">"); ("value", vint 5)] ]) ];
    VDict
    [ ("id", vint 10);
      ("name", vstr "ISP Outage");
      ("confidence", vfloat 0.9);
      ("evidence", vstr "Multiple users report no internet; external checks fail");
      ("remedy", vstr "Contact ISP; check outage map/status.");
      ("conditions",
       VList [ VDict [("type", vstr "multiple_users_down"); ("op", vstr "=="); ("value", vbool true)];
               VDict [("type", vstr "internet_status_external"); ("op", vstr "=="); ("value", vstr "down")] ]) ];
    VDict
    [ ("id", vint 11);
      ("name", vstr "Wi-Fi Interference (Low RSSI)");
      ("confidence", vfloat 0.8);
      ("evidence", vstr "Low RSSI/signal strength");
      ("remedy", vstr "Move closer to AP; reduce interference; change channel.");
      ("conditions",
       VList [ VDict [("type", vstr "rssi"); ("op", vstr "<"); ("value", vint (-75))] ]) ];
    VDict
    [ ("id", vint 12);
      ("name", vstr "Too Many Connected Clients");
      ("confidence", vfloat 0.7);
      ("evidence", vstr "AP reports high client count");
      ("remedy", vstr "Balance load; add another AP; use wired connections.");
      ("conditions",
       VList [ VDict [("type", vstr "ap_client_count"); ("op", vstr ">"); ("value", vint 50)] ]) ];
    VDict
    [ ("id", vint 13);
      ("name", vstr "NAT or Port Forwarding Problem");
      ("confidence", vfloat 0.75);
      ("evidence", vstr "Inbound services unreachable");
      ("remedy", vstr "Check NAT/port mappings and firewall rules.");
      ("conditions",
       VList [ VDict [("type", vstr "inbound_unreachable"); ("op", vstr "=="); ("value", vbool true)] ]) ];
    VDict
    [ ("id", vint 14);
      ("name", vstr "Proxy Misconfiguration");
      ("confidence", vfloat 0.7);
      ("evidence", vstr "Browser cannot access web but ping works");
      ("remedy", vstr "Disable proxy or correct settings.");
      ("conditions",
       VList [ VDict [("type", vstr "browser_err"); ("op", vstr "=="); ("value", vstr "proxy_required")];
               VDict [("type", vstr "ping_domain"); ("op", vstr "=="); ("value", vstr "success")] ]) ];
    VDict
    [ ("id", vint 15);
      ("name", vstr "Switch Port Disabled");
      ("confidence", vfloat 0.9);
      ("evidence", vstr "Device connected but no carrier; switch port shows disabled");
      ("remedy", vstr "Enable port; check VLAN membership.");
      ("conditions",
       VList [ VDict [("type", vstr "switch_port_status"); ("op", vstr "=="); ("value", vstr "disabled")] ]) ];
    VDict
    [ ("id", vint 16);
      ("name", vstr "Misconfigured VLAN");
      ("confidence", vfloat 0.85);
      ("evidence", vstr "Device in wrong VLAN; cannot reach internal resources");
      ("remedy", vstr "Check VLAN tagging and switch config.");
      ("conditions",
       VList [ VDict [("type", vstr "vlan_mismatch"); ("op", vstr "=="); ("value", vbool true)] ]) ];
    VDict
    [ ("id", vint 17);
      ("name", vstr "DNS Cache Poisoning Suspected");
      ("confidence", vfloat 0.65);
      ("evidence", vstr "Unexpected domain resolution to incorrect IP");
      ("remedy", vstr "Flush caches, check DNS servers, run diagnostics.");
      ("conditions",
       VList [ VDict [("type", vstr "unexpected_dns_ip"); ("op", vstr "=="); ("value", vbool true)] ]) ];
    VDict
    [ ("id", vint 18);
      ("name", vstr "MTU Mismatch");
      ("confidence", vfloat 0.6);
      ("evidence", vstr "Large packets fail or fragment");
      ("remedy", vstr "Adjust MTU, test Path MTU discovery.");
      ("conditions",
       VList [ VDict [("type", vstr "mtu_fail"); ("op", vstr "=="); ("value", vbool true)] ]) ];
    VDict
    [ ("id", vint 19);
      ("name", vstr "VPN Tunnel Down");
      ("confidence", vfloat 0.9);
      ("evidence", vstr "VPN client cannot establish tunnel");
      ("remedy", vstr "Check credentials, check VPN server and logs.");
      ("conditions",
       VList [ VDict [("type", vstr "vpn_status"); ("op", vstr "=="); ("value", vstr "down")] ]) ];
    VDict
    [ ("id", vint 20);
      ("name", vstr "Slow DNS Response (High Latency)");
      ("confidence", vfloat 0.7);
      ("evidence", vstr "DNS queries take long to resolve");
      ("remedy", vstr "Use alternative DNS or check DNS server load.");
      ("conditions",
       VList [ VDict [("type", vstr "dns_latency_ms"); ("op", vstr ">"); ("value", vint 200)] ]) ];
    VDict
    [ ("id", vint 21);
      ("name", vstr "Router CPU High Load");
      ("confidence", vfloat 0.7);
      ("evidence", vstr "Router CPU near 100%");
      ("remedy", vstr "Reboot device; check for attack or misconfiguration.");
      ("conditions",
       VList [ VDict [("type", vstr "router_cpu"); ("op", vstr ">"); ("value", vint 90)] ]) ];
    VDict
    [ ("id", vint 22);
      ("name", vstr "ISP Throttling Detected");
      ("confidence", vfloat 0.6);
      ("evidence", vstr "Speed varies with service type/time");
      ("remedy", vstr "Contact ISP, test at different times/services.");
      ("conditions",
       VList [ VDict [("type", vstr "speed_variance"); ("op", vstr "=="); ("value", vbool true)];
               VDict [("type", vstr "speed_mbps"); ("op", vstr "<"); ("value", vint 5)] ]) ];
    VDict
    [ ("id", vint 23);
      ("name", vstr "IPv6 Misconfiguration");
      ("confidence", vfloat 0.6);
      ("evidence", vstr "IPv6 DNS or routing errors");
      ("remedy", vstr "Check IPv6 addressing and prefix settings.");
      ("conditions",
       VList [ VDict [("type", vstr "ipv6_error"); ("op", vstr "=="); ("value", vbool true)] ]) ];
    VDict
    [ ("id", vint 24);
      ("name", vstr "Broken ARP Cache");
      ("confidence", vfloat 0.6);
      ("evidence", vstr "ARP entries wrong or stale");
      ("remedy", vstr "Clear ARP cache, check duplicates.");
      ("conditions",
       VList [ VDict [("type", vstr "arp_conflict"); ("op", vstr "=="); ("value", vbool true)] ]) ];
    VDict
    [ ("id", vint 25);
      ("name", vstr "Captive Portal Blocking");
      ("confidence", vfloat 0.85);
      ("evidence", vstr "User must sign into captive portal");
      ("remedy", vstr "Open browser to sign in to captive portal.");
      ("conditions",
       VList [ VDict [("type", vstr "captive_portal"); ("op", vstr "=="); ("value", vbool true)] ]) ];
    VDict
    [ ("id", vint 26);
      ("name", vstr "Misconfigured Firewall Blocking");
      ("confidence", vfloat 0.9);
      ("evidence", vstr "Firewall denies required traffic");
      ("remedy", vstr "Adjust rules to allow required ports/services.");
      ("conditions",
       VList [ VDict [("type", vstr "firewall_block"); ("op", vstr "=="); ("value", vbool true)] ]) ];
    VDict
    [ ("id", vint 27);
      ("name", vstr "Proxy Authentication Required");
      ("confidence", vfloat 0.8);
      ("evidence", vstr "Browser error requiring proxy authentication");
      ("remedy", vstr "Provide credentials, configure browser or disable proxy.");
      ("conditions",
       VList [ VDict [("type", vstr "browser_err"); ("op", vstr "=="); ("value", vstr "proxy_auth")] ]) ];
    VDict
    [ ("id", vint 28);
      ("name", vstr "Slow Wireless Roaming");
      ("confidence", vfloat 0.6);
      ("evidence", vstr "Clients roam between APs causing brief disconnects");
      ("remedy", vstr "Tune roaming aggressiveness or AP placement.");
      ("conditions",
       VList [ VDict [("type", vstr "roam_count"); ("op", vstr ">"); ("value", vint 10)] ]) ];
    VDict
    [ ("id", vint 29);
      ("name", vstr "Switch Overloaded (High Errors)");
      ("confidence", vfloat 0.7);
      ("evidence", vstr "High interface error counters");
      ("remedy", vstr "Check cabling, replace faulty NIC/switch module.");
      ("conditions",
       VList [ VDict [("type", vstr "switch_errors"); ("op", vstr ">"); ("value", vint 1000)] ]) ];
    VDict
    [ ("id", vint 30);
      ("name", vstr "Mis-set Default Gateway");
      ("confidence", vfloat 0.8);
      ("evidence", vstr "Default gateway incorrect");
      ("remedy", vstr "Set correct gateway in network config.");
      ("conditions",
       VList [ VDict [("type", vstr "gateway_correct"); ("op", vstr "=="); ("value", vbool false)] ]) ];
    VDict
    [ ("id", vint 31);
      ("name", vstr "External Backhaul Congestion");
      ("confidence", vfloat 0.6);
      ("evidence", vstr "High latency to internet but low to intranet");
      ("remedy", vstr "Contact ISP; measure peering issues.");
      ("conditions",
       VList [ VDict [("type", vstr "latency_internet"); ("op", vstr ">"); ("value", vint 200)];
               VDict [("type", vstr "latency_intranet"); ("op", vstr "<"); ("value", vint 50)] ]) ];
    VDict
    [ ("id", vint 32);
      ("name", vstr "DNS TTL Too Low/High");
      ("confidence", vfloat 0.5);
      ("evidence", vstr "Frequent DNS changes or stale results");
      ("remedy", vstr "Tune TTL values appropriately.");
      ("conditions",
       VList [ VDict [("type", vstr "dns_ttl"); ("op", vstr ">"); ("value", vint 86400)] ]) ];
    VDict
    [ ("id", vint 33);
      ("name", vstr "Routing Loop Detected");
      ("confidence", vfloat 0.9);
      ("evidence", vstr "Traceroute shows loop");
      ("remedy", vstr "Fix routing configuration to remove loop.");
      ("conditions",
       VList [ VDict [("type", vstr "traceroute_loop"); ("op", vstr "=="); ("value", vbool true)] ]) ];
    VDict
    [ ("id", vint 34);
      ("name", vstr "ARP Flood / DDoS Suspected");
      ("confidence", vfloat 0.8);
      ("evidence", vstr "Excessive ARP traffic or broadcast storms");
      ("remedy", vstr "Isolate offending host; inspect traffic with switch mirroring.");
      ("conditions",
       VList [ VDict [("type", vstr "arp_flood"); ("op", vstr "=="); ("value", vbool true)] ]) ];
    VDict
    [ ("id", vint 35);
      ("name", vstr "Poor Wi-Fi Security (Open SSID)");
      ("confidence", vfloat 0.5);
      ("evidence", vstr "Open Wi-Fi allowing unauthorized access");
      ("remedy", vstr "Enable WPA2/WPA3 security.");
      ("conditions",
       VList [ VDict [("type", vstr "ssid_secure"); ("op", vstr "=="); ("value", vbool false)] ]) ];
    VDict
    [ ("id", vint 36);
      ("name", vstr "Corrupted Network Adapter Driver");
      ("confidence", vfloat 0.8);
      ("evidence", vstr "Driver errors in event logs");
      ("remedy", vstr "Reinstall/update NIC drivers.");
      ("conditions",
       VList [ VDict [("type", vstr "driver_error_count"); ("op", vstr ">"); ("value", vint 3)] ]) ];
    VDict
    [ ("id", vint 37);
      ("name", vstr "IPv4 Routing Missing");
      ("confidence", vfloat 0.8);
      ("evidence", vstr "Cannot reach networks beyond local segment");
      ("remedy", vstr "Add static routes or fix OSPF/BGP config.");
      ("conditions",
       VList [ VDict [("type", vstr "route_missing"); ("op", vstr "=="); ("value", vbool true)] ]) ];
    VDict
    [ ("id", vint 38);
      ("name", vstr "AP Power Issue");
      ("confidence", vfloat 0.85);
      ("evidence", vstr "AP shows no power or frequent reboots");
      ("remedy", vstr "Check PoE injector/switch and power supply.");
      ("conditions",
       VList [ VDict [("type", vstr "ap_reboot"); ("op", vstr "=="); ("value", vbool true)] ]) ];
    VDict
    [ ("id", vint 39);
      ("name", vstr "Misconfigured NAT Translation");
      ("confidence", vfloat 0.7);
      ("evidence", vstr "Internal host cannot reach external services");
      ("remedy", vstr "Review NAT rules and mappings.");
      ("conditions",
       VList [ VDict [("type", vstr "nat_mismatch"); ("op", vstr "=="); ("value", vbool true)] ]) ];
    VDict
    [ ("id", vint 40);
      ("name", vstr "Windows Network Profile Blocked");
      ("confidence", vfloat 0.6);
      ("evidence", vstr "Windows network set to Public blocking sharing");
      ("remedy", vstr "Set to Private or adjust firewall rules.");
      ("conditions",
       VList [ VDict [("type", vstr "windows_profile"); ("op", vstr "=="); ("value", vstr "Public")] ]) ];
    VDict
    [ ("id", vint 41);
      ("name", vstr "SSL Interception/Proxy Issue");
      ("confidence", vfloat 0.7);
      ("evidence", vstr "HTTPS pages show certificate errors");
      ("remedy", vstr "Install trusted CA or disable SSL interception for that site.");
      ("conditions",
       VList [ VDict [("type", vstr "https_cert_err"); ("op", vstr "=="); ("value", vbool true)] ]) ];
    VDict
    [ ("id", vint 42);
      ("name", vstr "ISP DNS Hijack");
      ("confidence", vfloat 0.6);
      ("evidence", vstr "Known-good domain resolves to ISP ad server");
      ("remedy", vstr "Use trusted DNS or VPN.");
      ("conditions",
       VList [ VDict [("type", vstr "dns_hijack"); ("op", vstr "=="); ("value", vbool true)] ]) ];
    VDict
    [ ("id", vint 43);
      ("name", vstr "QoS Misconfiguration");
      ("confidence", vfloat 0.6);
      ("evidence", vstr "Critical traffic deprioritized");
      ("remedy", vstr "Adjust QoS policies to prioritize important flows.");
      ("conditions",
       VList [ VDict [("type", vstr "qos_issues"); ("op", vstr "=="); ("value", vbool true)] ]) ];
    VDict
    [ ("id", vint 44);
      ("name", vstr "Cable Duplex Mismatch");
      ("confidence", vfloat 0.7);
      ("evidence", vstr "Errors and collisions on interface");
      ("remedy", vstr "Set matching duplex settings or use auto-negotiation.");
      ("conditions",
       VList [ VDict [("type", vstr "duplex_mismatch"); ("op", vstr "=="); ("value", vbool true)] ]) ];
    VDict
    [ ("id", vint 45);
      ("name", vstr "Network MTU Black Hole");
      ("confidence", vfloat 0.7);
      ("evidence", vstr "Certain protocols fail with large packets");
      ("remedy", vstr "Lower MTU or enable PMTUD.");
      ("conditions",
       VList [ VDict [("type", vstr "mtu_blackhole"); ("op", vstr "=="); ("value", vbool true)] ]) ];
    VDict
    [ ("id", vint 46);
      ("name", vstr "ARP Spoofing Attempt");
      ("confidence", vfloat 0.8);
      ("evidence", vstr "Conflicting ARP entries");
      ("remedy", vstr "Isolate attacker, enable port security.");
      ("conditions",
       VList [ VDict [("type", vstr "arp_spoof_detected"); ("op", vstr "=="); ("value", vbool true)] ]) ];
    VDict
    [ ("id", vint 47);
      ("name", vstr "Time Synchronization Error");
      ("confidence", vfloat 0.5);
      ("evidence", vstr "NTP out of sync causing auth issues");
      ("remedy", vstr "Sync time via NTP.");
      ("conditions",
       VList [ VDict [("type", vstr "ntp_ok"); ("op", vstr "=="); ("value", vbool false)] ]) ];
    VDict
    [ ("id", vint 48);
      ("name", vstr "SSDP/UPnP Flood");
      ("confidence", vfloat 0.55);
      ("evidence", vstr "Excessive SSDP traffic");
      ("remedy", vstr "Disable UPnP where unnecessary.");
      ("conditions",
       VList [ VDict [("type", vstr "ssdp_flood"); ("op", vstr "=="); ("value", vbool true)] ]) ];
    VDict
    [ ("id", vint 49);
      ("name", vstr "Port Scan Detected");
      ("confidence", vfloat 0.85);
      ("evidence", vstr "Multiple ports probed from same IP");
      ("remedy", vstr "Block scanner and investigate source.");
      ("conditions",
       VList [ VDict [("type", vstr "port_scan"); ("op", vstr "=="); ("value", vbool true)] ]) ];
    VDict
    [ ("id", vint 50);
      ("name", vstr "Router Configuration Corruption");
      ("confidence", vfloat 0.9);
      ("evidence", vstr "Config fails to load correctly");
      ("remedy", vstr "Restore from backup; reconfigure router.");
      ("conditions",
       VList [ VDict [("type", vstr "router_config_good"); ("op", vstr "=="); ("value", vbool false)] ]) ];
    VDict
    [ ("id", vint 51);
      ("name", vstr "Slow Wireless Encryption Overhead");
      ("confidence", vfloat 0.5);
      ("evidence", vstr "Weak hardware struggling with encryption");
      ("remedy", vstr "Upgrade AP hardware; use faster encryption modes.");
      ("conditions",
       VList [ VDict [("type", vstr "old_ap_hw"); ("op", vstr "=="); ("value", vbool true)] ]) ];
    VDict
    [ ("id", vint 52);
      ("name", vstr "Mobile Carrier Data Fallback");
      ("confidence", vfloat 0.6);
      ("evidence", vstr "Client using mobile data instead of Wi-Fi");
      ("remedy", vstr "Disable mobile data or connect to Wi-Fi correctly.");
      ("conditions",
       VList [ VDict [("type", vstr "client_online_via"); ("op", vstr "=="); ("value", vstr "mobile")] ]) ];
    VDict
    [ ("id", vint 53);
      ("name", vstr "Blocked by Content Filter");
      ("confidence", vfloat 0.7);
      ("evidence", vstr "Access blocked by content filter or web filter");
      ("remedy", vstr "Request unblock or adjust filter policy.");
      ("conditions",
       VList [ VDict [("type", vstr "content_filter_block"); ("op", vstr "=="); ("value", vbool true)] ]) ];
    VDict
    [ ("id", vint 54);
      ("name", vstr "ISP Peering Problem");
      ("confidence", vfloat 0.6);
      ("evidence", vstr "High latency to specific AS paths");
      ("remedy", vstr "Contact ISP to report peering issues.");
      ("conditions",
       VList [ VDict [("type", vstr "as_path_latency"); ("op", vstr ">"); ("value", vint 200)] ]) ];
    VDict
    [ ("id", vint 55);
      ("name", vstr "Low Wi-Fi Channel Width / Legacy Rates");
      ("confidence", vfloat 0.6);
      ("evidence", vstr "AP using legacy rates reducing throughput");
      ("remedy", vstr "Change channel width and disable legacy rates.");
      ("conditions",
       VList [ VDict [("type", vstr "legacy_rate_enabled"); ("op", vstr "=="); ("value", vbool true)] ]) ] ].

Definition COMPUTER_RULES : list pyval :=
  [ VDict
    [ ("id", vint 56);
      ("name", vstr "No Power — PSU Fault");
      ("confidence", vfloat 0.98);
      ("evidence", vstr "PC shows no signs of power");
      ("remedy", vstr "Check mains, PSU connectors, test/replace PSU.");
      ("conditions",
       VList [ VDict [("type", vstr "pc_power"); ("op", vstr "=="); ("value", vbool false)] ]) ];
    VDict
    [ ("id", vint 57);
      ("name", vstr "No Display — GPU/Monitor Issue");
      ("confidence", vfloat 0.9);
      ("evidence", vstr "Power on but no display, external monitor fails");
      ("remedy", vstr "Check monitor, cables, reseat GPU.");
      ("conditions",
       VList [ VDict [("type", vstr "pc_power"); ("op", vstr "=="); ("value", vbool true)];
               VDict [("type", vstr "display"); ("op", vstr "=="); ("value", vstr "no")] ]) ];
    VDict
    [ ("id", vint 58);
      ("name", vstr "BIOS Beep Memory Error");
      ("confidence", vfloat 0.95);
      ("evidence", vstr "Beep codes consistent with RAM error");
      ("remedy", vstr "Reseat RAM, run memtest, replace defective stick.");
      ("conditions",
       VList [ VDict [("type", vstr "beep_codes"); ("op", vstr "contains"); ("value", vstr "mem")] ]) ];
    VDict
    [ ("id", vint 59);
      ("name", vstr "BIOS Beep GPU Error");
      ("confidence", vfloat 0.95);
      ("evidence", vstr "Beep codes indicate GPU/graphics failure");
      ("remedy", vstr "Reseat GPU, test with known-good card.");
      ("conditions",
       VList [ VDict [("type", vstr "beep_codes"); ("op", vstr "contains"); ("value", vstr "gpu")] ]) ];
    VDict
    [ ("id", vint 60);
      ("name", vstr "Overheating — Fan/Heatsink Fault");
      ("confidence", vfloat 0.92);
      ("evidence", vstr "CPU temp dangerously high");
      ("remedy", vstr "Clean dust, reapply thermal paste, replace fan.");
      ("conditions",
       VList [ VDict [("type", vstr "cpu_temp"); ("op", vstr ">"); ("value", vint 80)] ]) ];
    VDict
    [ ("id", vint 61);
      ("name", vstr "Thermal Throttling");
      ("confidence", vfloat 0.85);
      ("evidence", vstr "High temps causing low performance");
      ("remedy", vstr "Improve cooling, check background processes.");
      ("conditions",
       VList [ VDict [("type", vstr "cpu_temp"); ("op", vstr ">"); ("value", vint 70)];
               VDict [("type", vstr "slow_performance"); ("op", vstr "=="); ("value", vbool true)] ]) ];
    VDict
    [ ("id", vint 62);
      ("name", vstr "Failing HDD/SSD");
      ("confidence", vfloat 0.95);
      ("evidence", vstr "SMART disk health low or many bad sectors");
      ("remedy", vstr "Backup immediately and replace drive.");
      ("conditions",
       VList [ VDict [("type", vstr "disk_health"); ("op", vstr "<"); ("value", vint 50)] ]) ];
    VDict
    [ ("id", vint 63);
      ("name", vstr "Corrupted OS Bootloader");
      ("confidence", vfloat 0.9);
      ("evidence", vstr "No OS boot, bootloader errors");
      ("remedy", vstr "Repair bootloader or restore OS from backup.");
      ("conditions",
       VList [ VDict [("type", vstr "boot_error"); ("op", vstr "contains"); ("value", vstr "NTLDR")];
               VDict [("type", vstr "os_present"); ("op", vstr "=="); ("value", vbool true)] ]) ];
    VDict
    [ ("id", vint 64);
      ("name", vstr "Slow Boot — Disk or Startup Bloat");
      ("confidence", vfloat 0.8);
      ("evidence", vstr "Slow boot with high disk usage");
      ("remedy", vstr "Disable startup apps, check disk health.");
      ("conditions",
       VList [ VDict [("type", vstr "slow_boot"); ("op", vstr "=="); ("value", vbool true)];
               VDict [("type", vstr "disk_usage_startup"); ("op", vstr ">"); ("value", vint 90)] ]) ];
    VDict
    [ ("id", vint 65);
      ("name", vstr "Application Crash — Memory Leak");
      ("confidence", vfloat 0.85);
      ("evidence", vstr "App crashes with RAM near 100%");
      ("remedy", vstr "Restart app, update/reinstall, increase RAM.");
      ("conditions",
       VList [ VDict [("type", vstr "app_crash"); ("op", vstr "=="); ("value", vbool true)];
               VDict [("type", vstr "ram_usage"); ("op", vstr ">"); ("value", vint 90)] ]) ];
    VDict
    [ ("id", vint 66);
      ("name", vstr "Application Crash — Corrupted Install");
      ("confidence", vfloat 0.8);
      ("evidence", vstr "Crash across runs with different inputs");
      ("remedy", vstr "Reinstall application or check logs.");
      ("conditions",
       VList [ VDict [("type", vstr "app_crash"); ("op", vstr "=="); ("value", vbool true)];
               VDict [("type", vstr "app_reinstall_attempted"); ("op", vstr "=="); ("value", vbool false)] ]) ];
    VDict
    [ ("id", vint 67);
      ("name", vstr "Possible Malware — Suspicious Popups & Idle CPU");
      ("confidence", vfloat 0.9);
      ("evidence", vstr "Frequent popups with high idle CPU");
      ("remedy", vstr "Disconnect network, run offline antivirus, restore from known good backup.");
      ("conditions",
       VList [ VDict [("type", vstr "popups"); ("op", vstr "=="); ("value", vbool true)];
               VDict [("type", vstr "idle_cpu"); ("op", vstr ">"); ("value", vint 80)] ]) ];
    VDict
    [ ("id", vint 68);
      ("name", vstr "Ransomware Suspected");
      ("confidence", vfloat 0.95);
      ("evidence", vstr "Files encrypted or ransom note detected");
      ("remedy", vstr "Isolate host, preserve logs, restore from backups; do not pay ransom.");
      ("conditions",
       VList [ VDict [("type", vstr "files_encrypted"); ("op", vstr "=="); ("value", vbool true)] ]) ];
    VDict
    [ ("id", vint 69);
      ("name", vstr "Driver Conflict");
      ("confidence", vfloat 0.85);
      ("evidence", vstr "Driver crashes or mismatched driver versions");
      ("remedy", vstr "Roll back or update driver; use vendor driver.");
      ("conditions",
       VList [ VDict [("type", vstr "driver_conflict"); ("op", vstr "=="); ("value", vbool true)] ]) ];
    VDict
    [ ("id", vint 70);
      ("name", vstr "GPU Driver Crash/Black Screen");
      ("confidence", vfloat 0.9);
      ("evidence", vstr "Display resets when launching GPU-heavy apps");
      ("remedy", vstr "Update GPU drivers, check power connectors.");
      ("conditions",
       VList [ VDict [("type", vstr "gpu_reset"); ("op", vstr "=="); ("value", vbool true)] ]) ];
    VDict
    [ ("id", vint 71);
      ("name", vstr "Battery Failure (Laptop)");
      ("confidence", vfloat 0.9);
      ("evidence", vstr "Battery not charging or holds no charge");
      ("remedy", vstr "Replace battery or AC adapter.");
      ("conditions",
       VList [ VDict [("type", vstr "battery_health"); ("op", vstr "<"); ("value", vint 20)] ]) ];
    VDict
    [ ("id", vint 72);
      ("name", vstr "Thermal Paste Degraded");
      ("confidence", vfloat 0.6);
      ("evidence", vstr "High temps despite fan functioning");
      ("remedy", vstr "Reapply thermal paste and reseat cooler.");
      ("conditions",
       VList [ VDict [("type", vstr "fan_speed_ok"); ("op", vstr "=="); ("value", vbool true)];
               VDict [("type", vstr "cpu_temp"); ("op", vstr ">"); ("value", vint 85)] ]) ];
    VDict
    [ ("id", vint 73);
      ("name", vstr "Loose Power Connector");
      ("confidence", vfloat 0.85);
      ("evidence", vstr "Intermittent power or sudden shutdowns");
      ("remedy", vstr "Check cables and connectors.");
      ("conditions",
       VList [ VDict [("type", vstr "sudden_shutdown"); ("op", vstr "=="); ("value", vbool true)];
               VDict [("type", vstr "power_bad_report"); ("op", vstr "=="); ("value", vbool true)] ]) ];
    VDict
    [ ("id", vint 74);
      ("name", vstr "Corrupted System Files");
      ("confidence", vfloat 0.8);
      ("evidence", vstr "SFC or system repair detects corruption");
      ("remedy", vstr "Run system file checker and repair tools.");
      ("conditions",
       VList [ VDict [("type", vstr "sfc_errors"); ("op", vstr ">"); ("value", vint 0)] ]) ];
    VDict
    [ ("id", vint 75);
      ("name", vstr "Windows Update Caused Regression");
      ("confidence", vfloat 0.6);
      ("evidence", vstr "Issue started after recent Windows update");
      ("remedy", vstr "Uninstall problematic update or use restore point.");
      ("conditions",
       VList [ VDict [("type", vstr "recent_update"); ("op", vstr "=="); ("value", vbool true)];
               VDict [("type", vstr "issue_started_after_update"); ("op", vstr "=="); ("value", vbool true)] ]) ];
    VDict
    [ ("id", vint 76);
      ("name", vstr "File System Corruption");
      ("confidence", vfloat 0.9);
      ("evidence", vstr "CHKDSK finds errors");
      ("remedy", vstr "Repair filesystem and restore backups.");
      ("conditions",
       VList [ VDict [("type", vstr "chkdsk_errors"); ("op", vstr ">"); ("value", vint 0)] ]) ];
    VDict
    [ ("id", vint 77);
      ("name", vstr "Malfunctioning Peripheral (USB)");
      ("confidence", vfloat 0.8);
      ("evidence", vstr "USB device disconnects or errors");
      ("remedy", vstr "Try different port, check power, update drivers.");
      ("conditions",
       VList [ VDict [("type", vstr "usb_error"); ("op", vstr "=="); ("value", vbool true)] ]) ];
    VDict
    [ ("id", vint 78);
      ("name", vstr "BIOS Settings Corrupt");
      ("confidence", vfloat 0.85);
      ("evidence", vstr "Wrong boot order or system settings reset");
      ("remedy", vstr "Reset BIOS/UEFI to defaults and reconfigure.");
      ("conditions",
       VList [ VDict [("type", vstr "bios_reset_detected"); ("op", vstr "=="); ("value", vbool true)] ]) ];
    VDict
    [ ("id", vint 79);
      ("name", vstr "Windows Activation/License Problem");
      ("confidence", vfloat 0.6);
      ("evidence", vstr "Activation errors");
      ("remedy", vstr "Reactivate Windows or check license keys.");
      ("conditions",
       VList [ VDict [("type", vstr "win_activate_err"); ("op", vstr "=="); ("value", vbool true)] ]) ];
    VDict
    [ ("id", vint 80);
      ("name", vstr "Insufficient RAM for Workload");
      ("confidence", vfloat 0.85);
      ("evidence", vstr "High memory usage under expected workload");
      ("remedy", vstr "Add RAM or optimize apps.");
      ("conditions",
       VList [ VDict [("type", vstr "ram_usage"); ("op", vstr ">"); ("value", vint 85)];
               VDict [("type", vstr "expected_workload"); ("op", vstr "=="); ("value", vstr "normal")] ]) ];
    VDict
    [ ("id", vint 81);
      ("name", vstr "Corrupted Browser Profile");
      ("confidence", vfloat 0.7);
      ("evidence", vstr "Browser crashes or misbehaves across sites");
      ("remedy", vstr "Reset profile or reinstall browser.");
      ("conditions",
       VList [ VDict [("type", vstr "browser_crash"); ("op", vstr "=="); ("value", vbool true)];
               VDict [("type", vstr "browser_profile_old"); ("op", vstr "=="); ("value", vbool true)] ]) ];
    VDict
    [ ("id", vint 82);
      ("name", vstr "System Overloaded by Background Tasks");
      ("confidence", vfloat 0.75);
      ("evidence", vstr "High CPU/disk caused by background process");
      ("remedy", vstr "Identify and stop background tasks; schedule jobs off-hours.");
      ("conditions",
       VList [ VDict [("type", vstr "background_cpu"); ("op", vstr ">"); ("value", vint 60)] ]) ];
    VDict
    [ ("id", vint 83);
      ("name", vstr "Heat Sink Not Properly Mounted");
      ("confidence", vfloat 0.9);
      ("evidence", vstr "High temps + uneven core temps");
      ("remedy", vstr "Reseat heatsink and reapply thermal paste.");
      ("conditions",
       VList [ VDict [("type", vstr "core_temp_delta"); ("op", vstr ">"); ("value", vint 20)] ]) ];
    VDict
    [ ("id", vint 84);
      ("name", vstr "SSD TRIM Disabled");
      ("confidence", vfloat 0.6);
      ("evidence", vstr "SSD performance degradation");
      ("remedy", vstr "Enable TRIM and optimize filesystem.");
      ("conditions",
       VList [ VDict [("type", vstr "ssd_trim_enabled"); ("op", vstr "=="); ("value", vbool false)] ]) ];
    VDict
    [ ("id", vint 85);
      ("name", vstr "Corrupted User Profile");
      ("confidence", vfloat 0.7);
      ("evidence", vstr "User-specific settings missing or corrupted");
      ("remedy", vstr "Create new profile and migrate data.");
      ("conditions",
       VList [ VDict [("type", vstr "profile_corrupt"); ("op", vstr "=="); ("value", vbool true)] ]) ];
    VDict
    [ ("id", vint 86);
      ("name", vstr "Power Management Bug");
      ("confidence", vfloat 0.6);
      ("evidence", vstr "Sleep/wake issues");
      ("remedy", vstr "Update power drivers and BIOS.");
      ("conditions",
       VList [ VDict [("type", vstr "sleep_wake_fail"); ("op", vstr "=="); ("value", vbool true)] ]) ];
    VDict
    [ ("id", vint 87);
      ("name", vstr "Thermal Sensor Fault");
      ("confidence", vfloat 0.5);
      ("evidence", vstr "Temperature readings inconsistent");
      ("remedy", vstr "Validate with external sensor or BIOS reading.");
      ("conditions",
       VList [ VDict [("type", vstr "temp_sensor_err"); ("op", vstr "=="); ("value", vbool true)] ]) ];
    VDict
    [ ("id", vint 88);
      ("name", vstr "Firmware Bug (Device)");
      ("confidence", vfloat 0.7);
      ("evidence", vstr "Device malfunction solved by firmware update");
      ("remedy", vstr "Update firmware to latest stable release.");
      ("conditions",
       VList [ VDict [("type", vstr "firmware_old"); ("op", vstr "=="); ("value", vbool true)] ]) ];
    VDict
    [ ("id", vint 89);
      ("name", vstr "Corrupted Application Cache");
      ("confidence", vfloat 0.6);
      ("evidence", vstr "App misbehavior resolved by clearing cache");
      ("remedy", vstr "Clear application cache and restart.");
      ("conditions",
       VList [ VDict [("type", vstr "app_cache_corrupt"); ("op", vstr "=="); ("value", vbool true)] ]) ];
    VDict
    [ ("id", vint 90);
      ("name", vstr "Incompatible Peripheral Driver");
      ("confidence", vfloat 0.85);
      ("evidence", vstr "Peripheral causes kernel errors");
      ("remedy", vstr "Install vendor-supplied driver or remove device.");
      ("conditions",
       VList [ VDict [("type", vstr "kernel_panic_device"); ("op", vstr "=="); ("value", vbool true)] ]) ];
    VDict
    [ ("id", vint 91);
      ("name", vstr "Slow System Due to Fragmented Disk");
      ("confidence", vfloat 0.55);
      ("evidence", vstr "HDD fragmented and slow I/O");
      ("remedy", vstr "Defragment HDD (not SSD).");
      ("conditions",
       VList [ VDict [("type", vstr "hdd_fragmentation"); ("op", vstr ">"); ("value", vint 30)] ]) ];
    VDict
    [ ("id", vint 92);
      ("name", vstr "Corrupted Boot Sector");
      ("confidence", vfloat 0.9);
      ("evidence", vstr "Bootloader missing or sector corrupted");
      ("remedy", vstr "Repair boot sector using recovery tools.");
      ("conditions",
       VList [ VDict [("type", vstr "boot_sector_ok"); ("op", vstr "=="); ("value", vbool false)] ]) ];
    VDict
    [ ("id", vint 93);
      ("name", vstr "Security Policy Blocking Action");
      ("confidence", vfloat 0.7);
      ("evidence", vstr "Group policy prevents action");
      ("remedy", vstr "Adjust group policy or use admin override.");
      ("conditions",
       VList [ VDict [("type", vstr "gpo_block"); ("op", vstr "=="); ("value", vbool true)] ]) ];
    VDict
    [ ("id", vint 94);
      ("name", vstr "Unpatched Vulnerability Detected");
      ("confidence", vfloat 0.8);
      ("evidence", vstr "Known vulnerable version detected");
      ("remedy", vstr "Patch OS/software and mitigate exposure.");
      ("conditions",
       VList [ VDict [("type", vstr "vuln_found"); ("op", vstr "=="); ("value", vbool true)] ]) ];
    VDict
    [ ("id", vint 95);
      ("name", vstr "Corrupted Network Stack (OS)");
      ("confidence", vfloat 0.8);
      ("evidence", vstr "Winsock or equivalent corruption symptoms");
      ("remedy", vstr "Reset network stack (e.g., netsh winsock reset).");
      ("conditions",
       VList [ VDict [("type", vstr "network_stack_corrupt"); ("op", vstr "=="); ("value", vbool true)] ]) ];
    VDict
    [ ("id", vint 96);
      ("name", vstr "Background Update Causing Slowdown");
      ("confidence", vfloat 0.6);
      ("evidence", vstr "Auto-updates consuming CPU/disk");
      ("remedy", vstr "Schedule updates at off-hours or pause updates.");
      ("conditions",
       VList [ VDict [("type", vstr "auto_update_running"); ("op", vstr "=="); ("value", vbool true)] ]) ];
    VDict
    [ ("id", vint 97);
      ("name", vstr "Insufficient Disk Space");
      ("confidence", vfloat 0.9);
      ("evidence", vstr "Very low free disk space");
      ("remedy", vstr "Clean up disk, remove temp files, extend partition.");
      ("conditions",
       VList [ VDict [("type", vstr "disk_free_percent"); ("op", vstr "<"); ("value", vint 5)] ]) ];
    VDict
    [ ("id", vint 98);
      ("name", vstr "Corrupted Registry (Windows)");
      ("confidence", vfloat 0.75);
      ("evidence", vstr "Registry errors reported in logs");
      ("remedy", vstr "Repair registry from backup or reinstall OS.");
      ("conditions",
       VList [ VDict [("type", vstr "registry_errors"); ("op", vstr ">"); ("value", vint 0)] ]) ];
    VDict
    [ ("id", vint 99);
      ("name", vstr "Unresponsive System — Kernel Hang");
      ("confidence", vfloat 0.9);
      ("evidence", vstr "System becomes unresponsive and requires hard reset");
      ("remedy", vstr "Collect memory dump and analyze; update kernel/drivers.");
      ("conditions",
       VList [ VDict [("type", vstr "kernel_hang"); ("op", vstr "=="); ("value", vbool true)] ]) ];
    VDict
    [ ("id", vint 100);
      ("name", vstr "Insufficient Data to Diagnose");
      ("confidence", vfloat 0.2);
      ("evidence", vstr "Not enough facts supplied to identify root cause");
      ("remedy", vstr "Collect more diagnostics (ping, speedtest, temps, logs).");
      ("conditions", VList []) ] ].

Definition RULES : list pyval := [] ++ NETWORK_RULES ++ COMPUTER_RULES.

(** *** The ranker *)

Record Diagnosis := {
  d_id : pyval;
  d_name : pyval;
  d_confidence : float;
  d_evidence : pyval;
  d_remedy : pyval;
  d_match_ratio : float;
  d_score : float;
  d_matched_conditions : list pyval;
  d_unmatched_conditions : list pyval
}.

Definition SCORE_THRESHOLD : float := FFin (1 # 4).

(** The body of the [try] (lines 787-800): the diagnosis to append, if any. *)
Definition try_rule (r : pyval) (facts : gmap string pyval)
  : res (option Diagnosis) :=
  do eval_res <- evaluate_rule r facts;
  if flt (FFin 0) (score eval_res) then
    do id <- py_getitem r "id";
    do name <- py_getitem r "name";
    do evidence <- py_get r "evidence" (vstr EmptyString);
    do remedy <- py_get r "remedy" (vstr EmptyString);
    Ok (Some {| d_id := id;
                d_name := name;
                d_confidence := confidence eval_res;
                d_evidence := evidence;
                d_remedy := remedy;
                d_match_ratio := match_ratio eval_res;
                d_score := score eval_res;
                d_matched_conditions := matched_conditions eval_res;
                d_unmatched_conditions := unmatched_conditions eval_res |})
  else Ok None.

(** The loop over the catalog (lines 783-802); [except Exception: continue]. *)
Fixpoint collect_matches (rules : list pyval) (facts : gmap string pyval)
  (matches : list Diagnosis) : res (list Diagnosis) :=
  match rules with
  | [] => Ok matches
  | r :: rules' =>
      do rid <- py_get r "id" vnone;
      if py_eq rid (vint 100) then collect_matches rules' facts matches
      else
        match try_rule r facts with
        | Ok (Some d) => collect_matches rules' facts (matches ++ [d])
        | Ok None | Raise _ => collect_matches rules' facts matches
        end
  end.

(** [next((x for x in RULES if x['id'] == 100), None)] *)
Fixpoint find_fallback (rules : list pyval) : res (option pyval) :=
  match rules with
  | [] => Ok None
  | x :: rules' =>
      do xid <- py_getitem x "id";
      if py_eq xid (vint 100) then Ok (Some x) else find_fallback rules'
  end.

Definition fallback_diagnosis (fallback : pyval) : res Diagnosis :=
  do id <- py_getitem fallback "id";
  do name <- py_getitem fallback "name";
  do c <- py_get fallback "confidence" (vfloat (2 # 10));
  do evidence <- py_get fallback "evidence" (vstr EmptyString);
  do remedy <- py_get fallback "remedy" (vstr EmptyString);
  Ok {| d_id := id;
        d_name := name;
        d_confidence := _normalize_confidence c;
        d_evidence := evidence;
        d_remedy := remedy;
        d_match_ratio := FFin 0;
        d_score := FFin 0;
        d_matched_conditions := [];
        d_unmatched_conditions := [] |}.

(** [run_diagnosis] with the catalog, a module global, made explicit. *)
Definition run_diagnosis_on (RULES : list pyval) (facts : gmap string pyval)
  : res (list Diagnosis) :=
  do matches <- collect_matches RULES facts [];
  let matches_above :=
    List.filter (fun m => fle SCORE_THRESHOLD (d_score m)) matches in
  match matches_above with
  | _ :: _ => Ok (sorted_desc d_score matches_above)
  | [] =>
      match matches with
      | _ :: _ => Ok (firstn 3%nat (sorted_desc d_score matches))
      | [] =>
          do fallback <- find_fallback RULES;
          match fallback with
          | Some fb =>
              if py_bool fb then
                do d <- fallback_diagnosis fb;
                Ok [d]
              else Ok []
          | None => Ok []
          end
      end
  end.

Definition run_diagnosis (facts : gmap string pyval) : res (list Diagnosis) :=
  run_diagnosis_on RULES facts.

End Engine.

(** ** support_app/rule_import.py *)

Module RuleImport.
Import Py.
Local Open Scope Q_scope.

(** *** Objects and the store

    Lists and dicts are objects in a store; a value is a scalar or a
    reference to one of them.  Two references to one location are the same
    Python object, so a write through one is seen through the other. *)

Abbreviation loc := positive.

Inductive hval :=
| HAtom (a : atom)
| HRef (l : loc).

Inductive obj :=
| OList (items : list hval)
| ODict (d : list (string * hval)).

Abbreviation heap := (gmap loc obj).

(** A new object goes to a location the store does not use. *)
Definition alloc (o : obj) (h : heap) : loc * heap :=
  let l := fresh (dom h) in (l, <[l := o]> h).

(** [isinstance(v, dict)], with the location and the entries *)
Definition as_dict (h : heap) (v : hval) : option (loc * list (string * hval)) :=
  match v with
  | HRef l => match h !! l with Some (ODict d) => Some (l, d) | _ => None end
  | HAtom _ => None
  end.

(** [isinstance(v, list)], with the items *)
Definition as_list (h : heap) (v : hval) : option (list hval) :=
  match v with
  | HRef l => match h !! l with Some (OList items) => Some items | _ => None end
  | HAtom _ => None
  end.

(** [bool(v)] *)
Definition truthy (h : heap) (v : hval) : bool :=
  match v with
  | HAtom a => atom_truthy a
  | HRef l =>
      match h !! l with
      | Some (OList []) | Some (ODict []) => false
      | _ => true
      end
  end.

(** [float(v)] *)
Definition hfloat (v : hval) : res float :=
  match v with
  | HAtom a => atom_float a
  | HRef _ => Raise TypeError
  end.

(** [hash(v)]: the key a dict or a set files [v] under; lists and dicts
    have none. *)
Definition hash_key (v : hval) : res atom :=
  match v with
  | HAtom a => Ok a
  | HRef _ => Raise TypeError
  end.

(** *** Validation *)

(** The messages of [validate_rules], by format string, with the values
    they interpolate. *)
Inductive issue :=
| RuleNotDict (i : nat)
| RuleMissingId (i : nat)
| DuplicateId (rid : atom)
| RuleMissingName (rid : atom)
| InvalidConfidence (rid : atom) (conf : hval)
| ConditionsNone (rid : atom)
| ConditionsNotList (rid : atom)
| ConditionNotDict (rid : atom) (j : nat)
| ConditionMissingType (rid : atom) (j : nat)
| ConditionMissingOp (rid : atom) (j : nat)
| ConditionInvalidWeight (rid : atom) (j : nat) (w : hval).

Definition _normalize_confidence_raw (c : hval) : option float :=
  match hfloat c with
  | Raise _ => None
  | Ok cf =>
      if fle (FFin 0) cf && fle cf (FFin 1) then Some cf
      else if flt (FFin 1) cf && fle cf (FFin 100) then Some (fdiv cf (FFin 100))
      else if flt (FFin 100) cf then Some (FFin 1)
      else None
  end.

(** One pass of the loop over a condition dict [d] (lines 103-114): the
    dict as the assignments leave it, and the issues to append. *)
Definition validate_condition (rid : atom) (j : nat) (d : list (string * hval))
  : list (string * hval) * list issue :=
  let i1 := if has_key "type" d then [] else [ConditionMissingType rid j] in
  let '(d1, i2) :=
    if has_key "op" d then (d, [])
    else (assoc_set "op" (HAtom (AStr "==")) d, [ConditionMissingOp rid j]) in
  let w :=
    match assoc "weight" d1 with Some w => w | None => HAtom (AFloat (FFin 1)) end in
  let '(d2, i3) :=
    match hfloat w with
    | Ok f => (assoc_set "weight" (HAtom (AFloat f)) d1, [])
    | Raise _ =>
        (assoc_set "weight" (HAtom (AFloat (FFin 1))) d1,
         [ConditionInvalidWeight rid j w])
    end in
  (d2, i1 ++ i2 ++ i3).

(** The loop over [conds] (lines 99-114); the condition dicts are updated
    in the store, where the caller's rules still point at them. *)
Fixpoint validate_conditions (rid : atom) (j : nat) (conds : list hval)
  (h : heap) (issues : list issue) : heap * list issue :=
  match conds with
  | [] => (h, issues)
  | c :: conds' =>
      match as_dict h c with
      | None =>
          validate_conditions rid (S j) conds' h (issues ++ [ConditionNotDict rid j])
      | Some (l, d) =>
          let '(d', new) := validate_condition rid j d in
          validate_conditions rid (S j) conds' (<[l := ODict d']> h) (issues ++ new)
      end
  end.

Record vstate := {
  st_heap : heap;
  st_issues : list issue;
  st_seen_ids : list atom;
  st_normalized : list hval
}.

Definition add_issue (st : vstate) (i : issue) : vstate :=
  {| st_heap := st_heap st;
     st_issues := st_issues st ++ [i];
     st_seen_ids := st_seen_ids st;
     st_normalized := st_normalized st |}.

(** Lines 91-97: the list to validate, its items, and the issue if the
    entry was not a list.  A missing, [None] or ill-typed entry gives a
    new empty list. *)
Definition conditions_of (rid : atom) (d : list (string * hval)) (h : heap)
  : hval * list hval * list issue * heap :=
  match assoc "conditions" d with
  | None =>
      let '(l, h') := alloc (OList []) h in (HRef l, [], [], h')
  | Some (HAtom ANone) =>
      let '(l, h') := alloc (OList []) h in (HRef l, [], [ConditionsNone rid], h')
  | Some v =>
      match as_list h v with
      | Some items => (v, items, [], h)
      | None =>
          let '(l, h') := alloc (OList []) h in
          (HRef l, [], [ConditionsNotList rid], h')
      end
  end.

(** The body of the loop over the rules (lines 72-118), for a dict [d] at
    [lr] whose id [rid] is not [None]. *)
Definition validate_rule (lr : loc) (d : list (string * hval)) (rid : atom)
  (st : vstate) : vstate :=
  let h := st_heap st in
  let i1 := if existsb (atom_eq rid) (st_seen_ids st) then [DuplicateId rid] else [] in
  let name := match assoc "name" d with Some n => n | None => HAtom ANone end in
  let i2 := if truthy h name then [] else [RuleMissingName rid] in
  let conf :=
    match assoc "confidence" d with
    | Some c => c
    | None => HAtom (AFloat (FFin (1 # 2)))
    end in
  let '(norm, i3) :=
    match _normalize_confidence_raw conf with
    | Some q => (q, [])
    | None => (FFin (1 # 2), [InvalidConfidence rid conf])
    end in
  let '(conds, items, i4, h1) := conditions_of rid d h in
  let '(h2, issues) :=
    validate_conditions rid 0 items h1 (st_issues st ++ i1 ++ i2 ++ i3 ++ i4) in
  (* nr = dict(r): the entries of r as they are now *)
  let d_now := match h2 !! lr with Some (ODict d') => d' | _ => d end in
  let nr :=
    assoc_set "conditions" conds
      (assoc_set "confidence" (HAtom (AFloat norm)) d_now) in
  let '(lnr, h3) := alloc (ODict nr) h2 in
  {| st_heap := h3;
     st_issues := issues;
     st_seen_ids := st_seen_ids st ++ [rid];
     st_normalized := st_normalized st ++ [HRef lnr] |}.

Fixpoint validate_loop (i : nat) (rules : list hval) (st : vstate)
  : res vstate :=
  match rules with
  | [] => Ok st
  | r :: rules' =>
      match as_dict (st_heap st) r with
      | None => validate_loop (S i) rules' (add_issue st (RuleNotDict i))
      | Some (lr, d) =>
          match assoc "id" d with
          | None | Some (HAtom ANone) =>
              validate_loop (S i) rules' (add_issue st (RuleMissingId i))
          | Some rid_v =>
              do rid <- hash_key rid_v;
              validate_loop (S i) rules' (validate_rule lr d rid st)
          end
      end
  end.


(** *** Merging *)

(** [by_id[k] = v] on a dict keyed by ids: keys are compared with [==]
    and the first key that was inserted stays. *)
Fixpoint by_id_set (k : atom) (v : hval) (m : list (atom * hval))
  : list (atom * hval) :=
  match m with
  | [] => [(k, v)]
  | (k', v') :: m' =>
      if atom_eq k k' then (k', v) :: m' else (k', v') :: by_id_set k v m'
  end.

Fixpoint by_id_get (k : atom) (m : list (atom * hval)) : option hval :=
  match m with
  | [] => None
  | (k', v) :: m' => if atom_eq k k' then Some v else by_id_get k m'
  end.

(** [r['id']] *)
Definition getitem_id (h : heap) (r : hval) : res hval :=
  match r with
  | HRef l =>
      match h !! l with
      | Some (ODict d) =>
          match assoc "id" d with Some v => Ok v | None => Raise KeyError end
      | _ => Raise TypeError
      end
  | HAtom _ => Raise TypeError
  end.

(** [{r['id']: r for r in existing}] *)
Fixpoint index_existing (h : heap) (existing : list hval)
  (by_id : list (atom * hval)) : res (list (atom * hval)) :=
  match existing with
  | [] => Ok by_id
  | r :: existing' =>
      do v <- getitem_id h r;
      do k <- hash_key v;
      index_existing h existing' (by_id_set k r by_id)
  end.

(** The loop over [new] (lines 124-127) *)
Fixpoint index_new (h : heap) (new : list hval) (by_id : list (atom * hval))
  : res (list (atom * hval)) :=
  match new with
  | [] => Ok by_id
  | r :: new' =>
      match as_dict h r with
      | None => index_new h new' by_id
      | Some (_, d) =>
          match assoc "id" d with
          | None => index_new h new' by_id
          | Some v =>
              do k <- hash_key v;
              index_new h new' (by_id_set k r by_id)
          end
      end
  end.

(** [sorted(keys)]: only [<] is asked of the keys, and it raises between
    a number and a string. *)
Fixpoint insert_key (x : atom) (l : list atom) : res (list atom) :=
  match l with
  | [] => Ok [x]
  | y :: l' =>
      do lt <- atom_cmp CLt y x;
      if lt then (do r <- insert_key x l'; Ok (y :: r)) else Ok (x :: y :: l')
  end.

Fixpoint sorted_keys (l : list atom) : res (list atom) :=
  match l with
  | [] => Ok []
  | x :: l' => do s <- sorted_keys l'; insert_key x s
  end.

Definition merge_rules (h : heap) (existing new : list hval)
  : res (list hval) :=
  do by_id0 <- index_existing h existing [];
  do by_id <- index_new h new by_id0;
  do keys <- sorted_keys (map fst by_id);
  Ok (omap (fun k => by_id_get k by_id) keys).

End RuleImport.

(** ** Well-formed rules, and the ranking policy in the words of the
    specification *)

Module EngineSpec.
Import Py Engine.
Local Open Scope Q_scope.

(** The entry [k] of [d], when there is one, can be used as a dict key. *)
Definition keyable (d : dict) (k : string) : bool :=
  match assoc k d with
  | Some v => hashable v
  | None => true
  end.

(** A condition as the data model has it: a mapping whose [type] and [op]
    are scalars (fact names and operator names are strings). *)
Definition wf_condition (c : pyval) : bool :=
  match c with
  | VDict d => keyable d "type" && keyable d "op"
  | _ => false
  end.

(** [float(c.get('weight', 1.0))], when it has a value *)
Definition weight_of (c : pyval) : option float :=
  match py_get c "weight" (vfloat 1) with
  | Ok wv => match py_float wv with Ok w => Some w | Raise _ => None end
  | Raise _ => None
  end.

Definition weight_or_zero (c : pyval) : float :=
  match weight_of c with Some w => w | None => FFin 0 end.

Definition weighted_condition (c : pyval) : bool :=
  wf_condition c && match weight_of c with Some _ => true | None => false end.

(** The list under key [k] of a rule, empty when the key is absent. *)
Definition conditions_at (rule : pyval) (k : string) : option (list pyval) :=
  match py_get rule k (VList []) with
  | Ok (VList l) => Some l
  | _ => None
  end.


(** The fact a condition names, if the facts have it. *)
Definition fact_of (facts : gmap string pyval) (cond : dict) : option pyval :=
  match assoc "type" cond with
  | Some (VAtom (AStr s)) => facts !! s
  | _ => None
  end.

(** The operator of a condition ([==] when it names none), if it is one of
    the supported ones. *)
Definition operator_of (cond : dict) : option op_fn :=
  match assoc "op" cond with
  | Some (VAtom (AStr s)) => assoc s _OPS
  | Some _ => None
  | None => assoc "==" _OPS
  end.

Definition comparand_of (cond : dict) : pyval :=
  match assoc "value" cond with Some v => v | None => vnone end.

(** The condition evaluates to true against the facts. *)
Definition holds (facts : gmap string pyval) (c : pyval) : bool :=
  try_except (_check_condition facts c) false.

(** The sum of a list of floats, accumulated from [0.0] left to right. *)
Definition fsum (l : list float) : float := fold_left fadd l (FFin 0).

Definition is_dict (v : pyval) : bool :=
  match v with
  | VDict _ => true
  | _ => false
  end.

(** The match ratio as lines 113-119 compute it. *)
Definition ratio_of (total matched : float) (neg : bool) : float :=
  if neg then FFin 0
  else if feq total (FFin 0) then FFin 0 else fdiv matched total.

(** The rule is the one the ranker sets aside: [r.get('id') == 100]. *)
Definition is_sentinel (r : pyval) : bool :=
  match py_get r "id" vnone with
  | Ok v => py_eq v (vint 100)
  | Raise _ => false
  end.

(** The diagnosis a rule contributes to the candidate set: none for the
    sentinel, for a rule that cannot be evaluated and for a score that is
    not above zero. *)
Definition candidate (facts : gmap string pyval) (r : pyval) : option Diagnosis :=
  if is_sentinel r then None
  else match try_rule r facts with
       | Ok (Some d) => Some d
       | _ => None
       end.

(** The candidate set, in catalog order. *)
Definition candidates (facts : gmap string pyval) (rules : list pyval)
  : list Diagnosis :=
  omap (candidate facts) rules.

Definition above_threshold (d : Diagnosis) : bool :=
  fle (FFin (1 # 4)) (d_score d).

Definition score_is (s : float) (d : Diagnosis) : bool := feq (d_score d) s.

(** [out] is [input] sorted by score descending, ties in the order of
    [input]. *)
Definition sorted_by_score (input out : list Diagnosis) : Prop :=
  Permutation input out /\
  StronglySorted (fun a b => fle (d_score b) (d_score a) = true) out /\
  forall s, List.filter (score_is s) out = List.filter (score_is s) input.

(** What the ranker reports for a candidate set that is not empty: the
    candidates at or above the threshold, sorted, when there are some,
    and the first three of the sorted candidates otherwise. *)
Definition reported (cands out : list Diagnosis) : Prop :=
  let above := List.filter above_threshold cands in
  (above <> [] -> sorted_by_score above out) /\
  (above = [] -> cands <> [] ->
     exists s, sorted_by_score cands s /\ out = firstn 3 s).

(** A rule as the data model has it: a dict with an [id] and a [name]. *)
Definition named_rule (r : pyval) : bool :=
  match r with
  | VDict d => has_key "id" d && has_key "name" d
  | _ => false
  end.


(** The "insufficient data" diagnosis of the built-in catalog. *)
Definition insufficient_data : Diagnosis :=
  {| d_id := vint 100;
     d_name := vstr "Insufficient Data to Diagnose";
     d_confidence := round (1 # 5);
     d_evidence := vstr "Not enough facts supplied to identify root cause";
     d_remedy := vstr "Collect more diagnostics (ping, speedtest, temps, logs).";
     d_match_ratio := FFin 0;
     d_score := FFin 0;
     d_matched_conditions := [];
     d_unmatched_conditions := [] |}.

(** Sample inputs *)

Definition no_facts : gmap string pyval := ∅.

Definition latency_facts : gmap string pyval := {[ "ping_latency" := vint 250 ]}.

Definition dns_facts : gmap string pyval :=
  <[ "ping_ip" := vstr "success" ]> {[ "ping_domain" := vstr "fail" ]}.

(** All conditions met, and one negation met as well. *)
Definition vetoed_rule : pyval :=
  VDict [ ("id", vint 1); ("name", vstr "DNS Resolution Failure");
          ("confidence", vfloat 0.95);
          ("conditions",
           VList [ VDict [("type", vstr "ping_ip"); ("op", vstr "==");
                          ("value", vstr "success")];
                   VDict [("type", vstr "ping_domain"); ("op", vstr "==");
                          ("value", vstr "fail")] ]);
          ("not_conditions",
           VList [ VDict [("type", vstr "ping_domain"); ("op", vstr "contains");
                          ("value", vstr "ai")] ]) ].

(** A rule whose condition has a weight that is no number. *)
Definition bad_weight_rule : pyval :=
  VDict [ ("id", vint 7); ("name", vstr "High latency");
          ("confidence", vfloat 0.9);
          ("conditions",
           VList [ VDict [("type", vstr "ping_latency"); ("op", vstr ">=");
                          ("value", vint 200); ("weight", vstr "heavy")] ]) ].

(** Two conditions of weights 3 and 1, the first one met. *)
Definition weighted_rule : pyval :=
  VDict [ ("id", vint 2); ("name", vstr "Slow link");
          ("confidence", vint 80);
          ("conditions",
           VList [ VDict [("type", vstr "ping_latency"); ("op", vstr ">=");
                          ("value", vint 200); ("weight", vint 3)];
                   VDict [("type", vstr "packet_loss"); ("op", vstr ">");
                          ("value", vint 5)] ]) ].





(** Conditions on the latency: one that 250 ms meets, one that it does
    not. *)
Definition slow : pyval :=
  VDict [("type", vstr "ping_latency"); ("op", vstr ">="); ("value", vint 200)].

Definition very_slow : pyval :=
  VDict [("type", vstr "ping_latency"); ("op", vstr ">"); ("value", vint 900)].

Definition weighted (c : pyval) (w : Q) : pyval :=
  match c with
  | VDict d => VDict (d ++ [("weight", vfloat w)])
  | _ => c
  end.

Definition sample_rule (id : Z) (conf : Q) (conds : list pyval) : pyval :=
  VDict [ ("id", vint id); ("name", vstr "Slow link");
          ("confidence", vfloat conf); ("conditions", VList conds) ].

Definition sample_sentinel : pyval :=
  VDict [ ("id", vint 100); ("name", vstr "Insufficient Data to Diagnose");
          ("confidence", vfloat 0.2); ("conditions", VList []) ].

(** A catalog with matches of every kind for a latency of 250 ms.  Rules
    3 and 1 score 0.6; rule 2 scores 0.8 * 0.75, a double above 0.6;
    rule 4 scores 0.3 * (1.5 / 1.8), a double below 0.25; rule 5 does not
    match at all. *)
Definition ranked_catalog : list pyval :=
  [ sample_rule 3 0.6 [slow];
    sample_rule 4 0.3 [weighted slow 1.5; weighted very_slow 0.3];
    sample_rule 2 0.8 [slow; slow; slow; very_slow];
    sample_rule 5 0.9 [very_slow];
    sample_rule 1 0.6 [slow];
    sample_sentinel ].

(** A catalog with weak matches only: rules 1, 3 and 5 score 0.2, rule 2
    scores 0.3 * (1.5 / 1.8), rule 4 scores 0.1. *)
Definition weak_catalog : list pyval :=
  [ sample_rule 1 0.2 [slow];
    sample_rule 4 0.1 [slow];
    sample_rule 3 0.2 [slow];
    sample_rule 2 0.3 [weighted slow 1.5; weighted very_slow 0.3];
    sample_rule 5 0.2 [slow];
    sample_sentinel ].

(** A catalog with a rule that cannot be evaluated between two that
    match. *)
Definition mixed_catalog : list pyval :=
  [ sample_rule 1 0.6 [slow]; bad_weight_rule; sample_rule 3 0.9 [slow];
    sample_sentinel ].

Definition truthy_condition : dict :=
  [("type", vstr "wifi_connected"); ("op", vstr "is_true")].

Definition falsy_condition : dict :=
  [("type", vstr "wifi_connected"); ("op", vstr "is_false")].

Definition one_fact : gmap string pyval := {[ "wifi_connected" := vint 1 ]}.

Definition text_fact : gmap string pyval := {[ "wifi_connected" := vstr "yes" ]}.

End EngineSpec.

(** ** The catalog tools in the words of the specification *)

Module ImportSpec.
Import Py RuleImport.
Local Open Scope Q_scope.

(** The id of a rule of the data model: a dict with an integer [id]. *)
Definition rule_id (h : heap) (r : hval) : option Z :=
  match as_dict h r with
  | Some (_, d) =>
      match assoc "id" d with
      | Some (HAtom (AInt z)) => Some z
      | _ => None
      end
  | None => None
  end.

(** An entry that is no dict, or a dict without the key [id]. *)
Definition without_id (h : heap) (r : hval) : bool :=
  match as_dict h r with
  | Some (_, d) => negb (has_key "id" d)
  | None => true
  end.

(** Key the rules by id into a map, each one overwriting or inserting. *)
Definition keyed (h : heap) (m : gmap Z hval) (rules : list hval) : gmap Z hval :=
  fold_left
    (fun m r => match rule_id h r with Some z => <[z := r]> m | None => m end)
    rules m.

(** The map of the merge: existing rules keyed by id, then every incoming
    rule written over it. *)
Definition merged_catalog (h : heap) (existing incoming : list hval)
  : gmap Z hval :=
  keyed h (keyed h ∅ existing) incoming.

(** Every key of the dict [by_id] is the integer id of the rule under it. *)
Definition int_keyed (h : heap) (by_id : list (atom * hval)) : Prop :=
  Forall (fun kv => exists z, fst kv = AInt z /\ rule_id h (snd kv) = Some z) by_id.

(** The dict [by_id] stands for the map [m]. *)
Definition stands_for (h : heap) (by_id : list (atom * hval)) (m : gmap Z hval)
  : Prop :=
  int_keyed h by_id /\ List.NoDup (map fst by_id) /\
  forall z, by_id_get (AInt z) by_id = m !! z.

(** The entry under [k], or [default] ([d.get(k, default)]). *)
Definition entry_or (d : list (string * hval)) (k : string) (default : hval) : hval :=
  match assoc k d with
  | Some v => v
  | None => default
  end.

(** The id of a dict that validation keeps: an id other than [None]. *)
Definition kept_id (d : list (string * hval)) : option atom :=
  match assoc "id" d with
  | Some (HAtom ANone) => None
  | Some (HAtom a) => Some a
  | _ => None
  end.

(** The confidence validation stores for a raw entry. *)
Definition stored_confidence (conf : hval) : float :=
  match _normalize_confidence_raw conf with
  | Some q => q
  | None => FFin (1 # 2)
  end.

(** The weight validation stores in a condition. *)
Definition stored_weight (d : list (string * hval)) : float :=
  match hfloat (entry_or d "weight" (HAtom (AFloat (FFin 1)))) with
  | Ok q => q
  | Raise _ => FFin 1
  end.

(** The entries of a condition dict as validation leaves them. *)
Definition normalized_condition (d : list (string * hval)) : list (string * hval) :=
  fst (validate_condition ANone 0 d).

(** What validation may do to the objects of a store: leave one as it
    is, or normalize a dict as a condition. *)
Definition evolves (h h' : heap) : Prop :=
  forall l o, h !! l = Some o ->
    h' !! l = Some o \/
    exists d, o = ODict d /\ h' !! l = Some (ODict (normalized_condition d)).

(** The rules are objects of the store, and no id is a list or a dict. *)
Definition hashable_ids (h : heap) (rules : list hval) : Prop :=
  Forall (fun r =>
            match r with
            | HRef l =>
                match h !! l with
                | Some (ODict d) =>
                    match assoc "id" d with Some (HRef _) => False | _ => True end
                | Some (OList _) => True
                | None => False
                end
            | HAtom _ => True
            end) rules.

(** No issue about a confidence is recorded for a valid one. *)
Definition confidence_issues_sound (issues : list issue) : Prop :=
  forall rid conf, In (InvalidConfidence rid conf) issues ->
                   _normalize_confidence_raw conf = None.

(** What validation, taking the store from [h] to [h'], does for a kept
    rule with entries [d] and id [rid]: [out] holds a new dict with the
    stored confidence and the rule's own list of conditions, the issue
    for an invalid confidence is among [issues], the list is unchanged
    and the condition dicts in it are normalized where they are. *)
Definition rule_outcome (h h' : heap) (out : list hval) (issues : list issue)
  (d : list (string * hval)) (rid : atom) : Prop :=
  let conf := entry_or d "confidence" (HAtom (AFloat (FFin (1 # 2)))) in
  (exists lnr nr,
     In (HRef lnr) out /\ h !! lnr = None /\ h' !! lnr = Some (ODict nr) /\
     assoc "confidence" nr = Some (HAtom (AFloat (stored_confidence conf))) /\
     (forall lc items, assoc "conditions" d = Some (HRef lc) ->
                       h !! lc = Some (OList items) ->
                       assoc "conditions" nr = Some (HRef lc))) /\
  (_normalize_confidence_raw conf = None ->
   In (InvalidConfidence rid conf) issues) /\
  (forall lc items, assoc "conditions" d = Some (HRef lc) ->
                    h !! lc = Some (OList items) ->
                    h' !! lc = Some (OList items)) /\
  (forall lc items lk c,
     assoc "conditions" d = Some (HRef lc) -> h !! lc = Some (OList items) ->
     In (HRef lk) items -> h !! lk = Some (ODict c) ->
     h' !! lk = Some (ODict (normalized_condition c))).

(** Sample stores *)






(** Rules 5 and 2, and another rule 5 *)
Definition merge_store : heap :=
  <[ 1%positive := ODict [ ("id", HAtom (AInt 5)); ("name", HAtom (AStr "A")) ] ]>
  (<[ 2%positive := ODict [ ("id", HAtom (AInt 2)); ("name", HAtom (AStr "C")) ] ]>
  (<[ 3%positive := ODict [ ("id", HAtom (AInt 5)); ("remedy", HAtom (AStr "B")) ] ]> ∅)).

End ImportSpec.

(** ** Further readings of the rule importer *)

Module ImportMore.
Import Py RuleImport ImportSpec.
Local Open Scope Q_scope.

(** The rule id an issue names; the two issues about an entry that is
    no rule name its index instead. *)
Definition issue_rule (x : issue) : option atom :=
  match x with
  | RuleNotDict _ | RuleMissingId _ => None
  | DuplicateId rid | RuleMissingName rid | InvalidConfidence rid _
  | ConditionsNone rid | ConditionsNotList rid | ConditionNotDict rid _
  | ConditionMissingType rid _ | ConditionMissingOp rid _
  | ConditionInvalidWeight rid _ _ => Some rid
  end.

Definition is_duplicate (x : issue) : bool :=
  match x with
  | DuplicateId _ => true
  | _ => false
  end.

(** An issue of the rule [rid], other than the one about a repeated id. *)
Definition of_rule (rid : atom) (x : issue) : Prop :=
  issue_rule x = Some rid /\ is_duplicate x = false.

(** What the loop of [validate_rules] does with an entry: lines 72-74,
    75-78, or the rest of the body. *)
Inductive verdict :=
| NotDict
| MissingId
| Kept (lr : loc) (d : list (string * hval)) (rid : atom).

Definition classify (h : heap) (r : hval) : verdict :=
  match as_dict h r with
  | None => NotDict
  | Some (lr, d) =>
      match kept_id d with
      | Some rid => Kept lr d rid
      | None => MissingId
      end
  end.


(** The ids of the entries that are kept, in order. *)
Definition kept_ids (h : heap) (rules : list hval) : list atom :=
  omap (fun r => match classify h r with
                 | Kept _ _ rid => Some rid
                 | _ => None
                 end) rules.

(** The keys validation writes, in a rule or in a condition. *)
Definition written_keys : list string := ["op"; "weight"; "confidence"; "conditions"].


(** One pass of the loop over the rules, for an entry [r] classified in
    the store [h0] that validation started from. *)
Definition step_of (h0 : heap) (i : nat) (r : hval) (st next : vstate) : Prop :=
  match classify h0 r with
  | NotDict => next = add_issue st (RuleNotDict i)
  | MissingId => next = add_issue st (RuleMissingId i)
  | Kept lr d rid =>
      exists d1,
        st_heap st !! lr = Some (ODict d1) /\
        (forall k, k <> "op" -> k <> "weight" -> assoc k d1 = assoc k d) /\
        next = validate_rule lr d1 rid st
  end.


(** A catalog to review: a rule with one condition, a string, a dict
    without an id, and a rule whose id 1.0 repeats the id 1. *)
Definition review_store : heap :=
  <[ 1%positive := ODict [ ("id", HAtom (AInt 1)); ("name", HAtom (AStr "Slow link"));
                           ("confidence", HAtom (AInt 80));
                           ("conditions", HRef 2);
                           ("remedy", HAtom (AStr "Restart the router")) ] ]>
  (<[ 2%positive := OList [HRef 3] ]>
  (<[ 3%positive := ODict [ ("type", HAtom (AStr "ping_latency"));
                            ("value", HAtom (AInt 200)) ] ]>
  (<[ 4%positive := ODict [ ("name", HAtom (AStr "No id")) ] ]>
  (<[ 5%positive := ODict [ ("id", HAtom (AFloat (FFin 1)));
                            ("name", HAtom (AStr "Again")) ] ]> ∅)))).

Definition review_rules : list hval :=
  [HRef 1; HAtom (AStr "junk"); HRef 4; HRef 5].

End ImportMore.

(** ** Facts about the builtins *)

Module PyFacts.
Import Py.
Local Open Scope Q_scope.

Lemma bind_Ok {A B : Type} (m : res A) (k : A -> res B) (b : B) :
  bind m k = Ok b -> exists a, m = Ok a /\ k a = Ok b.
Proof. destruct m as [a|e]; simpl; [eauto | discriminate]. Qed.

Lemma Ok_inj {A : Type} (a b : A) : Ok a = Ok b -> a = b.
Proof. intros H. injection H as ->. reflexivity. Qed.

Lemma Qle_bool_false (x y : Q) : Qle_bool x y = false -> y < x.
Proof.
  intros H. apply Qnot_le_lt. intros Hle.
  apply Qle_bool_iff in Hle. congruence.
Qed.

Lemma Qle_bool_true (x y : Q) : Qle_bool x y = true -> x <= y.
Proof. apply Qle_bool_iff. Qed.

(** *** The order of the floats *)

Lemma fle_trans (a b c : float) :
  fle a b = true -> fle b c = true -> fle a c = true.
Proof.
  destruct a as [x|[]|], b as [y|[]|], c as [z|[]|]; cbn; try congruence.
  rewrite !Qle_bool_iff. apply Qle_trans.
Qed.

Lemma fle_total (a b : float) :
  is_nan a = false -> is_nan b = false -> fle a b = false -> fle b a = true.
Proof.
  destruct a as [x|[]|], b as [y|[]|]; cbn; try congruence.
  intros _ _ H. apply Qle_bool_false in H. apply Qle_bool_iff. lra.
Qed.

Lemma fle_refl (a : float) : is_nan a = false -> fle a a = true.
Proof.
  destruct a as [x|[]|]; cbn; try congruence.
  intros _. apply Qle_bool_iff. lra.
Qed.

Lemma fle_not_nan (a b : float) :
  fle a b = true -> is_nan a = false /\ is_nan b = false.
Proof. destruct a as [x|[]|], b as [y|[]|]; cbn; auto; discriminate. Qed.

Lemma flt_fle (a b : float) : flt a b = true -> fle a b = true.
Proof. unfold flt. intros H. now apply andb_prop in H. Qed.

Lemma flt_not_nan (a b : float) :
  flt a b = true -> is_nan a = false /\ is_nan b = false.
Proof. intros H. now apply fle_not_nan, flt_fle. Qed.

Lemma flt_fle_trans (a b c : float) :
  flt a b = true -> fle b c = true -> flt a c = true.
Proof.
  destruct a as [x|[]|], b as [y|[]|], c as [z|[]|]; unfold flt; cbn;
    try congruence.
  rewrite !andb_true_iff, !negb_true_iff. intros [H1 H2] H3.
  apply Qle_bool_iff in H1, H3. apply Qle_bool_false in H2.
  split; [apply Qle_bool_iff; lra|].
  destruct (Qle_bool z x) eqn:E; [|reflexivity].
  apply Qle_bool_iff in E. lra.
Qed.

Lemma fle_flt_false (a b : float) : fle a b = true -> flt b a = false.
Proof. unfold flt. intros ->. apply andb_false_r. Qed.

Lemma feq_fle (a b : float) : feq a b = true -> fle a b = true /\ fle b a = true.
Proof. unfold feq. apply andb_prop. Qed.



Lemma feq_FFin (x y : Q) : feq (FFin x) (FFin y) = true <-> x == y.
Proof.
  unfold feq. cbn. rewrite andb_true_iff, !Qle_bool_iff. split.
  - intros [? ?]. lra.
  - intros ->. split; lra.
Qed.

(** ** Rounding *)

Lemma pow2_pos (e : Z) : 0 < pow2 e.
Proof. apply Qpower_0_lt. reflexivity. Qed.

Lemma pow2_add (a b : Z) : pow2 (a + b) == pow2 a * pow2 b.
Proof. apply Qpower_plus. discriminate. Qed.

Lemma pow2_nonneg (k : Z) : (0 <= k)%Z -> pow2 k == inject_Z (2 ^ k).
Proof. intros H. unfold pow2. now rewrite Zpower_Qpower. Qed.

Lemma pow2_le (a b : Z) : (a <= b)%Z -> pow2 a <= pow2 b.
Proof. intros H. apply Qpower_le_compat_l; [exact H | discriminate]. Qed.

Lemma pow2_lt (a b : Z) : (a < b)%Z -> pow2 a < pow2 b.
Proof. intros H. apply Qpower_lt_compat_l; [exact H | reflexivity]. Qed.

(** The nearest integer respects integer bounds. *)
Lemma round_half_even_ge (t : Q) (a : Z) :
  inject_Z a <= t -> (a <= round_half_even t)%Z.
Proof.
  intros H. apply Qfloor_resp_le in H. rewrite Qfloor_Z in H.
  unfold round_half_even.
  destruct (Qcompare _ _); [destruct (Z.even _)| |]; lia.
Qed.

Lemma round_half_even_le (t : Q) (b : Z) :
  t <= inject_Z b -> (round_half_even t <= b)%Z.
Proof.
  intros H. pose proof (Qfloor_resp_le _ _ H) as F. rewrite Qfloor_Z in F.
  assert (G : inject_Z (Qfloor t) < t -> (Qfloor t + 1 <= b)%Z).
  { intros L. assert (Qfloor t < b)%Z; [|lia].
    rewrite Zlt_Qlt. eapply Qlt_le_trans; eassumption. }
  unfold round_half_even.
  destruct (Qcompare (t - inject_Z (Qfloor t)) (1 # 2)) eqn:C.
  - apply Qeq_alt in C. destruct (Z.even _); [exact F|].
    apply G. lra.
  - exact F.
  - apply Qgt_alt in C. apply G. lra.
Qed.

(** The exponent [ilog2] finds is not above the one of a power of two
    that bounds the number. *)
Lemma ilog2_lt (q : Q) (j : Z) :
  (0 <= j)%Z -> Qabs q < pow2 j -> ~ q == 0 -> (ilog2 q < j)%Z.
Proof.
  intros Hj Hq Hne. destruct q as [n d].
  rewrite <- Zabs_Qabs, (pow2_nonneg j Hj) in Hq.
  unfold Qlt in Hq. cbn in Hq.
  assert (Hn : (0 < Z.abs n)%Z).
  { destruct n; cbn; try lia. exfalso. apply Hne. reflexivity. }
  rewrite Z.mul_1_r in Hq.
  assert (L : (Z.log2 (Z.abs n) < Z.log2 (Z.pos d) + 1 + j)%Z).
  { apply Z.log2_lt_pow2; [exact Hn|].
    eapply Z.lt_le_trans; [exact Hq|].
    rewrite Z.pow_add_r by (pose proof (Z.log2_nonneg (Z.pos d)); lia).
    rewrite Z.mul_comm. apply Z.mul_le_mono_nonneg_r; [lia|].
    pose proof (Z.log2_spec (Z.pos d) ltac:(lia)) as S.
    replace (Z.log2 (Z.pos d) + 1)%Z with (Z.succ (Z.log2 (Z.pos d))) by lia.
    lia. }
  unfold ilog2. cbn [Qnum Qden].
  set (e := (Z.log2 (Z.abs n) - Z.log2 (Z.pos d))%Z) in *.
  destruct (Z.ltb_spec (Z.shiftl (Z.abs n) (Z.max 0 (- e)))
                       (Z.shiftl (Z.pos d) (Z.max 0 e))) as [C|C]; [lia|].
  assert (e < j \/ e = j)%Z as [?|E] by lia; [lia|].
  exfalso. rewrite E in C.
  rewrite (Z.max_r 0 j), (Z.max_l 0 (- j)), Z.shiftl_0_r, Z.shiftl_mul_pow2
    in C by lia.
  lia.
Qed.

Lemma Qdiv_pow2_le (q x : Q) (e : Z) : x * pow2 e <= q -> x <= q / pow2 e.
Proof.
  intros H. pose proof (pow2_pos e) as P.
  apply Qle_shift_div_l; assumption.
Qed.

Lemma Qdiv_pow2_ge (q x : Q) (e : Z) : q <= x * pow2 e -> q / pow2 e <= x.
Proof.
  intros H. pose proof (pow2_pos e) as P.
  apply Qle_shift_div_r; assumption.
Qed.

Lemma grid (a k e : Z) :
  (e <= k)%Z -> inject_Z a * pow2 k == inject_Z (a * 2 ^ (k - e)) * pow2 e.
Proof.
  intros H. rewrite inject_Z_mult, <- (pow2_nonneg (k - e)) by lia.
  rewrite <- Qmult_assoc, <- pow2_add. now replace (k - e + e)%Z with k by lia.
Qed.

(** A number between two doubles of exponent [k] rounds to a finite
    double between them. *)
Lemma round_between (q : Q) (a b k : Z) :
  (-53 <= k <= 970)%Z -> (Z.abs a < 2 ^ 53)%Z -> (Z.abs b < 2 ^ 53)%Z ->
  inject_Z a * pow2 k <= q -> q <= inject_Z b * pow2 k ->
  exists r, round q = FFin r /\ Qred r = r /\
            inject_Z a * pow2 k <= r /\ r <= inject_Z b * pow2 k.
Proof.
  intros Hk Ha Hb Hlo Hhi. unfold round.
  destruct (Qeq_bool (Qred q) 0) eqn:Z0.
  - apply Qeq_bool_iff in Z0. rewrite Qred_correct in Z0.
    exists 0. rewrite Z0 in Hlo, Hhi. auto.
  - apply Qeq_bool_neq in Z0.
    set (q' := Qred q) in *.
    assert (Eq : q' == q) by apply Qred_correct.
    set (e := Z.max (ilog2 q' - 52) (-1074)).
    assert (B53 : Qabs q' < pow2 (53 + k)).
    { rewrite Eq. apply Qabs_Qlt_condition.
      assert (P : pow2 (53 + k) == inject_Z (2 ^ 53) * pow2 k).
      { rewrite pow2_add. now rewrite (pow2_nonneg 53) by lia. }
      pose proof (pow2_pos k) as Pk.
      assert (A1 : - inject_Z (2 ^ 53) < inject_Z a).
      { rewrite <- inject_Z_opp, <- Zlt_Qlt. lia. }
      assert (B1 : inject_Z b < inject_Z (2 ^ 53)).
      { rewrite <- Zlt_Qlt. lia. }
      rewrite P. split.
      - eapply Qlt_le_trans; [|exact Hlo].
        assert (X : - (inject_Z (2 ^ 53) * pow2 k) ==
                    (- inject_Z (2 ^ 53)) * pow2 k) by ring.
        rewrite X. now apply Qmult_lt_compat_r.
      - eapply Qle_lt_trans; [exact Hhi|]. now apply Qmult_lt_compat_r. }
    assert (He : (e <= k)%Z).
    { pose proof (ilog2_lt q' (53 + k) ltac:(lia) B53 Z0). unfold e. lia. }
    set (n := round_half_even (q' / pow2 e)).
    assert (Ln : (a * 2 ^ (k - e) <= n)%Z).
    { apply round_half_even_ge, Qdiv_pow2_le.
      rewrite <- (grid a k e He), Eq. exact Hlo. }
    assert (Un : (n <= b * 2 ^ (k - e))%Z).
    { apply round_half_even_le, Qdiv_pow2_ge.
      rewrite <- (grid b k e He), Eq. exact Hhi. }
    set (r := Qred (inject_Z n * pow2 e)).
    assert (Er : r == inject_Z n * pow2 e) by apply Qred_correct.
    pose proof (pow2_pos e) as Pe.
    assert (Lr : inject_Z a * pow2 k <= r).
    { rewrite Er, (grid a k e He). apply Qmult_le_compat_r; [|lra].
      now rewrite <- Zle_Qle. }
    assert (Ur : r <= inject_Z b * pow2 k).
    { rewrite Er, (grid b k e He). apply Qmult_le_compat_r; [|lra].
      now rewrite <- Zle_Qle. }
    assert (F : Qle_bool (pow2 1024) (Qabs r) = false).
    { destruct (Qle_bool (pow2 1024) (Qabs r)) eqn:O; [|reflexivity].
      exfalso. apply Qle_bool_iff in O.
      assert (S : Qabs r < pow2 1024); [|lra].
      apply Qabs_Qlt_condition.
      pose proof (pow2_pos k) as Pk.
      assert (M : inject_Z (2 ^ 53) * pow2 k <= pow2 1024).
      { rewrite <- (pow2_nonneg 53) by lia. rewrite <- pow2_add.
        apply pow2_le. lia. }
      assert (A1 : - inject_Z (2 ^ 53) < inject_Z a).
      { rewrite <- inject_Z_opp, <- Zlt_Qlt. lia. }
      assert (B1 : inject_Z b < inject_Z (2 ^ 53)).
      { rewrite <- Zlt_Qlt. lia. }
      split.
      - eapply Qlt_le_trans; [|exact Lr].
        eapply Qle_lt_trans with ((- inject_Z (2 ^ 53)) * pow2 k); [lra|].
        now apply Qmult_lt_compat_r.
      - eapply Qle_lt_trans; [exact Ur|].
        eapply Qlt_le_trans; [|exact M]. now apply Qmult_lt_compat_r. }
    rewrite F. exists r. split; [reflexivity|]. split; [|auto].
    unfold r. apply Qred_complete, Qred_correct.
Qed.

Lemma round_zero (q : Q) : q == 0 -> round q = FFin 0.
Proof.
  intros H. unfold round.
  rewrite (Qred_complete q 0 H). reflexivity.
Qed.

Lemma Qred_idem (q : Q) : Qred (Qred q) = Qred q.
Proof. apply Qred_complete, Qred_correct. Qed.

Lemma Qred_inject_Z (z : Z) : Qred (inject_Z z) = inject_Z z.
Proof.
  unfold Qred, inject_Z. cbn [Qnum Qden].
  pose proof (Z.ggcd_gcd z 1) as G.
  pose proof (Z.ggcd_correct_divisors z 1) as D.
  destruct (Z.ggcd z 1) as [g [n m]]. cbn [fst snd] in *.
  rewrite Z.gcd_1_r in G. subst g. destruct D as [-> Hm].
  assert (m = 1%Z) by lia. subst m.
  f_equal. lia.
Qed.

(** An integer below [2^53] is a double. *)
Lemma round_int (z : Z) :
  (Z.abs z < 2 ^ 53)%Z -> round (inject_Z z) = FFin (inject_Z z).
Proof.
  intros H.
  assert (E : inject_Z z * pow2 0 == inject_Z z).
  { change (inject_Z z * 1 == inject_Z z). ring. }
  destruct (round_between (inject_Z z) z z 0 ltac:(lia) H H) as (r & -> & C & L & U).
  - rewrite E. lra.
  - rewrite E. lra.
  - f_equal. rewrite <- C, <- (Qred_inject_Z z).
    apply Qred_complete. rewrite E in L, U. lra.
Qed.


Lemma fmul_0_r (c : Q) : fmul (FFin c) (FFin 0) = FFin 0.
Proof. cbn. apply round_zero. ring. Qed.

(** A product with the factor [0.0] is [0.0] or NaN. *)
Lemma fmul_zero (c : float) :
  fmul c (FFin 0) = if is_nan c then FNan else
                    match c with FInf _ => FNan | _ => FFin 0 end.
Proof. destruct c as [x|s|]; [apply fmul_0_r | reflexivity | reflexivity]. Qed.

Lemma fmul_zero_not_positive (c : float) :
  flt (FFin 0) (fmul c (FFin 0)) = false.
Proof. rewrite fmul_zero. destruct c as [x|s|]; reflexivity. Qed.

End PyFacts.

(** ** The stable descending sort *)

Module SortFacts.
Import Py Engine PyFacts.
Local Open Scope Q_scope.

Section Sorted.
Context {A : Type} (key : A -> float).

Lemma insert_desc_perm (x : A) (l : list A) :
  Permutation (x :: l) (insert_desc key x l).
Proof.
  induction l as [|y l IH]; simpl; [reflexivity|].
  destruct (fle (key y) (key x)); [reflexivity|].
  rewrite perm_swap. now apply perm_skip.
Qed.

Lemma sorted_desc_perm (l : list A) : Permutation l (sorted_desc key l).
Proof.
  induction l as [|x l IH]; simpl; [reflexivity|].
  rewrite <- insert_desc_perm. now apply perm_skip.
Qed.

Lemma insert_desc_sorted (x : A) (l : list A) :
  is_nan (key x) = false ->
  List.Forall (fun a => is_nan (key a) = false) l ->
  StronglySorted (fun a b => fle (key b) (key a) = true) l ->
  StronglySorted (fun a b => fle (key b) (key a) = true) (insert_desc key x l).
Proof.
  intros Hx Hl. induction 1 as [|y l Hs IH Hy]; simpl.
  - repeat constructor.
  - apply List.Forall_cons_iff in Hl as [Ny Nl].
    destruct (fle (key y) (key x)) eqn:E.
    + constructor; [now constructor|].
      constructor; [exact E|].
      eapply List.Forall_impl; [|exact Hy].
      intros b Hb. simpl in Hb. now apply fle_trans with (key y).
    + apply (fle_total _ _ Ny Hx) in E.
      constructor; [now apply IH|].
      eapply Permutation_Forall; [apply insert_desc_perm|].
      constructor; [exact E | exact Hy].
Qed.

Lemma sorted_desc_sorted (l : list A) :
  List.Forall (fun a => is_nan (key a) = false) l ->
  StronglySorted (fun a b => fle (key b) (key a) = true) (sorted_desc key l).
Proof.
  induction 1 as [|x l Hx Hl IH]; simpl; [constructor|].
  apply insert_desc_sorted; [exact Hx| |exact IH].
  eapply Permutation_Forall; [apply sorted_desc_perm | exact Hl].
Qed.

Lemma insert_desc_filter (s : float) (x : A) (l : list A) :
  List.filter (fun a => feq (key a) s) (insert_desc key x l) =
  List.filter (fun a => feq (key a) s) (x :: l).
Proof.
  induction l as [|y l IH]; [reflexivity|].
  cbn [insert_desc]. destruct (fle (key y) (key x)) eqn:E; [reflexivity|].
  cbn [List.filter] in *. rewrite IH.
  destruct (feq (key x) s) eqn:Ex; [|reflexivity].
  destruct (feq (key y) s) eqn:Ey; [|reflexivity].
  apply feq_fle in Ex as [_ Ex], Ey as [Ey _].
  rewrite (fle_trans _ _ _ Ey Ex) in E. discriminate E.
Qed.

Lemma sorted_desc_stable (s : float) (l : list A) :
  List.filter (fun a => feq (key a) s) (sorted_desc key l) =
  List.filter (fun a => feq (key a) s) l.
Proof.
  induction l as [|x l IH]; [reflexivity|].
  cbn [sorted_desc fold_right]. rewrite insert_desc_filter.
  cbn [List.filter]. fold (sorted_desc key l). now rewrite IH.
Qed.

Lemma sorted_desc_nonempty (x : A) (l : list A) : sorted_desc key (x :: l) <> [].
Proof.
  intros H. pose proof (sorted_desc_perm (x :: l)) as P.
  rewrite H in P. now apply Permutation_sym, Permutation_nil in P.
Qed.
End Sorted.

End SortFacts.

(** ** The condition evaluator and the rule scorer *)

Module EngineFacts.
Import Py Engine EngineSpec PyFacts SortFacts.
Local Open Scope Q_scope.


(** What [_check_condition] computes on a mapping, read off its fields. *)
Lemma check_condition_fields (facts : gmap string pyval) (cond : dict) :
  keyable cond "type" = true -> keyable cond "op" = true ->
  _check_condition facts (VDict cond) =
  Ok match fact_of facts cond, operator_of cond with
     | Some fact_val, Some f =>
         try_except (f (coerce_fact fact_val (comparand_of cond)) (comparand_of cond))
                    false
     | _, _ => false
     end.
Proof.
  unfold keyable, _check_condition, fact_of, operator_of, comparand_of, py_get.
  intros Ht Hop. cbn [bind].
  destruct (assoc "type" cond) as [[[]| |]|]; try discriminate Ht;
    cbn [facts_lookup vnone bind];
    try (destruct (assoc "op" cond) as [[[]| |]|]; reflexivity).
  destruct (facts !! s) as [fv|]; cbn [bind].
  - destruct (assoc "op" cond) as [[[]| |]|]; try discriminate Hop;
      cbn [ops_lookup vstr bind]; try reflexivity.
    destruct (assoc s0 _OPS); reflexivity.
  - destruct (assoc "op" cond) as [[[]| |]|]; reflexivity.
Qed.



Lemma check_condition_wf (facts : gmap string pyval) (c : pyval) :
  wf_condition c = true -> _check_condition facts c = Ok (holds facts c).
Proof.
  destruct c as [a|l|d]; simpl; try discriminate.
  intros H. apply andb_prop in H as [Ht Hop].
  unfold holds. now rewrite (check_condition_fields facts d Ht Hop).
Qed.

Lemma any_condition_wf (facts : gmap string pyval) (ns : list pyval) :
  forallb wf_condition ns = true ->
  any_condition facts ns = Ok (existsb (holds facts) ns).
Proof.
  induction ns as [|c ns IH]; simpl; [reflexivity|].
  intros H. apply andb_prop in H as [Hc Hns].
  rewrite (check_condition_wf facts c Hc). cbn [bind].
  destruct (holds facts c); [reflexivity | now apply IH].
Qed.


Lemma weighted_condition_weight (c : pyval) :
  weighted_condition c = true ->
  exists wv, py_get c "weight" (vfloat 1) = Ok wv /\
             py_float wv = Ok (weight_or_zero c) /\ wf_condition c = true.
Proof.
  unfold weighted_condition, weight_or_zero, weight_of. intros H.
  apply andb_prop in H as [Hwf Hw].
  destruct (py_get c "weight" (vfloat 1)) as [wv|]; [|discriminate].
  exists wv. destruct (py_float wv); [auto | discriminate].
Qed.

Lemma tally_conditions_wf (facts : gmap string pyval) (cs : list pyval) (t : Tally) :
  forallb weighted_condition cs = true ->
  tally_conditions facts cs t =
  Ok {| t_total := fold_left fadd (map weight_or_zero cs) (t_total t);
        t_matched_w :=
          fold_left fadd (map weight_or_zero (List.filter (holds facts) cs))
                    (t_matched_w t);
        t_matched := t_matched t ++ List.filter (holds facts) cs;
        t_unmatched :=
          t_unmatched t ++ List.filter (fun c => negb (holds facts c)) cs |}.
Proof.
  revert t. induction cs as [|c cs IH]; intros t H.
  - simpl. rewrite !app_nil_r. now destruct t.
  - cbn [forallb] in H. apply andb_prop in H as [Hc Hcs].
    destruct (weighted_condition_weight c Hc) as (wv & Hg & Hf & Hwf).
    cbn [tally_conditions]. rewrite Hg. cbn [bind]. rewrite Hf. cbn [bind].
    rewrite (check_condition_wf facts c Hwf). cbn [bind].
    rewrite (IH _ Hcs). cbn [List.filter map fold_left].
    destruct (holds facts c); cbn [negb map fold_left t_total t_matched_w
      t_matched t_unmatched]; now rewrite <- ?app_assoc.
Qed.

Lemma evaluate_rule_wf (rule : pyval) (facts : gmap string pyval)
  (cs ns : list pyval) :
  conditions_at rule "conditions" = Some cs ->
  conditions_at rule "not_conditions" = Some ns ->
  forallb weighted_condition cs = true ->
  forallb wf_condition ns = true ->
  exists c,
    py_get rule "confidence" (vfloat (1 # 2)) = Ok c /\
    evaluate_rule rule facts =
    let total := fsum (map weight_or_zero cs) in
    let matched := fsum (map weight_or_zero (List.filter (holds facts) cs)) in
    let neg := existsb (holds facts) ns in
    Ok {| matched_conditions := List.filter (holds facts) cs;
          unmatched_conditions := List.filter (fun c => negb (holds facts c)) cs;
          total_weight := total;
          matched_weight := matched;
          match_ratio := ratio_of total matched neg;
          confidence := _normalize_confidence c;
          score := fmul (_normalize_confidence c) (ratio_of total matched neg);
          negation_triggered := neg |}.
Proof.
  unfold conditions_at. intros Hcs Hns Hw Hn.
  destruct rule as [a|l|d]; try discriminate Hcs.
  exists (match assoc "confidence" d with Some x => x | None => vfloat (1 # 2) end).
  split; [reflexivity|].
  unfold evaluate_rule.
  destruct (py_get (VDict d) "conditions" (VList [])) as [[| cs' |]|];
    try discriminate Hcs.
  injection Hcs as ->.
  destruct (py_get (VDict d) "not_conditions" (VList [])) as [[| ns' |]|];
    try discriminate Hns.
  injection Hns as ->.
  cbn [bind py_iter]. rewrite (tally_conditions_wf facts cs tally0 Hw).
  cbn [bind]. rewrite (any_condition_wf facts ns Hn). cbn [bind py_get].
  unfold ratio_of, fsum. cbn [tally0 t_total t_matched_w t_matched t_unmatched app].
  destruct (existsb (holds facts) ns); reflexivity.
Qed.




End EngineFacts.

(** ** The claims about the condition evaluator and the rule scorer *)

Module EngineClaims.
Import Py Engine EngineSpec PyFacts SortFacts EngineFacts.
Local Open Scope Q_scope.




(** The truth operators read off the fields: the result is the truth
    value of the fact after the numeric coercion. *)
Lemma truth_operator_fields (facts : gmap string pyval) (cond : dict)
  (s name : string) (f : op_fn) :
  assoc "type" cond = Some (vstr s) ->
  assoc "op" cond = Some (vstr name) ->
  assoc name _OPS = Some f ->
  _check_condition facts (VDict cond) =
  Ok match facts !! s with
     | Some v => try_except (f (coerce_fact v (comparand_of cond)) (comparand_of cond)) false
     | None => false
     end.
Proof.
  intros Ht Hop Hf.
  rewrite check_condition_fields; unfold keyable, fact_of, operator_of;
    rewrite ?Ht, ?Hop; try reflexivity.
  unfold vstr. rewrite Hf. reflexivity.
Qed.

(** C6, as the code has it: [is_true] holds exactly when the fact is
    present and its value, after the numeric coercion of string facts, is
    truthy ([bool(value)] is [True]); [is_false] exactly when the fact is
    present and that value is falsy.  On a fact whose value is a boolean
    this is the value itself, respectively its negation. *)
Theorem truth_operators (facts : gmap string pyval) (cond : dict) (s : string) :
  assoc "type" cond = Some (vstr s) ->
  (assoc "op" cond = Some (vstr "is_true") ->
     _check_condition facts (VDict cond) =
     Ok match facts !! s with
        | Some v => py_bool (coerce_fact v (comparand_of cond))
        | None => false
        end) /\
  (assoc "op" cond = Some (vstr "is_false") ->
     _check_condition facts (VDict cond) =
     Ok match facts !! s with
        | Some v => negb (py_bool (coerce_fact v (comparand_of cond)))
        | None => false
        end) /\
  (forall b, facts !! s = Some (vbool b) ->
     (assoc "op" cond = Some (vstr "is_true") ->
        _check_condition facts (VDict cond) = Ok b) /\
     (assoc "op" cond = Some (vstr "is_false") ->
        _check_condition facts (VDict cond) = Ok (negb b))).
Proof.
  intros Ht.
  assert (T : assoc "op" cond = Some (vstr "is_true") ->
     _check_condition facts (VDict cond) =
     Ok match facts !! s with
        | Some v => py_bool (coerce_fact v (comparand_of cond))
        | None => false
        end).
  { intros Hop.
    rewrite (truth_operator_fields facts cond s "is_true" _ Ht Hop eq_refl).
    now destruct (facts !! s). }
  assert (F : assoc "op" cond = Some (vstr "is_false") ->
     _check_condition facts (VDict cond) =
     Ok match facts !! s with
        | Some v => negb (py_bool (coerce_fact v (comparand_of cond)))
        | None => false
        end).
  { intros Hop.
    rewrite (truth_operator_fields facts cond s "is_false" _ Ht Hop eq_refl).
    now destruct (facts !! s). }
  split; [exact T|]. split; [exact F|].
  intros b Hb. split; intros Hop.
  - rewrite (T Hop), Hb. reflexivity.
  - rewrite (F Hop), Hb. reflexivity.
Qed.

Lemma truth_operators_witness :
  _check_condition one_fact (VDict truthy_condition) = Ok true.
Proof.
  destruct (truth_operators one_fact truthy_condition "wifi_connected" eq_refl)
    as (T & _ & _).
  rewrite (T eq_refl). vm_compute. reflexivity.
Defined.

(** C6, as it is written, fails: the number 1 and a non-empty string both
    satisfy [is_true] although neither is the boolean true. *)
Lemma is_true_accepts_non_booleans :
  fact_of one_fact truthy_condition = Some (vint 1) /\
  fact_of text_fact truthy_condition = Some (vstr "yes") /\
  _check_condition text_fact (VDict truthy_condition) = Ok true /\
  ~ (_check_condition one_fact (VDict truthy_condition) = Ok true <->
     fact_of one_fact truthy_condition = Some (vbool true)).
Proof.
  split; [vm_compute; reflexivity|].
  split; [vm_compute; reflexivity|].
  split; [vm_compute; reflexivity|].
  intros [H _].
  assert (E : _check_condition one_fact (VDict truthy_condition) = Ok true)
    by (vm_compute; reflexivity).
  specialize (H E). vm_compute in H. discriminate H.
Qed.




Lemma weight_default (d : dict) :
  assoc "weight" d = None -> weight_of (VDict d) = Some (FFin 1).
Proof. unfold weight_of, py_get. intros ->. reflexivity. Qed.

(** C4, as the code has it: for a rule with well-formed conditions,
    [evaluate_rule] returns a result whose [total_weight] is the sum of
    the weights of the conditions (1.0 for a condition without one) and
    whose [matched_weight] is the sum of the weights of the conditions
    that hold.  When none of the [not_conditions] holds, [match_ratio] is
    their quotient, and 0.0 when the total is 0; when one of them holds
    it is 0.0.  So a rule without conditions has match ratio 0.0 and no
    positive score. *)
Theorem weighted_match_ratio (rule : pyval) (facts : gmap string pyval)
  (cs ns : list pyval) :
  conditions_at rule "conditions" = Some cs ->
  conditions_at rule "not_conditions" = Some ns ->
  forallb weighted_condition cs = true ->
  forallb wf_condition ns = true ->
  exists e,
    evaluate_rule rule facts = Ok e /\
    total_weight e = fsum (map weight_or_zero cs) /\
    matched_weight e = fsum (map weight_or_zero (List.filter (holds facts) cs)) /\
    (forall d, In (VDict d) cs -> assoc "weight" d = None ->
       weight_or_zero (VDict d) = FFin 1) /\
    negation_triggered e = existsb (holds facts) ns /\
    (existsb (holds facts) ns = false ->
       match_ratio e =
       if feq (total_weight e) (FFin 0) then FFin 0
       else fdiv (matched_weight e) (total_weight e)) /\
    (existsb (holds facts) ns = true -> match_ratio e = FFin 0) /\
    score e = fmul (confidence e) (match_ratio e) /\
    (feq (total_weight e) (FFin 0) = true ->
       match_ratio e = FFin 0 /\ flt (FFin 0) (score e) = false) /\
    (cs = [] ->
       total_weight e = FFin 0 /\ match_ratio e = FFin 0 /\
       flt (FFin 0) (score e) = false).
Proof.
  intros Hcs Hns Hw Hn.
  destruct (evaluate_rule_wf rule facts cs ns Hcs Hns Hw Hn) as (c & _ & He).
  cbn zeta in He. eexists. split; [exact He|].
  cbn [total_weight matched_weight match_ratio score confidence negation_triggered].
  split; [reflexivity|]. split; [reflexivity|].
  assert (Z : forall total matched neg,
             feq total (FFin 0) = true -> ratio_of total matched neg = FFin 0).
  { intros total matched neg H. unfold ratio_of. rewrite H. now destruct neg. }
  split; [|split; [|split; [|split; [|split; [|split]]]]].
  - intros d _ Hd. unfold weight_or_zero. now rewrite (weight_default d Hd).
  - reflexivity.
  - intros ->. reflexivity.
  - intros ->. reflexivity.
  - reflexivity.
  - intros H. rewrite (Z _ _ _ H). split; [reflexivity | apply fmul_zero_not_positive].
  - intros ->. cbn [map List.filter]. unfold fsum. cbn [fold_left].
    rewrite Z by reflexivity. split; [reflexivity|].
    split; [reflexivity | apply fmul_zero_not_positive].
Qed.

Lemma weighted_match_ratio_witness :
  exists e, evaluate_rule weighted_rule latency_facts = Ok e /\
            total_weight e = FFin 4 /\ matched_weight e = FFin 3 /\
            match_ratio e = FFin (3 # 4).
Proof.
  destruct (weighted_match_ratio weighted_rule latency_facts
              [ VDict [("type", vstr "ping_latency"); ("op", vstr ">=");
                       ("value", vint 200); ("weight", vint 3)];
                VDict [("type", vstr "packet_loss"); ("op", vstr ">");
                       ("value", vint 5)] ] []
              eq_refl eq_refl eq_refl eq_refl)
    as (e & He & Ht & Hm & _ & _ & Hr & _).
  exists e. split; [exact He|].
  assert (T : total_weight e = FFin 4) by (rewrite Ht; vm_compute; reflexivity).
  assert (M : matched_weight e = FFin 3) by (rewrite Hm; vm_compute; reflexivity).
  split; [exact T|]. split; [exact M|].
  rewrite (Hr eq_refl), T, M. vm_compute. reflexivity.
Defined.

(** C4, as it is written, fails: a rule with every condition met and a
    negation met has a total weight of 2.0, a matched weight of 2.0, and
    the match ratio 0.0, not their quotient 1.0. *)
Lemma vetoed_ratio_is_not_the_quotient :
  exists e, evaluate_rule vetoed_rule dns_facts = Ok e /\
            total_weight e = FFin 2 /\ matched_weight e = FFin 2 /\
            fdiv (matched_weight e) (total_weight e) = FFin 1 /\
            match_ratio e = FFin 0 /\
            feq (match_ratio e) (fdiv (matched_weight e) (total_weight e)) = false.
Proof. eexists. split; [vm_compute; reflexivity|]. repeat split. Qed.

End EngineClaims.

(** ** The diagnosis ranker *)

Module RankerFacts.
Import Py Engine EngineSpec PyFacts SortFacts EngineFacts.
Local Open Scope Q_scope.

Lemma candidate_sound (facts : gmap string pyval) (r : pyval) (d : Diagnosis) :
  candidate facts r = Some d ->
  is_sentinel r = false /\
  exists e, evaluate_rule r facts = Ok e /\ flt (FFin 0) (score e) = true /\
            py_getitem r "id" = Ok (d_id d) /\
            py_getitem r "name" = Ok (d_name d) /\
            d_score d = score e /\ d_match_ratio d = match_ratio e /\
            d_confidence d = confidence e /\
            d_matched_conditions d = matched_conditions e /\
            d_unmatched_conditions d = unmatched_conditions e.
Proof.
  unfold candidate. destruct (is_sentinel r); [discriminate|].
  destruct (try_rule r facts) as [[d'|]|] eqn:T; try discriminate.
  intros [= ->]. split; [reflexivity|].
  unfold try_rule in T. apply bind_Ok in T as (e & He & T).
  exists e. split; [exact He|].
  destruct (flt (FFin 0) (score e)) eqn:S; [|discriminate].
  apply bind_Ok in T as (id & Hid & T). apply bind_Ok in T as (name & Hname & T).
  apply bind_Ok in T as (ev & _ & T). apply bind_Ok in T as (rem & _ & T).
  injection T as <-. cbn. auto 10.
Qed.

Lemma candidate_complete (facts : gmap string pyval) (r id name : pyval)
  (e : EvalResult) :
  is_sentinel r = false -> evaluate_rule r facts = Ok e ->
  flt (FFin 0) (score e) = true ->
  py_getitem r "id" = Ok id -> py_getitem r "name" = Ok name ->
  exists d, candidate facts r = Some d /\ d_id d = id /\ d_name d = name /\
            d_score d = score e.
Proof.
  intros Hs He Hpos Hid Hname. unfold candidate, try_rule.
  rewrite Hs, He. cbn [bind]. rewrite Hpos, Hid, Hname. cbn [bind].
  destruct r as [a|l|d0]; try discriminate Hid. cbn. eauto.
Qed.

Lemma candidate_raise (facts : gmap string pyval) (r : pyval) (e : exn) :
  evaluate_rule r facts = Raise e -> candidate facts r = None.
Proof.
  intros H. unfold candidate, try_rule. rewrite H.
  now destruct (is_sentinel r).
Qed.

Lemma candidates_positive (facts : gmap string pyval) (rules : list pyval) :
  List.Forall (fun d => flt (FFin 0) (d_score d) = true) (candidates facts rules).
Proof.
  unfold candidates. induction rules as [|r rules IH]; cbn; [constructor|].
  destruct (candidate facts r) as [d|] eqn:C; [|exact IH].
  constructor; [|exact IH].
  destruct (candidate_sound facts r d C) as (_ & e & _ & Hpos & _ & _ & -> & _).
  exact Hpos.
Qed.

Lemma candidates_not_nan (facts : gmap string pyval) (rules : list pyval) :
  List.Forall (fun d => is_nan (d_score d) = false) (candidates facts rules).
Proof.
  eapply List.Forall_impl; [|apply candidates_positive].
  intros d H. now apply flt_not_nan in H.
Qed.

Lemma candidates_app (facts : gmap string pyval) (l1 l2 : list pyval) :
  candidates facts (l1 ++ l2) = candidates facts l1 ++ candidates facts l2.
Proof. apply omap_app. Qed.

(** The loop builds the candidate set, rule by rule in catalog order. *)
Lemma collect_matches_candidates (facts : gmap string pyval)
  (rules : list pyval) (acc : list Diagnosis) :
  forallb is_dict rules = true ->
  collect_matches rules facts acc = Ok (acc ++ candidates facts rules).
Proof.
  revert acc. induction rules as [|r rules IH]; intros acc H.
  - cbn. now rewrite app_nil_r.
  - cbn [forallb] in H. apply andb_prop in H as [Hr Hrs].
    destruct r as [a|l|d]; try discriminate Hr.
    unfold candidates. cbn [collect_matches omap list_omap].
    unfold candidate at 1, is_sentinel.
    cbn [py_get bind].
    destruct (py_eq _ (vint 100)); [now apply IH|].
    destruct (try_rule (VDict d) facts) as [[m|]|]; rewrite IH by assumption;
      [now rewrite <- app_assoc | reflexivity | reflexivity].
Qed.

(** The policy of [run_diagnosis], stated on the candidate set. *)
Lemma run_diagnosis_on_policy (rules : list pyval) (facts : gmap string pyval) :
  forallb is_dict rules = true ->
  run_diagnosis_on rules facts =
  let cands := candidates facts rules in
  match List.filter above_threshold cands with
  | _ :: _ => Ok (sorted_desc d_score (List.filter above_threshold cands))
  | [] =>
      match cands with
      | _ :: _ => Ok (firstn 3 (sorted_desc d_score cands))
      | [] =>
          do fallback <- find_fallback rules;
          match fallback with
          | Some fb =>
              if py_bool fb then (do d <- fallback_diagnosis fb; Ok [d]) else Ok []
          | None => Ok []
          end
      end
  end.
Proof.
  intros H. unfold run_diagnosis_on.
  rewrite (collect_matches_candidates facts rules [] H). reflexivity.
Qed.

Lemma sorted_desc_by_score (l : list Diagnosis) :
  List.Forall (fun d => is_nan (d_score d) = false) l ->
  sorted_by_score l (sorted_desc d_score l).
Proof.
  intros N. split; [apply sorted_desc_perm|].
  split; [now apply sorted_desc_sorted|].
  intros s. apply (sorted_desc_stable d_score).
Qed.

Lemma filter_not_nan (f : Diagnosis -> bool) (l : list Diagnosis) :
  List.Forall (fun d => is_nan (d_score d) = false) l ->
  List.Forall (fun d => is_nan (d_score d) = false) (List.filter f l).
Proof.
  intros H. apply List.Forall_forall. intros d Hd.
  apply filter_In in Hd as [Hd _].
  revert d Hd. now apply List.Forall_forall.
Qed.

(** What the ranker returns when there are candidates. *)
Lemma run_diagnosis_on_reported (rules : list pyval) (facts : gmap string pyval) :
  forallb is_dict rules = true -> candidates facts rules <> [] ->
  exists out, run_diagnosis_on rules facts = Ok out /\
              reported (candidates facts rules) out.
Proof.
  intros H Hne. rewrite (run_diagnosis_on_policy rules facts H). cbn zeta.
  pose proof (candidates_not_nan facts rules) as N.
  unfold reported.
  destruct (List.filter above_threshold (candidates facts rules)) as [|a l] eqn:A.
  - destruct (candidates facts rules) as [|c cs] eqn:C; [congruence|].
    eexists. split; [reflexivity|]. split; [congruence|].
    intros _ _. eexists. split; [|reflexivity].
    now apply sorted_desc_by_score.
  - eexists. split; [reflexivity|]. split; [|discriminate].
    intros _. apply sorted_desc_by_score. rewrite <- A. now apply filter_not_nan.
Qed.

Lemma catalog_dicts : forallb is_dict RULES = true.
Proof. vm_compute. reflexivity. Qed.

Lemma catalog_fallback :
  (do fallback <- find_fallback RULES;
   match fallback with
   | Some fb =>
       if py_bool fb then (do d <- fallback_diagnosis fb; Ok [d]) else Ok []
   | None => Ok []
   end) = Ok [insufficient_data].
Proof. vm_compute. reflexivity. Qed.

Lemma named_rule_fields (r : pyval) :
  named_rule r = true ->
  exists d id name, r = VDict d /\ assoc "id" d = Some id /\
                    assoc "name" d = Some name.
Proof.
  destruct r as [a|l|d]; cbn; try discriminate.
  unfold has_key. intros H. apply andb_prop in H as [Hi Hn].
  destruct (assoc "id" d) as [id|] eqn:Ei; [|discriminate].
  destruct (assoc "name" d) as [name|] eqn:En; [|discriminate].
  exists d, id, name. auto.
Qed.

Lemma named_rules_dicts (rules : list pyval) :
  forallb named_rule rules = true -> forallb is_dict rules = true.
Proof.
  rewrite !forallb_forall. intros H r Hr.
  destruct (named_rule_fields r (H r Hr)) as (d & _ & _ & -> & _). reflexivity.
Qed.

(** With named rules the search for the sentinel and the diagnosis built
    from it raise nothing. *)
Lemma fallback_named (rules : list pyval) :
  forallb named_rule rules = true ->
  exists out,
    (do fallback <- find_fallback rules;
     match fallback with
     | Some fb =>
         if py_bool fb then (do d <- fallback_diagnosis fb; Ok [d]) else Ok []
     | None => Ok []
     end) = Ok out.
Proof.
  induction rules as [|r rules IH]; cbn [forallb find_fallback]; intros H.
  - cbn. eauto.
  - apply andb_prop in H as [Hr Hrs].
    destruct (named_rule_fields r Hr) as (d & id & name & -> & Hid & Hname).
    cbn [py_getitem]. rewrite Hid. cbn [bind].
    destruct (py_eq id (vint 100)); [|now apply IH].
    cbn [bind]. unfold fallback_diagnosis. cbn [py_getitem py_get].
    rewrite Hid, Hname. cbn [bind py_bool].
    destruct d; [discriminate Hid|]. eauto.
Qed.

Lemma is_sentinel_id (r : pyval) :
  named_rule r = true -> is_sentinel r = false ->
  exists v, py_getitem r "id" = Ok v /\ py_eq v (vint 100) = false.
Proof.
  intros Hr Hs.
  destruct (named_rule_fields r Hr) as (d & id & name & -> & Hid & _).
  unfold is_sentinel in Hs. cbn in Hs. rewrite Hid in Hs.
  exists id. cbn. rewrite Hid. auto.
Qed.

Lemma find_fallback_skip (pre post : list pyval) (r v : pyval) :
  py_getitem r "id" = Ok v -> py_eq v (vint 100) = false ->
  find_fallback (pre ++ r :: post) = find_fallback (pre ++ post).
Proof.
  intros Hid Hv. induction pre as [|p pre IH]; cbn [app find_fallback].
  - rewrite Hid. cbn [bind]. now rewrite Hv.
  - destruct (py_getitem p "id") as [pid|]; [|reflexivity]. cbn [bind].
    now destruct (py_eq pid (vint 100)).
Qed.

End RankerFacts.

(** ** The claims about the ranker *)

Module RankerClaims.
Import Py Engine EngineSpec PyFacts SortFacts EngineFacts RankerFacts.
Local Open Scope Q_scope.

(** C1: [run_diagnosis] returns a non-empty list of diagnoses for every
    fact mapping.  When no rule other than the sentinel scores above
    zero, as for the empty mapping, the list is the single "insufficient
    data" diagnosis: rule id 100, score 0.0, match ratio 0.0, no matched
    and no unmatched conditions. *)
Theorem run_diagnosis_total (facts : gmap string pyval) :
  (exists d ds, run_diagnosis facts = Ok (d :: ds)) /\
  ((forall r e, In r RULES -> is_sentinel r = false ->
      evaluate_rule r facts = Ok e -> flt (FFin 0) (score e) = false) ->
   run_diagnosis facts = Ok [insufficient_data]) /\
  run_diagnosis no_facts = Ok [insufficient_data] /\
  d_id insufficient_data = vint 100 /\
  d_score insufficient_data = FFin 0 /\
  d_match_ratio insufficient_data = FFin 0 /\
  d_matched_conditions insufficient_data = [] /\
  d_unmatched_conditions insufficient_data = [].
Proof.
  unfold run_diagnosis.
  rewrite (run_diagnosis_on_policy RULES facts catalog_dicts). cbn zeta.
  split; [|split; [|split; [vm_compute; reflexivity | repeat split]]].
  - destruct (List.filter above_threshold (candidates facts RULES))
      as [|a l] eqn:A.
    + destruct (candidates facts RULES) as [|c cs] eqn:C.
      * rewrite catalog_fallback. eauto.
      * destruct (sorted_desc d_score (c :: cs)) as [|x xs] eqn:S.
        { now apply sorted_desc_nonempty in S. }
        cbn. eauto.
    + destruct (sorted_desc d_score (a :: l)) as [|x xs] eqn:S.
      { now apply sorted_desc_nonempty in S. }
      eauto.
  - intros H.
    assert (C : candidates facts RULES = []).
    { unfold candidates. generalize RULES H. clear H.
      induction l as [|r l IH]; intros H; cbn; [reflexivity|].
      destruct (candidate facts r) as [d|] eqn:Cr.
      - destruct (candidate_sound facts r d Cr) as (Hs & e & He & Hpos & _).
        rewrite (H r e) in Hpos; [discriminate Hpos| now left | exact Hs | exact He].
      - apply IH. intros r' e' Hin. apply H. now right. }
    rewrite C. cbn [List.filter]. apply catalog_fallback.
Qed.

Lemma run_diagnosis_total_witness :
  run_diagnosis no_facts = Ok [insufficient_data].
Proof.
  destruct (run_diagnosis_total no_facts) as (_ & H & _). apply H.
  intros r e Hin Hs He.
  assert (G : forallb (fun r => is_sentinel r ||
                match evaluate_rule r no_facts with
                | Ok e => negb (flt (FFin 0) (score e))
                | Raise _ => true
                end) RULES = true) by (vm_compute; reflexivity).
  rewrite forallb_forall in G. specialize (G r Hin).
  rewrite Hs, He in G. cbn in G. now apply negb_true_iff in G.
Defined.

(** C2: the candidate set holds, in catalog order, a diagnosis for each
    rule other than the sentinel that evaluates to a score above zero.
    If some candidates score 0.25 or more, [run_diagnosis] returns exactly
    those, sorted by score descending with ties in catalog order.
    Otherwise, if there are candidates at all, it returns the first three
    of the candidates sorted in the same way. *)
Theorem run_diagnosis_three_tier (rules : list pyval) (facts : gmap string pyval) :
  forallb is_dict rules = true ->
  let cands := candidates facts rules in
  let above := List.filter above_threshold cands in
  (forall r d, candidate facts r = Some d ->
     is_sentinel r = false /\
     exists e, evaluate_rule r facts = Ok e /\ flt (FFin 0) (score e) = true /\
               py_getitem r "id" = Ok (d_id d) /\
               py_getitem r "name" = Ok (d_name d) /\
               d_score d = score e /\ d_match_ratio d = match_ratio e /\
               d_confidence d = confidence e /\
               d_matched_conditions d = matched_conditions e /\
               d_unmatched_conditions d = unmatched_conditions e) /\
  (forall r id name e,
     is_sentinel r = false -> evaluate_rule r facts = Ok e ->
     flt (FFin 0) (score e) = true ->
     py_getitem r "id" = Ok id -> py_getitem r "name" = Ok name ->
     exists d, candidate facts r = Some d) /\
  (forall d, In d above <-> In d cands /\ fle (FFin (1 # 4)) (d_score d) = true) /\
  (above <> [] ->
     exists out, run_diagnosis_on rules facts = Ok out /\
                 sorted_by_score above out) /\
  (above = [] -> cands <> [] ->
     exists out, run_diagnosis_on rules facts = Ok (firstn 3 out) /\
                 sorted_by_score cands out).
Proof.
  intros H cands above.
  split; [apply candidate_sound|].
  split.
  { intros r id name e Hs He Hpos Hid Hname.
    destruct (candidate_complete facts r id name e Hs He Hpos Hid Hname)
      as (d & Hd & _). eauto. }
  split.
  { intros d. unfold above. rewrite filter_In. reflexivity. }
  pose proof (candidates_not_nan facts rules) as N. fold cands in N.
  rewrite (run_diagnosis_on_policy rules facts H). cbn zeta.
  fold cands. fold above.
  split.
  - intros Hne. destruct above as [|a l] eqn:A; [congruence|].
    eexists. split; [reflexivity|]. apply sorted_desc_by_score.
    rewrite <- A. now apply filter_not_nan.
  - intros -> Hne. destruct cands as [|c cs] eqn:C; [congruence|].
    eexists. split; [reflexivity | now apply sorted_desc_by_score].
Qed.

Lemma run_diagnosis_three_tier_witness :
  (exists out, run_diagnosis_on ranked_catalog latency_facts = Ok out /\
               map d_id (candidates latency_facts ranked_catalog) =
               [vint 3; vint 4; vint 2; vint 1] /\
               map d_id out = [vint 2; vint 3; vint 1]) /\
  (exists out, run_diagnosis_on weak_catalog latency_facts = Ok (firstn 3 out) /\
               map d_id (candidates latency_facts weak_catalog) =
               [vint 1; vint 4; vint 3; vint 2; vint 5] /\
               length out = 5%nat /\
               map d_id (firstn 3 out) = [vint 2; vint 1; vint 3]).
Proof.
  split.
  - destruct (run_diagnosis_three_tier ranked_catalog latency_facts eq_refl)
      as (_ & _ & _ & T & _).
    destruct T as (out & Hout & _); [vm_compute; discriminate|].
    exists out. split; [exact Hout|]. split; [vm_compute; reflexivity|].
    vm_compute in Hout. apply Ok_inj in Hout. subst out. reflexivity.
  - destruct (run_diagnosis_three_tier weak_catalog latency_facts eq_refl)
      as (_ & _ & _ & _ & T).
    destruct T as (out & Hout & P & S & St);
      [vm_compute; reflexivity | vm_compute; discriminate |].
    exists out. split; [exact Hout|]. split; [vm_compute; reflexivity|].
    split.
    + apply Permutation_length in P. rewrite <- P. vm_compute. reflexivity.
    + remember (firstn 3 out) as top eqn:E. clear E.
      vm_compute in Hout. apply Ok_inj in Hout. rewrite <- Hout. reflexivity.
Defined.

(** C9: [evaluate_rule] can raise, for one on a weight that is no number.
    [run_diagnosis] then leaves the rule out and goes on with the others:
    on a catalog of named rules with a rule (other than the sentinel)
    whose evaluation raises, it returns a list, no exception reaches the
    caller, the raising rule contributes no candidate, the candidates are
    those of the rules before it followed by those of the rules after it,
    and the list is the one the ranking policy gives for them: exactly
    what [run_diagnosis] returns on the catalog without that rule. *)
Theorem raising_rule_is_skipped :
  evaluate_rule bad_weight_rule latency_facts = Raise ValueError /\
  forall (pre post : list pyval) (r : pyval) (facts : gmap string pyval)
         (e : exn),
    forallb named_rule (pre ++ r :: post) = true ->
    is_sentinel r = false ->
    evaluate_rule r facts = Raise e ->
    candidate facts r = None /\
    candidates facts (pre ++ r :: post) =
    candidates facts pre ++ candidates facts post /\
    exists out,
      run_diagnosis_on (pre ++ r :: post) facts = Ok out /\
      run_diagnosis_on (pre ++ post) facts = Ok out /\
      (candidates facts pre ++ candidates facts post <> [] ->
       reported (candidates facts pre ++ candidates facts post) out) /\
      (forall d, In d (candidates facts pre ++ candidates facts post) ->
                 above_threshold d = true -> In d out).
Proof.
  split; [vm_compute; reflexivity|].
  intros pre post r facts e Hn Hs He.
  pose proof (candidate_raise facts r e He) as Cr.
  assert (Cs : candidates facts (pre ++ r :: post) =
               candidates facts pre ++ candidates facts post).
  { rewrite candidates_app. unfold candidates at 2. cbn [omap list_omap].
    now rewrite Cr. }
  split; [exact Cr|]. split; [exact Cs|].
  assert (Hn' : forallb named_rule (pre ++ post) = true).
  { rewrite forallb_app in Hn |- *. cbn [forallb] in Hn.
    apply andb_prop in Hn as [H1 H2]. apply andb_prop in H2 as [_ H2].
    now rewrite H1, H2. }
  assert (Hr : named_rule r = true).
  { rewrite forallb_app in Hn. cbn [forallb] in Hn.
    apply andb_prop in Hn as [_ H2]. now apply andb_prop in H2 as [H2 _]. }
  destruct (is_sentinel_id r Hr Hs) as (v & Hid & Hv).
  assert (E : run_diagnosis_on (pre ++ r :: post) facts =
              run_diagnosis_on (pre ++ post) facts).
  { rewrite (run_diagnosis_on_policy _ facts (named_rules_dicts _ Hn)).
    rewrite (run_diagnosis_on_policy _ facts (named_rules_dicts _ Hn')).
    cbn zeta. rewrite Cs, candidates_app.
    now rewrite (find_fallback_skip pre post r v Hid Hv). }
  rewrite E. rewrite <- candidates_app.
  destruct (candidates facts (pre ++ post)) as [|c cs] eqn:C.
  - rewrite (run_diagnosis_on_policy _ facts (named_rules_dicts _ Hn')).
    cbn zeta. rewrite C. cbn [List.filter].
    destruct (fallback_named (pre ++ post) Hn') as [out Hout].
    exists out. split; [exact Hout|]. split; [exact Hout|].
    split; [congruence | intros d []].
  - destruct (run_diagnosis_on_reported (pre ++ post) facts
                (named_rules_dicts _ Hn')) as (out & Hout & R).
    { rewrite C. discriminate. }
    rewrite C in R.
    exists out. split; [exact Hout|]. split; [exact Hout|].
    split; [intros _; exact R|].
    intros d Hd Ha. destruct R as [R _].
    assert (Hin : In d (List.filter above_threshold (c :: cs))).
    { apply filter_In. auto. }
    destruct R as (P & _).
    { intros N. rewrite N in Hin. destruct Hin. }
    eapply Permutation_in; eassumption.
Qed.

Lemma raising_rule_is_skipped_witness :
  exists out, run_diagnosis_on mixed_catalog latency_facts = Ok out /\
              map d_id out = [vint 3; vint 1].
Proof.
  destruct raising_rule_is_skipped as [R S].
  destruct (S [sample_rule 1 0.6 [slow]] [sample_rule 3 0.9 [slow]; sample_sentinel]
              bad_weight_rule latency_facts ValueError eq_refl eq_refl R)
    as (_ & _ & out & Hout & _).
  exists out. split; [exact Hout|].
  vm_compute in Hout. apply Ok_inj in Hout. subst out. reflexivity.
Defined.

End RankerClaims.

(** ** Merging catalogs *)

Module MergeFacts.
Import Py RuleImport ImportSpec PyFacts.

Lemma atom_eq_int (a b : Z) : atom_eq (AInt a) (AInt b) = (a =? b)%Z.
Proof.
  cbn. unfold feq, fle, Qle_bool. cbn. rewrite !Z.mul_1_r.
  destruct (Z.leb_spec a b), (Z.leb_spec b a), (Z.eqb_spec a b); cbn; lia.
Qed.

Lemma atom_lt_int (a b : Z) : atom_cmp CLt (AInt a) (AInt b) = Ok (a <? b)%Z.
Proof.
  cbn. unfold flt, fle, Qle_bool. cbn. rewrite !Z.mul_1_r. f_equal.
  destruct (Z.leb_spec a b), (Z.leb_spec b a), (Z.ltb_spec a b); cbn; lia.
Qed.

(** *** The dict keyed by id *)

Lemma by_id_get_set (h : heap) (by_id : list (atom * hval)) (z z' : Z) (r : hval) :
  int_keyed h by_id ->
  by_id_get (AInt z') (by_id_set (AInt z) r by_id) =
  if decide (z = z') then Some r else by_id_get (AInt z') by_id.
Proof.
  induction 1 as [|[k v] by_id (y & Hk & _) _ IH];
    cbn [by_id_get by_id_set fst snd] in *.
  - rewrite atom_eq_int. destruct (decide (z = z')) as [->|Hne].
    + now rewrite Z.eqb_refl.
    + destruct (Z.eqb_spec z' z); [congruence | reflexivity].
  - subst k. rewrite !atom_eq_int.
    destruct (Z.eqb_spec z y) as [->|Hzy]; cbn [by_id_get];
      rewrite atom_eq_int.
    + destruct (decide (y = z')) as [->|Hne].
      * now rewrite Z.eqb_refl.
      * destruct (Z.eqb_spec z' y); [congruence | reflexivity].
    + destruct (Z.eqb_spec z' y) as [->|Hz'y].
      * destruct (decide (z = y)); [congruence | reflexivity].
      * exact IH.
Qed.

Lemma by_id_set_int_keyed (h : heap) (by_id : list (atom * hval)) (z : Z) (r : hval) :
  rule_id h r = Some z -> int_keyed h by_id ->
  int_keyed h (by_id_set (AInt z) r by_id).
Proof.
  intros Hr. induction 1 as [|[k v] by_id (y & Hk & Hv) Hrest IH]; cbn [by_id_get by_id_set fst snd map] in *.
  - constructor; [|constructor]. exists z. auto.
  - subst k. rewrite atom_eq_int. destruct (Z.eqb_spec z y) as [->|Hne].
    + constructor; [|exact Hrest]. exists y. auto.
    + constructor; [|exact IH]. exists y. auto.
Qed.

Lemma by_id_set_keys (h : heap) (by_id : list (atom * hval)) (z : Z) (r : hval) :
  int_keyed h by_id -> List.NoDup (map fst by_id) ->
  List.NoDup (map fst (by_id_set (AInt z) r by_id)) /\
  forall k, In k (map fst (by_id_set (AInt z) r by_id)) <->
            k = AInt z \/ In k (map fst by_id).
Proof.
  induction 1 as [|[k v] by_id (y & Hk & _) _ IH];
    cbn [by_id_set fst snd map] in *; intros ND.
  - split; [constructor; [intros [] | constructor]|]. intros k. cbn. intuition.
  - subst k. rewrite atom_eq_int.
    destruct (Z.eqb_spec z y) as [->|Hne]; cbn [map fst].
    + split; [exact ND|]. intros k. cbn. intuition.
    + apply List.NoDup_cons_iff in ND as [Hy ND]. destruct (IH ND) as [ND' Hin].
      split.
      * apply List.NoDup_cons_iff. split; [|exact ND'].
        rewrite Hin. intros [E|E]; [congruence | contradiction].
      * intros k. cbn [In]. rewrite Hin. intuition.
Qed.

Lemma by_id_get_in (h : heap) (by_id : list (atom * hval)) (z : Z) (r : hval) :
  int_keyed h by_id -> by_id_get (AInt z) by_id = Some r ->
  In (AInt z) (map fst by_id) /\ rule_id h r = Some z.
Proof.
  induction 1 as [|[k v] by_id (y & Hk & Hv) _ IH];
    cbn [by_id_get fst snd map In] in *; [discriminate|].
  subst k. rewrite atom_eq_int. destruct (Z.eqb_spec z y) as [->|Hne].
  - intros [= ->]. auto.
  - intros H. destruct (IH H). auto.
Qed.

Lemma by_id_get_key (h : heap) (by_id : list (atom * hval)) (z : Z) :
  int_keyed h by_id -> In (AInt z) (map fst by_id) ->
  exists r, by_id_get (AInt z) by_id = Some r.
Proof.
  induction 1 as [|[k v] by_id (y & Hk & Hv) _ IH];
    cbn [by_id_get fst snd map In] in *; [intros []|].
  subst k. rewrite atom_eq_int. destruct (Z.eqb_spec z y) as [->|Hne].
  - eauto.
  - intros [E|Hin]; [congruence | now apply IH].
Qed.

Lemma stands_for_set (h : heap) (by_id : list (atom * hval)) (m : gmap Z hval)
  (z : Z) (r : hval) :
  rule_id h r = Some z -> stands_for h by_id m ->
  stands_for h (by_id_set (AInt z) r by_id) (<[z := r]> m).
Proof.
  intros Hr (K & ND & L). split; [now apply by_id_set_int_keyed|].
  split; [now apply (by_id_set_keys h)|].
  intros z'. rewrite (by_id_get_set h) by exact K.
  rewrite lookup_insert. destruct (decide (z = z')); [reflexivity | apply L].
Qed.

Lemma rule_id_fields (h : heap) (r : hval) (z : Z) :
  rule_id h r = Some z ->
  exists l d, as_dict h r = Some (l, d) /\ assoc "id" d = Some (HAtom (AInt z)) /\
              getitem_id h r = Ok (HAtom (AInt z)).
Proof.
  unfold rule_id, getitem_id, as_dict. destruct r as [a|l]; [discriminate|].
  destruct (h !! l) as [[items|d]|]; try discriminate.
  destruct (assoc "id" d) as [[[]|]|] eqn:E; try discriminate.
  intros [= ->]. eauto.
Qed.

Lemma index_existing_keyed (h : heap) (existing : list hval)
  (by_id : list (atom * hval)) (m : gmap Z hval) :
  Forall (fun r => is_Some (rule_id h r)) existing ->
  stands_for h by_id m ->
  exists by_id', index_existing h existing by_id = Ok by_id' /\
                 stands_for h by_id' (keyed h m existing).
Proof.
  intros H. revert by_id m.
  induction H as [|r existing [z Hz] _ IH]; intros by_id m S; cbn.
  - eauto.
  - destruct (rule_id_fields h r z Hz) as (l & d & _ & _ & G).
    rewrite G, Hz. cbn [bind hash_key].
    apply IH. now apply stands_for_set.
Qed.

Lemma index_new_keyed (h : heap) (incoming : list hval)
  (by_id : list (atom * hval)) (m : gmap Z hval) :
  Forall (fun r => is_Some (rule_id h r) \/ without_id h r = true) incoming ->
  stands_for h by_id m ->
  exists by_id', index_new h incoming by_id = Ok by_id' /\
                 stands_for h by_id' (keyed h m incoming).
Proof.
  intros H. revert by_id m.
  induction H as [|r incoming Hr _ IH]; intros by_id m S; cbn.
  - eauto.
  - destruct Hr as [[z Hz]|Hr].
    + destruct (rule_id_fields h r z Hz) as (l & d & D & I & _).
      rewrite D, I, Hz. cbn [bind hash_key].
      apply IH. now apply stands_for_set.
    + unfold without_id, rule_id in *.
      destruct (as_dict h r) as [[l d]|]; [|now apply IH].
      unfold has_key in Hr. destruct (assoc "id" d); [discriminate|].
      now apply IH.
Qed.

(** *** Sorting integer keys *)

Lemma insert_key_int (x : Z) (l : list Z) :
  exists l', insert_key (AInt x) (map AInt l) = Ok (map AInt l') /\
             Permutation (x :: l) l' /\
             (StronglySorted Z.le l -> StronglySorted Z.le l').
Proof.
  induction l as [|y l (l' & E & P & S)]; cbn [map insert_key].
  - exists [x]. split; [reflexivity|]. split; [reflexivity|].
    intros _. repeat constructor.
  - rewrite atom_lt_int. cbn [bind]. destruct (Z.ltb_spec y x) as [Hlt|Hge].
    + rewrite E. cbn [bind]. exists (y :: l').
      split; [reflexivity|]. split.
      * rewrite perm_swap. now apply perm_skip.
      * intros Hs. apply StronglySorted_inv in Hs as [Hs Hy].
        constructor; [auto|].
        eapply Permutation_Forall; [exact P|].
        constructor; [lia | exact Hy].
    + exists (x :: y :: l). split; [reflexivity|]. split; [reflexivity|].
      intros Hs. constructor; [exact Hs|].
      apply StronglySorted_inv in Hs as [_ Hy].
      constructor; [exact Hge|].
      eapply List.Forall_impl; [|exact Hy]. intros a Ha. cbn in Ha. lia.
Qed.

Lemma sorted_keys_int (l : list Z) :
  exists l', sorted_keys (map AInt l) = Ok (map AInt l') /\
             Permutation l l' /\ StronglySorted Z.le l'.
Proof.
  induction l as [|x l (s & E & P & S)]; cbn [map sorted_keys].
  - exists []. split; [reflexivity|]. split; constructor.
  - rewrite E. cbn [bind].
    destruct (insert_key_int x s) as (l' & E' & P' & S').
    exists l'. split; [exact E'|]. split; [|auto].
    rewrite <- P'. now apply perm_skip.
Qed.

Lemma strictly_sorted (l : list Z) :
  StronglySorted Z.le l -> List.NoDup l -> StronglySorted Z.lt l.
Proof.
  induction 1 as [|x l Hs IH Hx]; intros ND; [constructor|].
  apply List.NoDup_cons_iff in ND as [Hnin ND].
  constructor; [auto|].
  rewrite List.Forall_forall in *. intros y Hy.
  specialize (Hx y Hy). assert (x <> y) by congruence. lia.
Qed.

Lemma int_keys (h : heap) (by_id : list (atom * hval)) :
  int_keyed h by_id -> exists zs, map fst by_id = map AInt zs.
Proof.
  induction 1 as [|[k v] by_id (y & Hk & _) _ (zs & IH)];
    cbn [fst snd map] in *.
  - now exists [].
  - subst k. exists (y :: zs). cbn. now rewrite IH.
Qed.

Lemma values_in_key_order (h : heap) (by_id : list (atom * hval)) (zs : list Z) :
  int_keyed h by_id ->
  (forall z, In z zs -> In (AInt z) (map fst by_id)) ->
  exists out, omap (fun k => by_id_get k by_id) (map AInt zs) = out /\
              Forall2 (fun z r => by_id_get (AInt z) by_id = Some r) zs out.
Proof.
  intros K. induction zs as [|z zs IH]; intros Hin.
  - exists []. split; [reflexivity | constructor].
  - destruct IH as (out & E & F); [intros; apply Hin; now right|].
    destruct (by_id_get_key h by_id z K) as [r Hr]; [apply Hin; now left|].
    exists (r :: out). split; [|now constructor].
    cbn [map omap list_omap]. rewrite Hr. now rewrite <- E.
Qed.

(** What a lookup in the keyed map can give: the last rule of the list
    with that id, or what the map had when no rule of the list has it. *)
Lemma keyed_lookup (h : heap) (rules : list hval) (m : gmap Z hval) (z : Z)
  (r : hval) :
  keyed h m rules !! z = Some r ->
  (In r rules /\ rule_id h r = Some z) \/
  (m !! z = Some r /\ forall r', In r' rules -> rule_id h r' <> Some z).
Proof.
  revert m. induction rules as [|x rules IH]; intros m; cbn.
  - intros H. right. split; [exact H | intros r' []].
  - intros H. destruct (IH _ H) as [[Hin Hid]|[Hm Hno]]; [left; auto|].
    destruct (rule_id h x) as [y|] eqn:Hx.
    + rewrite lookup_insert in Hm. destruct (decide (y = z)) as [->|Hne].
      * injection Hm as ->. left. auto.
      * right. split; [exact Hm|]. intros r' [<-|Hr']; [congruence | auto].
    + right. split; [exact Hm|]. intros r' [<-|Hr']; [congruence | auto].
Qed.

End MergeFacts.

Module MergeClaims.
Import Py RuleImport ImportSpec PyFacts MergeFacts.

(** C5: for existing rules and incoming entries whose ids are integers
    (incoming entries without an id are passed over), [merge_rules]
    returns the rules of the map that keys the existing rules by id and
    then writes every incoming rule over it: one rule per id, the ids
    strictly ascending whatever the order of the inputs.  Where an
    incoming rule has the id of an existing one, the result holds the
    incoming rule itself, whole. *)
Theorem merge_rules_sorted_last_wins (h : heap) (existing incoming : list hval) :
  Forall (fun r => is_Some (rule_id h r)) existing ->
  Forall (fun r => is_Some (rule_id h r) \/ without_id h r = true) incoming ->
  exists out ids,
    merge_rules h existing incoming = Ok out /\
    map (rule_id h) out = map Some ids /\
    StronglySorted Z.lt ids /\
    (forall z r, In r out /\ rule_id h r = Some z <->
                 merged_catalog h existing incoming !! z = Some r) /\
    (forall z r r', In r out -> rule_id h r = Some z ->
                    In r' incoming -> rule_id h r' = Some z -> In r incoming).
Proof.
  intros He Hi. unfold merge_rules.
  assert (S0 : stands_for h [] ∅).
  { split; [constructor|]. split; [constructor|]. intros z. now rewrite lookup_empty. }
  destruct (index_existing_keyed h existing [] ∅ He S0) as (b0 & E0 & S1).
  destruct (index_new_keyed h incoming b0 _ Hi S1) as (by_id & E1 & S2).
  fold (merged_catalog h existing incoming) in S2.
  destruct S2 as (K & ND & L).
  rewrite E0. cbn [bind]. rewrite E1. cbn [bind].
  destruct (int_keys h by_id K) as (zs & Hzs). rewrite Hzs.
  destruct (sorted_keys_int zs) as (ids & Es & P & Sle). rewrite Es. cbn [bind].
  assert (Hkeys : forall z, In z ids -> In (AInt z) (map fst by_id)).
  { intros z Hz. rewrite Hzs. apply in_map.
    now apply (Permutation_in z (Permutation_sym P)). }
  destruct (values_in_key_order h by_id ids K Hkeys) as (out & Eo & F).
  exists out, ids. rewrite Eo. split; [reflexivity|].
  assert (NDids : List.NoDup ids).
  { apply (Permutation_NoDup P). rewrite Hzs in ND.
    now apply NoDup_map_inv in ND. }
  assert (Hout : forall z r, In r out /\ rule_id h r = Some z <->
                             merged_catalog h existing incoming !! z = Some r).
  { intros z r. rewrite <- L. split.
    - intros [Hin Hid].
      clear - F K Hin Hid. induction F as [|z' r' ids out Hz' F IH]; [destruct Hin|].
      destruct Hin as [->|Hin]; [|auto].
      destruct (by_id_get_in h by_id z' r K Hz') as [_ Hr]. congruence.
    - intros Hg. destruct (by_id_get_in h by_id z r K Hg) as [Hk Hid].
      split; [|exact Hid].
      assert (Hz : In z ids).
      { apply (Permutation_in z P). rewrite Hzs in Hk.
        apply in_map_iff in Hk as (z' & [= ->] & Hz'). exact Hz'. }
      clear - F Hz Hg. induction F as [|z' r' ids out Hz' F IH]; [destruct Hz|].
      destruct Hz as [->|Hz]; [left; congruence | right; auto]. }
  split; [|split; [now apply strictly_sorted | split; [exact Hout|]]].
  - clear - F K. induction F as [|z r ids out Hz F IH]; [reflexivity|].
    cbn [map]. rewrite IH.
    now destruct (by_id_get_in h by_id z r K Hz) as [_ ->].
  - intros z r r' Hin Hid Hin' Hid'.
    assert (Hm : merged_catalog h existing incoming !! z = Some r)
      by (apply Hout; auto).
    unfold merged_catalog in Hm.
    destruct (keyed_lookup h incoming _ z r Hm) as [[H _]|[_ Hno]]; [exact H|].
    now destruct (Hno r' Hin').
Qed.

Lemma merge_rules_sorted_last_wins_witness :
  exists out ids,
    merge_rules merge_store [HRef 1; HRef 2] [HAtom ANone; HRef 3] = Ok out /\
    map (rule_id merge_store) out = map Some ids /\
    StronglySorted Z.lt ids.
Proof.
  destruct (merge_rules_sorted_last_wins merge_store [HRef 1; HRef 2]
              [HAtom ANone; HRef 3]) as (out & ids & E & I & S & _).
  - repeat constructor; eexists; vm_compute; reflexivity.
  - constructor; [right; reflexivity|].
    constructor; [left; eexists; vm_compute; reflexivity | constructor].
  - exists out, ids. auto.
Defined.

End MergeClaims.

(** ** Validation *)

Module ValidateFacts.
Import Py RuleImport ImportSpec PyFacts.
Local Open Scope Q_scope.

(** *** Dict entries *)

Section Assoc.
Context {V : Type}.

Lemma assoc_set_eq (k : string) (v : V) (d : list (string * V)) :
  assoc k (assoc_set k v d) = Some v.
Proof.
  induction d as [|[k' v'] d IH]; cbn.
  - now rewrite String.eqb_refl.
  - destruct (String.eqb_spec k k') as [->|Hne]; cbn.
    + now rewrite String.eqb_refl.
    + destruct (String.eqb_spec k k'); [contradiction | exact IH].
Qed.

Lemma assoc_set_ne (k k' : string) (v : V) (d : list (string * V)) :
  k <> k' -> assoc k' (assoc_set k v d) = assoc k' d.
Proof.
  intros Hne. induction d as [|[k0 v0] d IH]; cbn.
  - destruct (String.eqb_spec k' k); [congruence | reflexivity].
  - destruct (String.eqb_spec k k0) as [->|Hk]; cbn.
    + destruct (String.eqb_spec k' k0); [congruence | reflexivity].
    + destruct (String.eqb_spec k' k0); [reflexivity | exact IH].
Qed.

Lemma assoc_set_same (k : string) (v : V) (d : list (string * V)) :
  assoc k d = Some v -> assoc_set k v d = d.
Proof.
  induction d as [|[k' v'] d IH]; cbn; [discriminate|].
  destruct (String.eqb_spec k k') as [->|Hne].
  - now intros [= ->].
  - intros H. now rewrite IH.
Qed.
End Assoc.

(** *** A float is its own float value *)

Lemma hfloat_stored (f : float) : hfloat (HAtom (AFloat f)) = Ok f.
Proof. reflexivity. Qed.

(** *** One condition *)

Lemma validate_condition_entries (rid : atom) (j : nat) (d : list (string * hval)) :
  fst (validate_condition rid j d) =
  assoc_set "weight" (HAtom (AFloat (stored_weight d)))
    (if has_key "op" d then d else assoc_set "op" (HAtom (AStr "==")) d).
Proof.
  unfold validate_condition, stored_weight, entry_or.
  destruct (has_key "op" d).
  - destruct (hfloat _); reflexivity.
  - rewrite assoc_set_ne by discriminate.
    destruct (hfloat _); reflexivity.
Qed.

Lemma validate_condition_normalized (rid : atom) (j : nat)
  (d : list (string * hval)) :
  fst (validate_condition rid j d) = normalized_condition d.
Proof.
  unfold normalized_condition. now rewrite !validate_condition_entries.
Qed.

Lemma normalized_op (d : list (string * hval)) :
  assoc "op" (normalized_condition d) = Some (entry_or d "op" (HAtom (AStr "=="))).
Proof.
  unfold normalized_condition, entry_or, has_key.
  rewrite validate_condition_entries, assoc_set_ne by discriminate.
  unfold has_key. destruct (assoc "op" d) eqn:E; [exact E|].
  apply assoc_set_eq.
Qed.

Lemma normalized_weight (d : list (string * hval)) :
  assoc "weight" (normalized_condition d) =
  Some (HAtom (AFloat (stored_weight d))).
Proof.
  unfold normalized_condition.
  rewrite validate_condition_entries. apply assoc_set_eq.
Qed.

Lemma normalized_other (d : list (string * hval)) (k : string) :
  k <> "op" -> k <> "weight" -> assoc k (normalized_condition d) = assoc k d.
Proof.
  intros Ho Hw. unfold normalized_condition.
  rewrite validate_condition_entries, assoc_set_ne by congruence.
  destruct (has_key "op" d); [reflexivity|].
  apply assoc_set_ne. congruence.
Qed.

Lemma normalized_idem (d : list (string * hval)) :
  normalized_condition (normalized_condition d) = normalized_condition d.
Proof.
  assert (W : stored_weight (normalized_condition d) = stored_weight d).
  { unfold stored_weight at 1, entry_or. rewrite normalized_weight.
    now rewrite hfloat_stored. }
  rewrite <- (validate_condition_normalized ANone 0 (normalized_condition d)).
  rewrite validate_condition_entries, W. unfold has_key. rewrite normalized_op.
  apply assoc_set_same, normalized_weight.
Qed.

Lemma kept_id_normalized (d : list (string * hval)) :
  kept_id (normalized_condition d) = kept_id d.
Proof. unfold kept_id. now rewrite normalized_other by discriminate. Qed.

Lemma entry_or_normalized (d : list (string * hval)) (k : string) (x : hval) :
  k <> "op" -> k <> "weight" ->
  entry_or (normalized_condition d) k x = entry_or d k x.
Proof. intros Ho Hw. unfold entry_or. now rewrite normalized_other. Qed.

Lemma validate_condition_issues (rid : atom) (j : nat) (d : list (string * hval))
  (rid' : atom) (conf : hval) :
  ~ In (InvalidConfidence rid' conf) (snd (validate_condition rid j d)).
Proof.
  unfold validate_condition.
  destruct (has_key "type" d), (has_key "op" d); cbn [snd fst];
    destruct (hfloat _); cbn; intuition discriminate.
Qed.

(** *** The store *)

Lemma as_dict_Some (h : heap) (v : hval) (l : loc) (d : list (string * hval)) :
  as_dict h v = Some (l, d) <-> v = HRef l /\ h !! l = Some (ODict d).
Proof.
  unfold as_dict. destruct v as [a|l0]; [split; [discriminate | intros [? _]; discriminate]|].
  destruct (h !! l0) as [[items|d0]|] eqn:E; split;
    try discriminate; try (intros [[= ->] H]; congruence).
  intros [= -> ->]. auto.
Qed.

Lemma evolves_refl (h : heap) : evolves h h.
Proof. intros l o H. now left. Qed.

Lemma evolves_trans (h1 h2 h3 : heap) :
  evolves h1 h2 -> evolves h2 h3 -> evolves h1 h3.
Proof.
  intros A B l o H. destruct (A l o H) as [H2|(d & -> & H2)].
  - exact (B l o H2).
  - destruct (B _ _ H2) as [H3|(d' & E & H3)]; [right; eauto|].
    injection E as <-. rewrite normalized_idem in H3. right. eauto.
Qed.

Lemma alloc_fresh (o : obj) (h : heap) : h !! fst (alloc o h) = None.
Proof. cbn. apply not_elem_of_dom, is_fresh. Qed.

Lemma alloc_lookup (o : obj) (h : heap) :
  snd (alloc o h) !! fst (alloc o h) = Some o.
Proof. cbn. apply lookup_insert_eq. Qed.

Lemma alloc_other (o : obj) (h : heap) (l : loc) (x : obj) :
  h !! l = Some x -> snd (alloc o h) !! l = Some x.
Proof.
  intros H. cbn. rewrite lookup_insert_ne; [exact H|].
  intros E. pose proof (alloc_fresh o h) as F. cbn in F. congruence.
Qed.

Lemma evolves_alloc (o : obj) (h : heap) : evolves h (snd (alloc o h)).
Proof. intros l x H. left. now apply alloc_other. Qed.

Lemma evolves_normalize (h : heap) (l : loc) (d : list (string * hval)) :
  h !! l = Some (ODict d) ->
  evolves h (<[l := ODict (normalized_condition d)]> h).
Proof.
  intros H l' o H'. destruct (decide (l = l')) as [<-|Hne].
  - right. exists d. rewrite lookup_insert_eq. split; congruence.
  - left. now rewrite lookup_insert_ne.
Qed.

Lemma evolves_None (h h' : heap) (l : loc) :
  evolves h h' -> h' !! l = None -> h !! l = None.
Proof.
  intros E H. destruct (h !! l) as [o|] eqn:Hl; [|reflexivity].
  destruct (E l o Hl) as [H'|(d & _ & H')]; congruence.
Qed.

Lemma evolves_list (h h' : heap) (l : loc) (items : list hval) :
  evolves h h' -> h !! l = Some (OList items) -> h' !! l = Some (OList items).
Proof.
  intros E H. destruct (E _ _ H) as [H'|(d & D & _)]; [exact H' | discriminate].
Qed.

Lemma evolves_dict (h h' : heap) (l : loc) (d : list (string * hval)) :
  evolves h h' -> h !! l = Some (ODict d) ->
  exists d', h' !! l = Some (ODict d') /\
             (d' = d \/ d' = normalized_condition d).
Proof.
  intros E H. destruct (E _ _ H) as [H'|(d0 & [= <-] & H')]; eauto.
Qed.

(** A normalized condition stays as it is: once normalized, always so. *)
Lemma evolves_normalized (h h' : heap) (l : loc) (d : list (string * hval)) :
  evolves h h' -> h !! l = Some (ODict (normalized_condition d)) ->
  h' !! l = Some (ODict (normalized_condition d)).
Proof.
  intros E H. destruct (evolves_dict h h' l _ E H) as (d' & H' & [->| ->]);
    [exact H' | now rewrite normalized_idem in H'].
Qed.

(** *** The loop over the conditions *)

Lemma validate_conditions_spec (rid : atom) (items : list hval) :
  forall (j : nat) (h : heap) (issues : list issue),
    let r := validate_conditions rid j items h issues in
    evolves h (fst r) /\
    (forall lk c, In (HRef lk) items -> h !! lk = Some (ODict c) ->
                  fst r !! lk = Some (ODict (normalized_condition c))) /\
    (exists new, snd r = issues ++ new /\
                 forall rid' conf, ~ In (InvalidConfidence rid' conf) new).
Proof.
  induction items as [|c0 items IH]; intros j h issues; cbn zeta.
  - cbn. split; [apply evolves_refl|]. split; [intros lk c []|].
    exists []. split; [now rewrite app_nil_r | intros ? ? []].
  - cbn [validate_conditions].
    destruct (as_dict h c0) as [[l d]|] eqn:D.
    + apply as_dict_Some in D as [-> Hl].
      pose proof (validate_condition_normalized rid j d) as N.
      pose proof (validate_condition_issues rid j d) as I.
      destruct (validate_condition rid j d) as [d' new]. cbn [fst snd] in N, I.
      subst d'.
      destruct (IH (S j) (<[l := ODict (normalized_condition d)]> h) (issues ++ new))
        as (E & T & new' & Hn & In').
      split; [|split].
      * apply (evolves_trans _ (<[l := ODict (normalized_condition d)]> h));
          [apply evolves_normalize; exact Hl | exact E].
      * intros lk c Hin Hc. destruct (decide (lk = l)) as [->|Hne].
        -- assert (c = d) by congruence. subst c.
           apply (evolves_normalized _ _ l d E). apply lookup_insert_eq.
        -- destruct Hin as [[= ->]|Hin]; [contradiction|].
           apply T; [exact Hin|]. now rewrite lookup_insert_ne by congruence.
      * exists (new ++ new'). rewrite Hn, app_assoc. split; [reflexivity|].
        intros rid' conf Hin. apply in_app_or in Hin as [Hin|Hin].
        -- now apply (I rid' conf).
        -- now apply (In' rid' conf).
    + destruct (IH (S j) h (issues ++ [ConditionNotDict rid j]))
        as (E & T & new' & Hn & In').
      split; [exact E|]. split.
      * intros lk c Hin Hc. destruct Hin as [->|Hin]; [|now apply T].
        unfold as_dict in D. rewrite Hc in D. discriminate.
      * exists (ConditionNotDict rid j :: new'). rewrite Hn, <- app_assoc.
        split; [reflexivity|].
        intros rid' conf [Hin|Hin]; [discriminate | now apply (In' rid' conf)].
Qed.

Lemma conditions_of_spec (rid : atom) (d : list (string * hval)) (h : heap) :
  let r := conditions_of rid d h in
  evolves h (snd r) /\
  (forall rid' conf, ~ In (InvalidConfidence rid' conf) (snd (fst r))) /\
  (forall lc items, assoc "conditions" d = Some (HRef lc) ->
                    h !! lc = Some (OList items) ->
                    r = (HRef lc, items, [], h)) /\
  (forall lk, In (HRef lk) (snd (fst (fst r))) ->
              exists lc items, assoc "conditions" d = Some (HRef lc) /\
                               h !! lc = Some (OList items) /\
                               In (HRef lk) items).
Proof.
  unfold conditions_of.
  destruct (assoc "conditions" d) as [[[]|lc]|] eqn:C; cbn zeta;
    try (cbn [as_list fst snd];
         split; [apply (evolves_alloc (OList []) h)|];
         split; [intros ? ? [H|[]]; discriminate H|];
         split; [intros ? ? H; discriminate H | intros ? []]).
  - cbn [as_list]. destruct (h !! lc) as [[items|d0]|] eqn:L; cbn [fst snd].
    + split; [apply evolves_refl|]. split; [intros ? ? []|].
      split; [intros lc' items' E1 E2; congruence|].
      intros lk Hin. eauto.
    + split; [apply (evolves_alloc (OList []) h)|].
      split; [intros ? ? [H|[]]; discriminate H|].
      split; [intros ? ? E1 E2; congruence | intros ? []].
    + split; [apply (evolves_alloc (OList []) h)|].
      split; [intros ? ? [H|[]]; discriminate H|].
      split; [intros ? ? E1 E2; congruence | intros ? []].
  - cbn [fst snd].
    split; [apply (evolves_alloc (OList []) h)|].
    split; [intros ? ? []|].
    split; [intros ? ? H; discriminate H | intros ? []].
Qed.

(** *** One rule *)

Lemma validate_rule_spec (lr : loc) (d : list (string * hval)) (rid : atom)
  (st : vstate) :
  st_heap st !! lr = Some (ODict d) ->
  let st' := validate_rule lr d rid st in
  let conf := entry_or d "confidence" (HAtom (AFloat (FFin (1 # 2)))) in
  evolves (st_heap st) (st_heap st') /\
  (exists lnr nr,
     st_normalized st' = st_normalized st ++ [HRef lnr] /\
     st_heap st !! lnr = None /\
     st_heap st' !! lnr = Some (ODict nr) /\
     assoc "confidence" nr = Some (HAtom (AFloat (stored_confidence conf))) /\
     (forall lc items, assoc "conditions" d = Some (HRef lc) ->
                       st_heap st !! lc = Some (OList items) ->
                       assoc "conditions" nr = Some (HRef lc))) /\
  (forall lc items lk c,
     assoc "conditions" d = Some (HRef lc) ->
     st_heap st !! lc = Some (OList items) ->
     In (HRef lk) items -> st_heap st !! lk = Some (ODict c) ->
     st_heap st' !! lk = Some (ODict (normalized_condition c))) /\
  (exists new,
     st_issues st' = st_issues st ++ new /\
     forall rid' conf',
       In (InvalidConfidence rid' conf') new <->
       rid' = rid /\ conf' = conf /\ _normalize_confidence_raw conf = None).
Proof.
  intros Hlr. cbn zeta. unfold validate_rule, stored_confidence, entry_or.
  set (h := st_heap st) in *.
  set (conf := match assoc "confidence" d with
               | Some c => c
               | None => HAtom (AFloat (FFin (1 # 2)))
               end).
  set (i1 := if existsb (atom_eq rid) (st_seen_ids st) then [DuplicateId rid] else []).
  set (i2 := if truthy h _ then [] else [RuleMissingName rid]).
  assert (I1 : forall rid' conf', ~ In (InvalidConfidence rid' conf') i1).
  { intros ? ?. unfold i1. destruct (existsb _ _); cbn; intuition discriminate. }
  assert (I2 : forall rid' conf', ~ In (InvalidConfidence rid' conf') i2).
  { intros ? ?. unfold i2. destruct (truthy _ _); cbn; intuition discriminate. }
  set (ni := match _normalize_confidence_raw conf with
             | Some q => (q, [])
             | None => (FFin (1 # 2), [InvalidConfidence rid conf])
             end).
  assert (N : fst ni = match _normalize_confidence_raw conf with
                       | Some q => q
                       | None => FFin (1 # 2)
                       end) by (unfold ni; now destruct (_normalize_confidence_raw conf)).
  assert (I3 : forall rid' conf',
             In (InvalidConfidence rid' conf') (snd ni) <->
             rid' = rid /\ conf' = conf /\ _normalize_confidence_raw conf = None).
  { intros rid' conf'. unfold ni.
    destruct (_normalize_confidence_raw conf); cbn.
    - split; [intros [] | intros (_ & _ & H); discriminate H].
    - split; [intros [[= <- <-]|[]]; auto | intros (-> & -> & _); now left]. }
  destruct ni as [norm i3]. cbn [fst snd] in N, I3.
  destruct (conditions_of_spec rid d h) as (E1 & I4 & C & _).
  destruct (conditions_of rid d h) as [[[conds items] i4] h1].
  cbn [fst snd] in E1, I4, C.
  match goal with
  | |- context [validate_conditions ?a ?b ?c ?e ?f] =>
      destruct (validate_conditions_spec a c b e f) as (E2 & T & new & Hn & Inew);
      destruct (validate_conditions a b c e f) as [h2 issues]
  end.
  cbn [fst snd] in E2, T, Hn.
  assert (E : evolves h h2) by (eapply evolves_trans; eassumption).
  destruct (evolves_dict h h2 lr d E Hlr) as (d' & Hd' & Dd').
  rewrite Hd'.
  set (nr := assoc_set "conditions" conds
               (assoc_set "confidence" (HAtom (AFloat norm)) d')).
  pose proof (alloc_fresh (ODict nr) h2) as F.
  pose proof (alloc_lookup (ODict nr) h2) as L.
  pose proof (evolves_alloc (ODict nr) h2) as E3.
  pose proof (alloc_other (ODict nr) h2) as O.
  destruct (alloc (ODict nr) h2) as [lnr h3]. cbn [fst snd] in F, L, E3, O.
  cbn [st_heap st_issues st_normalized].
  split; [eapply evolves_trans; eassumption|].
  split; [|split].
  - exists lnr, nr. split; [reflexivity|].
    split; [now apply (evolves_None h h2)|]. split; [exact L|].
    split.
    + unfold nr. rewrite assoc_set_ne by discriminate.
      rewrite assoc_set_eq. now rewrite N.
    + intros lc items0 Hc Hl. specialize (C lc items0 Hc Hl).
      injection C as -> _ _ _. unfold nr. apply assoc_set_eq.
  - intros lc items0 lk c Hc Hl Hin Hk. specialize (C lc items0 Hc Hl).
    injection C as _ -> _ ->. apply O. now apply T.
  - exists (i1 ++ i2 ++ i3 ++ i4 ++ new). split.
    + rewrite Hn. now rewrite <- !app_assoc.
    + intros rid' conf'. rewrite !in_app_iff, I3.
      specialize (I1 rid' conf'). specialize (I2 rid' conf').
      specialize (I4 rid' conf'). specialize (Inew rid' conf'). tauto.
Qed.

(** *** The loop over the rules *)

Lemma evolves_entries (h h' : heap) (l : loc) (d : list (string * hval)) :
  evolves h h' -> h !! l = Some (ODict d) ->
  exists d', h' !! l = Some (ODict d') /\
             normalized_condition d' = normalized_condition d /\
             forall k, k <> "op" -> k <> "weight" -> assoc k d' = assoc k d.
Proof.
  intros E H. destruct (evolves_dict h h' l d E H) as (d' & H' & [->| ->]).
  - eauto.
  - exists (normalized_condition d). split; [exact H'|].
    split; [apply normalized_idem | intros; now apply normalized_other].
Qed.

(** The outcome for a rule stays true while validation goes on. *)
Lemma rule_outcome_later (h h1 h' : heap) (out1 out : list hval)
  (issues1 issues : list issue) (d : list (string * hval)) (rid : atom) :
  rule_outcome h h1 out1 issues1 d rid ->
  evolves h1 h' -> incl out1 out -> incl issues1 issues ->
  rule_outcome h h' out issues d rid.
Proof.
  intros (Hnr & Hi & Hl & Hc) E Io Ii. unfold rule_outcome. cbn zeta.
  split; [|split; [|split]].
  - destruct Hnr as (lnr & nr & Hin & Hf & Hn & Hconf & Hconds).
    destruct (evolves_entries h1 h' lnr nr E Hn) as (nr' & Hn' & _ & K).
    exists lnr, nr'. split; [now apply Io|]. split; [exact Hf|].
    split; [exact Hn'|]. split.
    + rewrite K by discriminate. exact Hconf.
    + intros lc items A B. rewrite K by discriminate. eauto.
  - intros H. apply Ii. auto.
  - intros lc items A B. eapply evolves_list; eauto.
  - intros lc items lk c A B Hin Hk.
    eapply evolves_normalized; [exact E|]. eauto.
Qed.

(** The outcome, seen from a store that validation had yet to reach. *)
Lemma rule_outcome_earlier (h h1 h' : heap) (out : list hval)
  (issues : list issue) (d d1 : list (string * hval)) (rid : atom) :
  evolves h h1 ->
  (forall k, k <> "op" -> k <> "weight" -> assoc k d1 = assoc k d) ->
  rule_outcome h1 h' out issues d1 rid ->
  rule_outcome h h' out issues d rid.
Proof.
  intros E K (Hnr & Hi & Hl & Hc). unfold rule_outcome in *. cbn zeta in *.
  assert (Ec : entry_or d1 "confidence" (HAtom (AFloat (FFin (1 # 2)))) =
               entry_or d "confidence" (HAtom (AFloat (FFin (1 # 2))))).
  { unfold entry_or. now rewrite K by discriminate. }
  rewrite Ec in *. rewrite (K "conditions") in * by discriminate.
  split; [|split; [|split]].
  - destruct Hnr as (lnr & nr & Hin & Hf & Hn & Hconf & Hconds).
    exists lnr, nr. split; [exact Hin|].
    split; [now apply (evolves_None h h1)|]. split; [exact Hn|].
    split; [exact Hconf|].
    intros lc items A B. apply (Hconds lc items A).
    eapply evolves_list; eauto.
  - exact Hi.
  - intros lc items A B. apply (Hl lc items A). eapply evolves_list; eauto.
  - intros lc items lk c A B Hin Hk.
    destruct (evolves_entries h h1 lk c E Hk) as (c1 & Hk1 & <- & _).
    apply (Hc lc items lk c1 A); [eapply evolves_list; eauto | exact Hin | exact Hk1].
Qed.

Lemma validate_loop_spec (rules : list hval) :
  forall (i : nat) (st st' : vstate),
    validate_loop i rules st = Ok st' ->
    evolves (st_heap st) (st_heap st') /\
    (exists new, st_normalized st' = st_normalized st ++ new) /\
    (exists new, st_issues st' = st_issues st ++ new /\
                 confidence_issues_sound new) /\
    forall lr d rid,
      In (HRef lr) rules -> st_heap st !! lr = Some (ODict d) ->
      kept_id d = Some rid ->
      rule_outcome (st_heap st) (st_heap st') (st_normalized st')
                   (st_issues st') d rid.
Proof.
  induction rules as [|r rules IH]; intros i st st' H.
  - injection H as <-. split; [apply evolves_refl|].
    split; [exists []; now rewrite app_nil_r|].
    split; [|intros ? ? ? []].
    exists []. split; [now rewrite app_nil_r | intros ? ? []].
  - assert (Skip : forall x,
               (forall rid conf, x <> InvalidConfidence rid conf) ->
               (forall lr d rid, r = HRef lr ->
                  st_heap st !! lr = Some (ODict d) ->
                  kept_id d = Some rid -> False) ->
               validate_loop (S i) rules (add_issue st x) = Ok st' ->
               evolves (st_heap st) (st_heap st') /\
               (exists new, st_normalized st' = st_normalized st ++ new) /\
               (exists new, st_issues st' = st_issues st ++ new /\
                            confidence_issues_sound new) /\
               forall lr d rid,
                 In (HRef lr) (r :: rules) -> st_heap st !! lr = Some (ODict d) ->
                 kept_id d = Some rid ->
                 rule_outcome (st_heap st) (st_heap st') (st_normalized st')
                              (st_issues st') d rid).
    { intros x Hx Hhead Hloop.
      destruct (IH _ _ _ Hloop) as (E & N & (new & Hn & Snd) & R).
      cbn [add_issue st_heap st_issues st_normalized] in *.
      split; [exact E|]. split; [exact N|]. split.
      - exists (x :: new). rewrite Hn, <- app_assoc. split; [reflexivity|].
        intros rid conf [Hin|Hin]; [now destruct (Hx rid conf) | eauto].
      - intros lr d rid [->|Hin] Hd Hk; [now destruct (Hhead lr d rid eq_refl Hd Hk)|].
        now apply (R lr). }
    cbn [validate_loop] in H.
    destruct (as_dict (st_heap st) r) as [[lr0 d0]|] eqn:D.
    + apply as_dict_Some in D as [-> Hd0].
      assert (Hnone : kept_id d0 = None ->
                      forall lr d rid, HRef lr0 = HRef lr ->
                        st_heap st !! lr = Some (ODict d) ->
                        kept_id d = Some rid -> False).
      { intros Hk lr d rid [= <-] Hd Hkd. congruence. }
      destruct (assoc "id" d0) as [[a|l]|] eqn:Hid.
      * assert (Da : a = ANone \/ a <> ANone)
          by (destruct a; first [now left | right; discriminate]).
        destruct Da as [->|Ha].
        { apply (Skip (RuleMissingId i)); [discriminate | | exact H].
          apply Hnone. unfold kept_id. now rewrite Hid. }
        assert (Hk0 : kept_id d0 = Some a).
        { unfold kept_id. rewrite Hid. now destruct a. }
        assert (H' : validate_loop (S i) rules (validate_rule lr0 d0 a st) = Ok st').
        { now destruct a. }
        clear H.
        destruct (validate_rule_spec lr0 d0 a st Hd0) as (E0 & Hnr & Hc & Hiss).
        cbn zeta in *.
        destruct (IH _ _ _ H') as (E & (newn & Hnn) & (new & Hn & Snd) & R).
        destruct Hnr as (lnr & nr & Hn0 & Hf & Hlnr & Hconf & Hconds).
        destruct Hiss as (new0 & Hi0 & Hnew0).
        split; [eapply evolves_trans; eassumption|].
        split; [exists ([HRef lnr] ++ newn); rewrite Hnn, Hn0; now rewrite <- app_assoc|].
        split.
        { exists (new0 ++ new). rewrite Hn, Hi0, <- app_assoc. split; [reflexivity|].
          intros rid conf Hin. apply in_app_or in Hin as [Hin|Hin]; [|eauto].
          apply Hnew0 in Hin as (_ & -> & Hraw). exact Hraw. }
        intros lr d rid Hin Hd Hk.
        destruct (decide (lr = lr0)) as [->|Hne].
        { assert (d = d0) by congruence. subst d.
          assert (rid = a) by congruence. subst rid.
          apply (rule_outcome_later _ (st_heap (validate_rule lr0 d0 a st)) _
                   (st_normalized (validate_rule lr0 d0 a st)) _
                   (st_issues (validate_rule lr0 d0 a st))); [|exact E| |].
          - unfold rule_outcome. cbn zeta. split; [|split; [|split]].
            + exists lnr, nr. rewrite Hn0. split; [apply in_or_app; right; now left|].
              auto.
            + intros Hraw. rewrite Hi0. apply in_or_app. right.
              apply Hnew0. auto.
            + intros lc items A B. eapply evolves_list; eauto.
            + exact Hc.
          - rewrite Hnn. intros x Hx. apply in_or_app. now left.
          - rewrite Hn. intros x Hx. apply in_or_app. now left. }
        destruct Hin as [[= ->]|Hin]; [contradiction|].
        destruct (evolves_entries _ _ lr d E0 Hd) as (d1 & Hd1 & _ & K).
        apply (rule_outcome_earlier _ (st_heap (validate_rule lr0 d0 a st)) _ _ _ d d1);
          [exact E0 | exact K |].
        apply (R lr); [exact Hin | exact Hd1 |].
        unfold kept_id in *. now rewrite K by discriminate.
      * discriminate H.
      * apply (Skip (RuleMissingId i)); [discriminate | | exact H].
        apply Hnone. unfold kept_id. now rewrite Hid.
    + apply (Skip (RuleNotDict i)); [discriminate | | exact H].
      intros lr d rid -> Hd _. unfold as_dict in D. rewrite Hd in D. discriminate.
Qed.

Lemma hashable_ids_evolves (h h' : heap) (rules : list hval) :
  evolves h h' -> hashable_ids h rules -> hashable_ids h' rules.
Proof.
  intros E. unfold hashable_ids. apply List.Forall_impl.
  intros [a|l]; [auto|].
  destruct (h !! l) as [[items|d]|] eqn:Hl; [| |intros []].
  - now rewrite (evolves_list h h' l items E Hl).
  - destruct (evolves_entries h h' l d E Hl) as (d' & -> & _ & K).
    now rewrite K by discriminate.
Qed.


End ValidateFacts.

(** ** The loop of the validator, pass by pass *)

Module ValidateLoop.
Import Py RuleImport ImportSpec ImportMore.
Import PyFacts ValidateFacts.
Local Open Scope Q_scope.

(** *** The issues of one rule *)

Lemma validate_condition_of_rule (rid : atom) (j : nat) (d : list (string * hval)) :
  Forall (of_rule rid) (snd (validate_condition rid j d)).
Proof.
  unfold validate_condition.
  destruct (has_key "type" d), (has_key "op" d); cbn zeta beta iota;
    match goal with
    | |- context [hfloat ?w] => destruct (hfloat w)
    end; cbn [snd app]; repeat constructor.
Qed.

Lemma validate_conditions_of_rule (rid : atom) (items : list hval) :
  forall (j : nat) (h : heap) (issues : list issue),
    exists new, snd (validate_conditions rid j items h issues) = issues ++ new /\
                Forall (of_rule rid) new.
Proof.
  induction items as [|c items IH]; intros j h issues; cbn [validate_conditions].
  - exists []. split; [now rewrite app_nil_r | constructor].
  - destruct (as_dict h c) as [[l d]|].
    + pose proof (validate_condition_of_rule rid j d) as F.
      destruct (validate_condition rid j d) as [d' new]. cbn [snd] in F.
      destruct (IH (S j) (<[l := ODict d']> h) (issues ++ new)) as (new' & -> & F').
      exists (new ++ new'). split; [now rewrite app_assoc|].
      apply Forall_app. auto.
    + destruct (IH (S j) h (issues ++ [ConditionNotDict rid j])) as (new' & -> & F').
      exists (ConditionNotDict rid j :: new'). split; [now rewrite <- app_assoc|].
      constructor; [split; reflexivity | exact F'].
Qed.

Lemma conditions_of_of_rule (rid : atom) (d : list (string * hval)) (h : heap) :
  Forall (of_rule rid) (snd (fst (conditions_of rid d h))).
Proof.
  unfold conditions_of.
  destruct (assoc "conditions" d) as [[[]|lc]|]; cbn zeta;
    try (cbn [as_list fst snd]; repeat constructor).
  cbn [as_list]. destruct (h !! lc) as [[items|d0]|]; cbn [fst snd];
    repeat constructor.
Qed.

Lemma validate_rule_more (lr : loc) (d : list (string * hval)) (rid : atom)
  (st : vstate) :
  st_heap st !! lr = Some (ODict d) ->
  let st' := validate_rule lr d rid st in
  evolves (st_heap st) (st_heap st') /\
  st_seen_ids st' = st_seen_ids st ++ [rid] /\
  (exists lnr nr,
     st_normalized st' = st_normalized st ++ [HRef lnr] /\
     st_heap st !! lnr = None /\
     st_heap st' !! lnr = Some (ODict nr) /\
     assoc "confidence" nr =
       Some (HAtom (AFloat (stored_confidence
                              (entry_or d "confidence" (HAtom (AFloat (FFin (1 # 2)))))))) /\
     forall k, ~ In k written_keys -> assoc k nr = assoc k d) /\
  (exists rest,
     st_issues st' =
       st_issues st ++
       (if existsb (atom_eq rid) (st_seen_ids st) then [DuplicateId rid] else []) ++
       rest /\
     Forall (of_rule rid) rest).
Proof.
  intros Hlr. cbn zeta. unfold validate_rule, stored_confidence, entry_or.
  set (h := st_heap st) in *.
  set (conf := match assoc "confidence" d with
               | Some c => c
               | None => HAtom (AFloat (FFin (1 # 2)))
               end).
  set (i1 := if existsb (atom_eq rid) (st_seen_ids st) then [DuplicateId rid] else []).
  set (i2 := if truthy h _ then [] else [RuleMissingName rid]).
  assert (I2 : Forall (of_rule rid) i2).
  { unfold i2. destruct (truthy _ _); repeat constructor. }
  set (ni := match _normalize_confidence_raw conf with
             | Some q => (q, [])
             | None => (FFin (1 # 2), [InvalidConfidence rid conf])
             end).
  assert (N : fst ni = match _normalize_confidence_raw conf with
                       | Some q => q
                       | None => FFin (1 # 2)
                       end) by (unfold ni; now destruct (_normalize_confidence_raw conf)).
  assert (I3 : Forall (of_rule rid) (snd ni)).
  { unfold ni. destruct (_normalize_confidence_raw conf); repeat constructor. }
  destruct ni as [norm i3]. cbn [fst snd] in N, I3.
  pose proof (conditions_of_of_rule rid d h) as I4.
  destruct (conditions_of_spec rid d h) as (E1 & _ & _ & _).
  destruct (conditions_of rid d h) as [[[conds items] i4] h1].
  cbn [fst snd] in E1, I4.
  match goal with
  | |- context [validate_conditions ?a ?b ?c ?e ?f] =>
      destruct (validate_conditions_spec a c b e f) as (E2 & _ & _);
      destruct (validate_conditions_of_rule a c b e f) as (new & Hn & Inew);
      destruct (validate_conditions a b c e f) as [h2 issues]
  end.
  cbn [fst snd] in E2, Hn.
  assert (E : evolves h h2) by (eapply evolves_trans; eassumption).
  destruct (evolves_entries h h2 lr d E Hlr) as (d' & Hd' & _ & K).
  rewrite Hd'.
  set (nr := assoc_set "conditions" conds
               (assoc_set "confidence" (HAtom (AFloat norm)) d')).
  pose proof (alloc_fresh (ODict nr) h2) as F.
  pose proof (alloc_lookup (ODict nr) h2) as L.
  pose proof (evolves_alloc (ODict nr) h2) as E3.
  destruct (alloc (ODict nr) h2) as [lnr h3]. cbn [fst snd] in F, L, E3.
  cbn [st_heap st_issues st_normalized st_seen_ids].
  split; [eapply evolves_trans; eassumption|].
  split; [reflexivity|].
  split.
  - exists lnr, nr. split; [reflexivity|].
    split; [now apply (evolves_None h h2)|]. split; [exact L|].
    split.
    + unfold nr. rewrite assoc_set_ne by discriminate.
      rewrite assoc_set_eq. now rewrite N.
    + intros k Hk. unfold written_keys in Hk. cbn [In] in Hk.
      unfold nr. rewrite !assoc_set_ne by (intros <-; tauto).
      apply K; intros ->; tauto.
  - exists (i2 ++ i3 ++ i4 ++ new). split.
    + rewrite Hn. now rewrite <- !app_assoc.
    + rewrite !Forall_app. auto.
Qed.

(** *** One pass of the loop over the rules *)

Lemma hashable_ids_cons (h : heap) (r : hval) (rules : list hval) :
  hashable_ids h (r :: rules) -> hashable_ids h [r] /\ hashable_ids h rules.
Proof.
  unfold hashable_ids. intros H. apply Forall_cons in H as [H1 H2].
  split; [constructor; [exact H1 | constructor] | exact H2].
Qed.

Lemma validate_loop_cons (h0 : heap) (i : nat) (r : hval) (rules : list hval)
  (st : vstate) :
  evolves h0 (st_heap st) -> hashable_ids h0 [r] ->
  exists next,
    validate_loop i (r :: rules) st = validate_loop (S i) rules next /\
    evolves (st_heap st) (st_heap next) /\ step_of h0 i r st next.
Proof.
  intros E H. unfold hashable_ids in H. apply Forall_cons in H as [H _].
  unfold step_of, classify. cbn [validate_loop].
  destruct r as [a|l]; cbn [as_dict].
  { eexists. split; [reflexivity|]. split; [apply evolves_refl | reflexivity]. }
  destruct (h0 !! l) as [[items|d0]|] eqn:L; [| |contradiction].
  - rewrite (evolves_list h0 _ l items E L).
    eexists. split; [reflexivity|]. split; [apply evolves_refl | reflexivity].
  - destruct (evolves_entries h0 _ l d0 E L) as (d1 & L1 & _ & K).
    rewrite L1. rewrite (K "id") by discriminate. unfold kept_id.
    destruct (assoc "id" d0) as [[a|l']|]; [| contradiction |].
    + assert (Da : a = ANone \/ a <> ANone)
        by (destruct a; first [now left | right; discriminate]).
      destruct Da as [->|Ha].
      * eexists. split; [reflexivity|].
        split; [apply evolves_refl | reflexivity].
      * exists (validate_rule l d1 a st).
        destruct (validate_rule_more l d1 a st L1) as (E1 & _).
        split; [now destruct a|]. split; [exact E1|].
        destruct a; try contradiction; exists d1; auto.
    + eexists. split; [reflexivity|].
      split; [apply evolves_refl | reflexivity].
Qed.


Lemma kept_ids_cons (h : heap) (r : hval) (rules : list hval) :
  kept_ids h (r :: rules) = kept_ids h [r] ++ kept_ids h rules.
Proof. unfold kept_ids. cbn. now destruct (classify h r). Qed.

(** What one pass appends to the issues and to the ids seen. *)
Lemma step_issues (h0 : heap) (i : nat) (r : hval) (st next : vstate) :
  step_of h0 i r st next ->
  st_seen_ids next = st_seen_ids st ++ kept_ids h0 [r] /\
  exists seg,
    st_issues next = st_issues st ++ seg /\
    match classify h0 r with
    | NotDict => seg = [RuleNotDict i]
    | MissingId => seg = [RuleMissingId i]
    | Kept _ _ rid =>
        exists rest,
          seg = (if existsb (atom_eq rid) (st_seen_ids st)
                 then [DuplicateId rid] else []) ++ rest /\
          Forall (of_rule rid) rest
    end.
Proof.
  unfold step_of, kept_ids. cbn [omap list_omap].
  destruct (classify h0 r) as [| |lr d rid].
  - intros ->. cbn. split; [now rewrite app_nil_r | eauto].
  - intros ->. cbn. split; [now rewrite app_nil_r | eauto].
  - intros (d1 & L1 & _ & ->).
    destruct (validate_rule_more lr d1 rid st L1) as (_ & Hs & _ & rest & Hi & F).
    split; [exact Hs|]. eexists. split; [exact Hi|]. eauto.
Qed.

(** *** The rules that are kept *)



(** *** The issues *)

Lemma of_rule_not_index (rid : atom) (l : list issue) (x : issue) :
  Forall (of_rule rid) l -> In x l -> issue_rule x = Some rid /\ is_duplicate x = false.
Proof. intros F Hin. rewrite List.Forall_forall in F. exact (F x Hin). Qed.

Lemma validate_loop_issues (h0 : heap) (rules : list hval) :
  forall (i : nat) (st st' : vstate),
    evolves h0 (st_heap st) -> hashable_ids h0 rules ->
    validate_loop i rules st = Ok st' ->
    exists new,
      st_issues st' = st_issues st ++ new /\
      (forall n, In (RuleNotDict n) new <->
                 exists k r, n = (i + k)%nat /\ nth_error rules k = Some r /\
                             classify h0 r = NotDict) /\
      (forall n, In (RuleMissingId n) new <->
                 exists k r, n = (i + k)%nat /\ nth_error rules k = Some r /\
                             classify h0 r = MissingId) /\
      (forall x rid, In x new -> issue_rule x = Some rid ->
                     In rid (kept_ids h0 rules)).
Proof.
  induction rules as [|r rules IH]; intros i st st' E H L.
  - injection L as <-. exists []. split; [now rewrite app_nil_r|].
    split; [|split]; [intros n; split; [intros [] | intros ([|k] & r & _ & N & _); discriminate N].. |intros ? ? []].
  - apply hashable_ids_cons in H as [H1 H2].
    destruct (validate_loop_cons h0 i r rules st E H1) as (next & Hl & En & St).
    rewrite Hl in L.
    assert (E' : evolves h0 (st_heap next)) by (eapply evolves_trans; eassumption).
    destruct (IH _ _ _ E' H2 L) as (new & Hn & A & B & R).
    destruct (step_issues h0 i r st next St) as (_ & seg & Hseg & Cl).
    exists (seg ++ new). split; [rewrite Hn, Hseg; now rewrite <- app_assoc|].
    rewrite kept_ids_cons. unfold kept_ids at 1. cbn [omap list_omap].
    assert (Tail : forall (v : verdict) n,
               (exists k r', n = (S i + k)%nat /\ nth_error rules k = Some r' /\
                             classify h0 r' = v) ->
               exists k r', n = (i + k)%nat /\ nth_error (r :: rules) k = Some r' /\
                            classify h0 r' = v).
    { intros v n (k & r' & -> & N & C). exists (S k), r'.
      split; [lia|]. split; [exact N | exact C]. }
    assert (Split : forall (v : verdict) n,
               (exists k r', n = (i + k)%nat /\ nth_error (r :: rules) k = Some r' /\
                             classify h0 r' = v) ->
               (n = i /\ classify h0 r = v) \/
               exists k r', n = (S i + k)%nat /\ nth_error rules k = Some r' /\
                            classify h0 r' = v).
    { intros v n ([|k] & r' & -> & N & C).
      - left. injection N as <-. split; [lia | exact C].
      - right. exists k, r'. split; [lia|]. split; [exact N | exact C]. }
    destruct (classify h0 r) as [| |lr d rid] eqn:C.
    + subst seg. split; [|split].
      * intros n. cbn [app In]. rewrite A. split.
        -- intros [[= <-]|T]; [|now apply Tail].
           exists 0%nat, r. split; [lia|]. split; [reflexivity | exact C].
        -- intros T. apply Split in T as [[-> _]|T]; [now left | now right].
      * intros n. cbn [app In]. rewrite B. split.
        -- intros [[=]|T]. now apply Tail.
        -- intros T. apply Split in T as [[_ [=]]|T]. now right.
      * intros x rid [<-|Hin] Hr; [discriminate Hr|]. cbn [app]. eauto.
    + subst seg. split; [|split].
      * intros n. cbn [app In]. rewrite A. split.
        -- intros [[=]|T]. now apply Tail.
        -- intros T. apply Split in T as [[_ [=]]|T]. now right.
      * intros n. cbn [app In]. rewrite B. split.
        -- intros [[= <-]|T]; [|now apply Tail].
           exists 0%nat, r. split; [lia|]. split; [reflexivity | exact C].
        -- intros T. apply Split in T as [[-> _]|T]; [now left | now right].
      * intros x rid [<-|Hin] Hr; [discriminate Hr|]. cbn [app]. eauto.
    + destruct Cl as (rest & -> & F).
      assert (Seg : forall x, In x ((if existsb (atom_eq rid) (st_seen_ids st)
                                     then [DuplicateId rid] else []) ++ rest) ->
                              issue_rule x = Some rid).
      { intros x Hin. apply in_app_or in Hin as [Hin|Hin].
        - destruct (existsb _ _); [|destruct Hin].
          destruct Hin as [<-|[]]. reflexivity.
        - now apply (of_rule_not_index rid rest). }
      split; [|split].
      * intros n. rewrite in_app_iff, A. split.
        -- intros [Hin|T]; [apply Seg in Hin; discriminate Hin | now apply Tail].
        -- intros T. apply Split in T as [[_ [=]]|T]. now right.
      * intros n. rewrite in_app_iff, B. split.
        -- intros [Hin|T]; [apply Seg in Hin; discriminate Hin | now apply Tail].
        -- intros T. apply Split in T as [[_ [=]]|T]. now right.
      * intros x rid' Hin Hr. apply in_app_or in Hin as [Hin|Hin].
        -- apply Seg in Hin. left. congruence.
        -- right. eauto.
Qed.

Lemma validate_loop_duplicates (h0 : heap) (rules : list hval) :
  forall (i : nat) (st st' : vstate),
    evolves h0 (st_heap st) -> hashable_ids h0 rules ->
    validate_loop i rules st = Ok st' ->
    st_seen_ids st' = st_seen_ids st ++ kept_ids h0 rules /\
    exists new,
      st_issues st' = st_issues st ++ new /\
      forall rid,
        In (DuplicateId rid) new <->
        exists pre r post lr d,
          rules = pre ++ r :: post /\ classify h0 r = Kept lr d rid /\
          existsb (atom_eq rid) (st_seen_ids st ++ kept_ids h0 pre) = true.
Proof.
  induction rules as [|r rules IH]; intros i st st' E H L.
  - injection L as <-. split; [cbn; now rewrite app_nil_r|].
    exists []. split; [now rewrite app_nil_r|].
    intros rid. split; [intros [] | intros ([|? ?] & ? & ? & ? & ? & N & _); discriminate N].
  - apply hashable_ids_cons in H as [H1 H2].
    destruct (validate_loop_cons h0 i r rules st E H1) as (next & Hl & En & St).
    rewrite Hl in L.
    assert (E' : evolves h0 (st_heap next)) by (eapply evolves_trans; eassumption).
    destruct (IH _ _ _ E' H2 L) as (Hs & new & Hn & D).
    destruct (step_issues h0 i r st next St) as (Hs1 & seg & Hseg & Cl).
    split; [rewrite Hs, Hs1, (kept_ids_cons h0 r rules); now rewrite <- app_assoc|].
    exists (seg ++ new). split; [rewrite Hn, Hseg; now rewrite <- app_assoc|].
    assert (Tail : forall rid,
               In (DuplicateId rid) new <->
               exists pre r' post lr d,
                 rules = pre ++ r' :: post /\ classify h0 r' = Kept lr d rid /\
                 existsb (atom_eq rid) (st_seen_ids st ++ kept_ids h0 (r :: pre)) = true).
    { intros rid. rewrite D. rewrite Hs1.
      split; intros (pre & r' & post & lr & d & A & B & C);
        exists pre, r', post, lr, d; (split; [exact A|]); (split; [exact B|]).
      - rewrite (kept_ids_cons h0 r pre), app_assoc. exact C.
      - rewrite (kept_ids_cons h0 r pre), app_assoc in C. exact C. }
    assert (Head : forall rid,
               In (DuplicateId rid) seg <->
               exists lr d, classify h0 r = Kept lr d rid /\
                            existsb (atom_eq rid) (st_seen_ids st) = true).
    { intros rid. destruct (classify h0 r) as [| |lr d rid0] eqn:C.
      - subst seg. split; [intros [[=]|[]] | intros (? & ? & [=] & _)].
      - subst seg. split; [intros [[=]|[]] | intros (? & ? & [=] & _)].
      - destruct Cl as (rest & -> & F). rewrite in_app_iff. split.
        + intros [Hin|Hin].
          * destruct (existsb (atom_eq rid0) (st_seen_ids st)) eqn:X; [|destruct Hin].
            destruct Hin as [[= <-]|[]]. eauto.
          * apply (of_rule_not_index rid0 rest _ F) in Hin as [_ Hd]. discriminate Hd.
        + intros (lr' & d' & [= <- <- <-] & X). left. rewrite X. now left. }
    intros rid. rewrite in_app_iff, Head, Tail. split.
    + intros [(lr & d & C & X)|(pre & r' & post & lr & d & A & B & C)].
      * exists [], r, rules, lr, d. cbn [app kept_ids omap list_omap].
        rewrite app_nil_r. auto.
      * exists (r :: pre), r', post, lr, d. split; [cbn; now rewrite A | auto].
    + intros ([|r0 pre] & r' & post & lr & d & A & B & C).
      * left. cbn [app] in A. injection A as <- <-.
        cbn [kept_ids omap list_omap] in C. rewrite app_nil_r in C. eauto.
      * right. cbn [app] in A. injection A as <- ->.
        exists pre, r', post, lr, d. auto.
Qed.

(** The new dicts are new objects, one apart from the other. *)
Lemma validate_loop_fresh (rules : list hval) :
  forall (i : nat) (st st' : vstate),
    hashable_ids (st_heap st) rules ->
    validate_loop i rules st = Ok st' ->
    exists new,
      st_normalized st' = st_normalized st ++ new /\
      List.NoDup new /\
      forall v, In v new ->
                exists l, v = HRef l /\ st_heap st !! l = None /\
                          is_Some (st_heap st' !! l).
Proof.
  induction rules as [|r rules IH]; intros i st st' H L.
  - injection L as <-. exists []. split; [now rewrite app_nil_r|].
    split; [constructor | intros ? []].
  - apply hashable_ids_cons in H as [H1 H2].
    destruct (validate_loop_cons (st_heap st) i r rules st (evolves_refl _) H1)
      as (next & Hl & En & St).
    rewrite Hl in L.
    pose proof (hashable_ids_evolves _ _ rules En H2) as H2'.
    destruct (IH _ _ _ H2' L) as (new & Hn & ND & Fr).
    destruct (validate_loop_spec rules _ _ _ L) as (El & _).
    assert (Frs : forall v, In v new ->
                   exists l, v = HRef l /\ st_heap st !! l = None /\
                             is_Some (st_heap st' !! l)).
    { intros v Hin. destruct (Fr v Hin) as (l & -> & Hf & Hs).
      exists l. split; [reflexivity|]. split; [|exact Hs].
      now apply (evolves_None (st_heap st) (st_heap next)). }
    unfold step_of in St.
    destruct (classify (st_heap st) r) as [| |lr d rid] eqn:C.
    + subst next. exists new. auto.
    + subst next. exists new. auto.
    + destruct St as (d1 & L1 & _ & ->).
      destruct (validate_rule_more lr d1 rid st L1)
        as (_ & _ & (lnr & nr & Hno & Hf & Hnr & _) & _).
      exists (HRef lnr :: new). split; [rewrite Hn, Hno; now rewrite <- app_assoc|].
      split.
      * constructor; [|exact ND]. intros Hin.
        destruct (Fr _ Hin) as (l & [= <-] & Hnone & _). congruence.
      * intros v [<-|Hin]; [|now apply Frs].
        exists lnr. split; [reflexivity|]. split; [exact Hf|].
        destruct (evolves_entries _ _ lnr nr El Hnr) as (nr' & -> & _). eauto.
Qed.

Lemma review_hashable : hashable_ids review_store review_rules.
Proof.
  repeat (constructor; [vm_compute; exact I|]). constructor.
Qed.



(** *** The issues about a confidence *)


End ValidateLoop.

(** ** The claims about validation *)

Module ValidateClaims.
Import Py RuleImport ImportSpec ImportMore PyFacts ValidateFacts ValidateLoop.
Local Open Scope Q_scope.












End ValidateClaims.
